(** * sspBC bid adapter and unicornId submodule: a shallow embedding

    Sources embedded here:
    - modules/sspBCBidAdapter.js  (request builder, response parser,
      native asset handling, floor computation, size labels);
    - modules/unicornIdSystem.js  (decode / getId).
    A later revision of the adapter keeps [converter.imp],
    [getHighestFloor] and [getCurrency] as they are here and hands response
    parsing over to the host converter.

    Conventions of the embedding.
    - A JS property that may be [undefined] is an [option]; [None] is
      [undefined].  Destructuring defaults ([x = d]) fire on [None] only.
    - JS strings are [string]; truthiness of a string is non-emptiness.
    - JS numbers that carry prices and floors are rationals ([Q]); pixel
      sizes and counters are [N], and a product of two sizes is rounded as
      a double is; native asset ids and type codes are [Z].
    - Plain JS objects used as dictionaries ([adUnitsCalled],
      [adSizesCalled], [oneCodeDetection]) are [gmap string _] for their
      own properties; where the key is an ad-unit code, a read also finds
      the members inherited from [Object.prototype].
    - An exception that is caught is [None] in an [option]; the only one
      raised and caught inside the adapter is that of the native payload.
      A call that may raise without being caught has an [Outcome]. *)

From Stdlib Require Import QArith Qminmax.
From stdpp Require Import gmap strings list pretty.

Close Scope Q_scope.
Open Scope string_scope.
Open Scope list_scope.

(** ** JavaScript helpers *)

Module JS.

(** Truthiness of an optional string: [undefined] and [""] are falsy. *)
Definition truthy (o : option string) : bool :=
  match o with
  | Some s => negb (String.eqb s "")
  | None => false
  end.

(** [s.repeat(n)] *)
Fixpoint repeat (s : string) (n : nat) : string :=
  match n with
  | O => ""
  | S n' => s +:+ repeat s n'
  end.

(** First [n] characters of [s] ([s.substring(0, n)]). *)
Fixpoint take (n : nat) (s : string) : string :=
  match n, s with
  | S n', String c s' => String c (take n' s')
  | _, _ => ""
  end.

(** [String.prototype.padStart(targetLength, padString)]:
    the receiver is returned unchanged when it is already long enough or
    the filler is empty; otherwise the filler is repeated, truncated to the
    missing length and prepended. *)
Definition padStart (s : string) (targetLength : nat) (padString : string) : string :=
  let len := String.length s in
  if (targetLength <=? len)%nat then s
  else if String.eqb padString "" then s
  else
    let fillLen := (targetLength - len)%nat in
    take fillLen (repeat padString fillLen) +:+ s.

(** [s.startsWith(p)] *)
Fixpoint startsWith (p s : string) : bool :=
  match p, s with
  | "", _ => true
  | String a p', String b s' => if Ascii.eqb a b then startsWith p' s' else false
  | String _ _, "" => false
  end.

(** [s.includes(p)]: [p] occurs somewhere in [s]. *)
Fixpoint includes (s p : string) : bool :=
  startsWith p s ||
  match s with
  | "" => false
  | String _ s' => includes s' p
  end.

(** [s.substring(n)] *)
Fixpoint drop (n : nat) (s : string) : string :=
  match n, s with
  | S n', String _ s' => drop n' s'
  | _, _ => s
  end.

(** Template-literal rendering of a possibly undefined string. *)
Definition tmpl (o : option string) : string := default "undefined" o.

(** A small universe of JS values, enough for [typeof]. *)
#[warnings="-register-all"]
Inductive value :=
| VUndefined
| VNull
| VBool (b : bool)
| VNum (q : Q)
| VStr (s : string)
| VObj (fields : list (string * value)).

(** Truthiness of a value: [undefined], [null], [false], [0] and [""] are
    falsy. *)
Definition truthyValue (v : value) : bool :=
  match v with
  | VUndefined => false
  | VNull => false
  | VBool b => b
  | VNum q => negb (Qeq_bool q 0)
  | VStr s => negb (String.eqb s "")
  | VObj _ => true
  end.

Definition typeof (v : value) : string :=
  match v with
  | VUndefined => "undefined"
  | VNull => "object"
  | VBool _ => "boolean"
  | VNum _ => "number"
  | VStr _ => "string"
  | VObj _ => "object"
  end.

End JS.

(** ** unicornIdSystem.js *)

Module Unicorn.

Definition MODULE_NAME := "unicornId".
Definition ID_TOKEN := "unicornToken".

(** [decode(value)] *)
Definition decode (v : JS.value) : JS.value :=
  if String.eqb (JS.typeof v) "string"
  then JS.VObj [("unicornId", v)]
  else JS.VUndefined.

(** [getId(config)]; [getDataFromLocalStorage] is the accessor of the
    host's storage manager ([storage.getDataFromLocalStorage]). *)
Definition getId (getDataFromLocalStorage : string -> JS.value)
    (config : JS.value) : JS.value :=
  let unicornIdToken := getDataFromLocalStorage ID_TOKEN in
  JS.VObj [("id", unicornIdToken)].

End Unicorn.

(** ** sspBCBidAdapter.js: data *)

Definition BIDDER_CODE := "sspBC".
Definition DEFAULT_CURRENCY := "PLN".
Definition TMAX : N := 450.

(** Bidder-specific parameters: [{ id, siteId }]. *)
Record Params := mkParams {
  p_id : option string;
  p_siteId : option string
}.

Definition emptyParams : Params := mkParams None None.

(** [bid.params] is an object on bid requests; timeout notifications carry
    a one-element array, which [unpackParams] accepts as well. *)
Inductive ParamsField :=
| ParamsObject (p : Params)
| ParamsArray (l : list Params).

(** Argument of [slot.getFloor]. *)
Record FloorQuery := mkFloorQuery {
  fq_mediaType : string;
  fq_size : option (N * N);
  fq_currency : string
}.

(** Object returned by [slot.getFloor]. *)
Record FloorInfo := mkFloorInfo {
  fi_floor : option Q;
  fi_currency : option string
}.

Record BidRequest := mkBidRequest {
  bidId : string;
  adUnitCode : string;
  sizes : list (N * N);
  params : option ParamsField;
  getFloor : option (FloorQuery -> FloorInfo)
}.

(** ** Impression ids *)

(** [const { id, siteId } = params] with [params = {}] by default, as in
    [converter.imp]; an array has neither property. *)
Definition impParams (b : BidRequest) : Params :=
  match params b with
  | Some (ParamsObject p) => p
  | Some (ParamsArray _) => emptyParams
  | None => emptyParams
  end.

(** [imp.id = id && siteId ? id.padStart(3, '0') : 'bidid-' + bidId] *)
Definition imp_id (b : BidRequest) : string :=
  let p := impParams b in
  match p_id p with
  | Some i =>
      if JS.truthy (p_id p) && JS.truthy (p_siteId p)
      then JS.padStart i 3 "0"
      else "bidid-" +:+ bidId b
  | None => "bidid-" +:+ bidId b
  end.

(** [unpackParams(bidParams)] *)
Definition unpackParams (bidParams : option ParamsField) : Params :=
  match bidParams with
  | Some (ParamsObject p) => p
  | Some (ParamsArray l) => default emptyParams (head l)
  | None => emptyParams
  end.

(** The id recomputed by the filter callback of [interpretResponse]:
    [currentBidId = id && siteId ? id : 'bidid-' + bidId]. *)
Definition currentBidId (b : BidRequest) : string :=
  let p := unpackParams (params b) in
  match p_id p with
  | Some i =>
      if JS.truthy (p_id p) && JS.truthy (p_siteId p)
      then i
      else "bidid-" +:+ bidId b
  | None => "bidid-" +:+ bidId b
  end.

(** ** Floors *)

(** The part of the host configuration read by the adapter:
    [config.getConfig('currency.adServerCurrency')]. *)
Record Config := mkConfig {
  adServerCurrency : option string
}.

(** [getCurrency()]: the ad-server currency, or the default one. *)
Definition getCurrency (cfg : Config) : string :=
  match adServerCurrency cfg with
  | Some c => if JS.truthy (Some c) then c else DEFAULT_CURRENCY
  | None => DEFAULT_CURRENCY
  end.

(** [x > y] on numbers. *)
Definition Qgtb (x y : Q) : bool := negb (Qle_bool x y).

(** [Math.max(a, b, c)]: scan left to right, keeping the larger value. *)
Definition Math_max3 (a b c : Q) : Q :=
  let highest := a in
  let highest := if Qgtb b highest then b else highest in
  if Qgtb c highest then c else highest.

(** [const { floor = 0 } = slot.getFloor(query)] *)
Definition floorOf (gf : FloorQuery -> FloorInfo) (q : FloorQuery) : Q :=
  default 0%Q (fi_floor (gf q)).

Record FloorResult := mkFloorResult {
  floor : Q;
  currency : string
}.

(** The banner floor of [getHighestFloor]: a reduce over the sizes that
    starts from 0 ([sizes.length] being 0 leaves the initial 0). *)
Definition bannerFloorOf (gf : FloorQuery -> FloorInfo) (cur : string)
    (szs : list (N * N)) : Q :=
  match szs with
  | [] => 0%Q
  | _ =>
      fold_left
        (fun prev next =>
           let currentFloor := floorOf gf (mkFloorQuery "banner" (Some next) cur) in
           if Qgtb prev currentFloor then prev else currentFloor)
        szs 0%Q
  end.

(** [getHighestFloor(slot)] *)
Definition getHighestFloor (cfg : Config) (slot : BidRequest) : FloorResult :=
  let cur := getCurrency cfg in
  match getFloor slot with
  | Some gf =>
      let bannerFloor := bannerFloorOf gf cur (sizes slot) in
      let nativeFloor := floorOf gf (mkFloorQuery "native" None cur) in
      let videoFloor := floorOf gf (mkFloorQuery "video" None cur) in
      mkFloorResult (Math_max3 bannerFloor nativeFloor videoFloor) cur
  | None => mkFloorResult 0%Q cur
  end.

(** ** Size labels *)

(** The two module-level dictionaries behind [ext.data.pbsize], by their own
    properties.  Both are created as plain [{}]. *)
Record LabelState := mkLabelState {
  adUnitsCalled : gmap string string;
  adSizesCalled : gmap string N
}.

Definition initialLabels : LabelState := mkLabelState ∅ ∅.

(** The property names a plain [{}] inherits from [Object.prototype]: the
    members the language defines, with the legacy accessors. *)
Definition objectPrototypeNames : list string :=
  ["constructor"; "hasOwnProperty"; "isPrototypeOf"; "propertyIsEnumerable";
   "toLocaleString"; "toString"; "valueOf"; "__proto__";
   "__defineGetter__"; "__defineSetter__"; "__lookupGetter__"; "__lookupSetter__"].

Definition inheritedName (key : string) : bool :=
  bool_decide (key ∈ objectPrototypeNames).

(** What [dict[key]] reads on a plain object that holds labels: its own
    property when it has one, else the member inherited under that name (a
    function or, for [__proto__], the prototype itself), else [undefined]. *)
Inductive Member :=
  | OwnLabel (label : string)
  | Inherited
  | Missing.

Definition readMember (dict : gmap string string) (key : string) : Member :=
  match dict !! key with
  | Some label => OwnLabel label
  | None => if inheritedName key then Inherited else Missing
  end.

(** Truthiness of what was read: functions and objects are truthy. *)
Definition truthyMember (m : Member) : bool :=
  match m with
  | OwnLabel label => JS.truthy (Some label)
  | Inherited => true
  | Missing => false
  end.

(** ** Numbers *)

(** Sizes are JS numbers holding non-negative integers.  A product of two of
    them is the double nearest to the exact product: exact up to 2^53, and
    above it rounded to 53 significant bits, ties to the even neighbour.  A
    product too large for a double is [Infinity], for which 2^1024 stands. *)
Definition roundDouble (n : N) : N :=
  if (n <? 2 ^ 53)%N then n
  else
    let e := (N.log2 n - 52)%N in
    let q := (n / 2 ^ e)%N in
    let r := (n mod 2 ^ e)%N in
    let half := (2 ^ (e - 1))%N in
    let up := (half <? r)%N || ((r =? half)%N && N.odd q) in
    N.min ((if up then q + 1 else q) * 2 ^ e) (2 ^ 1024).

(** [s[0] * s[1]] *)
Definition area (s : N * N) : N := roundDouble (s.1 * s.2).

(** [[w, h].join('x')], for sizes that print in positional notation. *)
Definition joinSize (s : N * N) : string :=
  pretty s.1 +:+ "x" +:+ pretty s.2.

(** [sizes.length ? sizes.reduce((prev, next) =>
       prev[0] * prev[1] <= next[0] * next[1] ? next : prev).join('x') : '1x1'] *)
Definition impSize (szs : list (N * N)) : string :=
  match szs with
  | [] => "1x1"
  | first :: rest =>
      joinSize
        (fold_left (fun prev next => if (area prev <=? area next)%N then next else prev)
                   rest first)
  end.

(** [adSizesCalled[impSize] ? adSizesCalled[impSize] += 1 : 1] *)
Definition nextCount (st : LabelState) (size : string) : N :=
  match adSizesCalled st !! size with
  | Some k => if (k =? 0)%N then 1%N else (k + 1)%N
  | None => 1%N
  end.

(** The block guarded by [if (!adUnitsCalled[adUnitCode])]: a new ad unit
    bumps the counter of its size and stores its label. *)
Definition registerAdUnit (st : LabelState) (code size : string) : LabelState :=
  if truthyMember (readMember (adUnitsCalled st) code) then st
  else
    let n := nextCount st size in
    mkLabelState (<[code := size +:+ "_" +:+ pretty n]> (adUnitsCalled st))
                 (<[size := n]> (adSizesCalled st)).

(** The fields of an impression that [converter.imp] sets itself; the
    rest of the object comes from the host's [buildImp]. *)
Record Imp := mkImp {
  imp_ident : string;            (* imp.id *)
  tagid : string;
  bidfloor : Q;
  bidfloorcur : string;
  pbsize : Member                (* imp.ext.data.pbsize *)
}.

(** [converter.imp(buildImp, bidRequest, context)] *)
Definition converter_imp (cfg : Config) (st : LabelState) (bidRequest : BidRequest)
    : LabelState * Imp :=
  let fl := getHighestFloor cfg bidRequest in
  let size := impSize (sizes bidRequest) in
  let st' := registerAdUnit st (adUnitCode bidRequest) size in
  (st', mkImp (imp_id bidRequest) (adUnitCode bidRequest) (floor fl) (currency fl)
              (readMember (adUnitsCalled st') (adUnitCode bidRequest))).

(** Successive calls of [converter.imp], one per bid request, sharing the
    dictionaries. *)
Fixpoint buildImps (cfg : Config) (st : LabelState) (reqs : list BidRequest)
    : LabelState * list Imp :=
  match reqs with
  | [] => (st, [])
  | r :: rs =>
      let '(st1, i) := converter_imp cfg st r in
      let '(st2, imps) := buildImps cfg st1 rs in
      (st2, i :: imps)
  end.

(** The counter of a size, 0 while the size has not been seen. *)
Definition counter (st : LabelState) (size : string) : N :=
  default 0%N (adSizesCalled st !! size).

(** How many requests of [reqs] bring an ad-unit code that occurs neither in
    [seen] nor earlier in [reqs] and is no inherited name, with [size] as
    their size label. *)
Fixpoint newUnitsOfSize (size : string) (seen : list string) (reqs : list BidRequest) : N :=
  match reqs with
  | [] => 0%N
  | r :: rs =>
      ((if bool_decide (adUnitCode r ∈ seen) || inheritedName (adUnitCode r) then 0
        else if String.eqb (impSize (sizes r)) size then 1 else 0)
       + newUnitsOfSize size (adUnitCode r :: seen) rs)%N
  end.

(** ** Native assets *)

(** [nativeAssetMap], in the order its keys are enumerated by [for...in]. *)
Definition nativeAssetMap : list (string * Z) :=
  [("title", 0%Z); ("cta", 1%Z); ("icon", 2%Z); ("image", 3%Z);
   ("body", 4%Z); ("sponsoredBy", 5%Z)].

(** The body of [getNativeAssetType(id)] over a given id map: ids above 10
    are images, the others are looked up in the map; falling off the loop
    returns [undefined]. *)
Definition getNativeAssetTypeIn (assetMap : list (string * Z)) (id : option Z)
    : option string :=
  if match id with Some i => (10 <? i)%Z | None => false end
  then Some "image"
  else fst <$> List.find (fun entry => bool_decide (Some entry.2 = id)) assetMap.

(** [getNativeAssetType(id)] *)
Definition getNativeAssetType (id : option Z) : option string :=
  getNativeAssetTypeIn nativeAssetMap id.

Record Img := mkImg {
  img_w : option N;
  img_h : option N;
  img_url : option string;
  img_type : option Z
}.

Record Title := mkTitle { title_text : option string }.

Record Data := mkData {
  data_type : option Z;
  data_value : option string
}.

Record Asset := mkAsset {
  asset_id : option Z;
  asset_img : option Img;
  asset_title : option Title;
  asset_data : option Data
}.

Record Link := mkLink {
  link_url : option string;
  link_clicktrackers : option (list string)
}.

(** [jstracker] is either an array of urls or a single url. *)
Inductive JsTracker :=
| TrackerList (l : list string)
| TrackerOne (s : string).

Record NativeData := mkNativeData {
  nd_link : option Link;
  nd_imptrackers : option (list string);
  nd_jstracker : option JsTracker;
  nd_assets : option (list Asset)
}.

Record NativeImage := mkNativeImage {
  ni_url : string;
  ni_width : option N;
  ni_height : option N
}.

(** The object assembled by [parseNative]. *)
Record NativeResult := mkNativeResult {
  clickUrl : option string;
  clickTrackers : list string;
  impressionTrackers : option (list string);
  javascriptTrackers : option (list string);
  nr_title : option string;
  nr_image : option NativeImage;
  nr_icon : option NativeImage;
  nr_sponsoredBy : option string;
  nr_body : option string;
  nr_cta : option string
}.

(** The characters that form a substitution pattern in a replacement
    string: dollar, ampersand, backtick and single quote. *)
Definition dollarChar : Ascii.ascii := Ascii.ascii_of_nat 36.
Definition ampersandChar : Ascii.ascii := Ascii.ascii_of_nat 38.
Definition backtickChar : Ascii.ascii := Ascii.ascii_of_nat 96.
Definition quoteChar : Ascii.ascii := Ascii.ascii_of_nat 39.

(** The text inserted for one match by [String.prototype.replace] when the
    pattern has no capture group: in the replacement string a doubled dollar
    gives one dollar, dollar-ampersand the matched text, dollar-backtick the
    part of the subject before the match and dollar-quote the part after it;
    any other dollar stays. *)
Fixpoint getSubstitution (matched before after rep : string) {struct rep} : string :=
  match rep with
  | "" => ""
  | String c rest =>
      if Ascii.eqb c dollarChar then
        match rest with
        | "" => String c ""
        | String d rest' =>
            if Ascii.eqb d dollarChar
            then String dollarChar (getSubstitution matched before after rest')
            else if Ascii.eqb d ampersandChar
            then matched +:+ getSubstitution matched before after rest'
            else if Ascii.eqb d backtickChar
            then before +:+ getSubstitution matched before after rest'
            else if Ascii.eqb d quoteChar
            then after +:+ getSubstitution matched before after rest'
            else String c (getSubstitution matched before after rest)
        end
      else String c (getSubstitution matched before after rest)
  end.

(** [tracker.replace(new RegExp(pat, 'g'), rep)] for a literal, non-empty
    pattern: [before] is the part of the subject already scanned and [skip]
    counts the characters of a match still to be dropped. *)
Fixpoint replaceAllFrom (pat rep before : string) (skip : nat) (s : string) : string :=
  match s with
  | "" => ""
  | String c s' =>
      match skip with
      | S k => replaceAllFrom pat rep (before +:+ String c "") k s'
      | O =>
          if JS.startsWith pat s
          then getSubstitution pat before (JS.drop (String.length pat) s) rep
               +:+ replaceAllFrom pat rep (before +:+ String c "")
                     (String.length pat - 1) s'
          else String c (replaceAllFrom pat rep (before +:+ String c "") 0 s')
      end
  end.

Definition macroReplacer (adUnit : string) (tracker : string) : string :=
  replaceAllFrom "%native_dom_id%" adUnit "" 0 tracker.

Definition emptyImg : Img := mkImg None None None None.
Definition emptyTitle : Title := mkTitle None.
Definition emptyData : Data := mkData None None.
Definition emptyLink : Link := mkLink None None.

(** [x === n] for an optional number. *)
Definition isCode (x : option Z) (n : Z) : bool := bool_decide (x = Some n).

(** [detectedType === name] *)
Definition isType (t : option string) (name : string) : bool :=
  bool_decide (t = Some name).

(** Assignments to single fields of the result object. *)
Definition setTitle (r : NativeResult) (v : string) : NativeResult :=
  mkNativeResult (clickUrl r) (clickTrackers r) (impressionTrackers r)
    (javascriptTrackers r) (Some v) (nr_image r) (nr_icon r)
    (nr_sponsoredBy r) (nr_body r) (nr_cta r).

Definition setImage (r : NativeResult) (v : NativeImage) : NativeResult :=
  mkNativeResult (clickUrl r) (clickTrackers r) (impressionTrackers r)
    (javascriptTrackers r) (nr_title r) (Some v) (nr_icon r)
    (nr_sponsoredBy r) (nr_body r) (nr_cta r).

Definition setIcon (r : NativeResult) (v : NativeImage) : NativeResult :=
  mkNativeResult (clickUrl r) (clickTrackers r) (impressionTrackers r)
    (javascriptTrackers r) (nr_title r) (nr_image r) (Some v)
    (nr_sponsoredBy r) (nr_body r) (nr_cta r).

Definition setSponsoredBy (r : NativeResult) (v : string) : NativeResult :=
  mkNativeResult (clickUrl r) (clickTrackers r) (impressionTrackers r)
    (javascriptTrackers r) (nr_title r) (nr_image r) (nr_icon r)
    (Some v) (nr_body r) (nr_cta r).

Definition setBody (r : NativeResult) (v : string) : NativeResult :=
  mkNativeResult (clickUrl r) (clickTrackers r) (impressionTrackers r)
    (javascriptTrackers r) (nr_title r) (nr_image r) (nr_icon r)
    (nr_sponsoredBy r) (Some v) (nr_cta r).

Definition setCta (r : NativeResult) (v : string) : NativeResult :=
  mkNativeResult (clickUrl r) (clickTrackers r) (impressionTrackers r)
    (javascriptTrackers r) (nr_title r) (nr_image r) (nr_icon r)
    (nr_sponsoredBy r) (nr_body r) (Some v).

(** [if (titleText) { result.title = titleText; }] *)
Definition applyTitle (result : NativeResult) (title : Title) : NativeResult :=
  match title_text title with
  | Some titleText =>
      if JS.truthy (Some titleText) then setTitle result titleText else result
  | None => result
  end.

(** The [if (imgUrl) { ... }] block: image or icon. *)
Definition applyImg (detectedType : option string) (result : NativeResult)
    (img : Img) : NativeResult :=
  match img_url img with
  | Some imgUrl =>
      if JS.truthy (Some imgUrl) then
        let thisImage := mkNativeImage imgUrl (img_w img) (img_h img) in
        if isCode (img_type img) 3 || isType detectedType "image"
        then setImage result thisImage
        else if isCode (img_type img) 1 || isType detectedType "icon"
        then setIcon result thisImage
        else result
      else result
  | None => result
  end.

(** The [if (dataValue) { ... }] block: sponsored-by, body or
    call-to-action. *)
Definition applyData (detectedType : option string) (result : NativeResult)
    (data : Data) : NativeResult :=
  match data_value data with
  | Some dataValue =>
      if JS.truthy (Some dataValue) then
        if isCode (data_type data) 1 || isType detectedType "sponsoredBy"
        then setSponsoredBy result dataValue
        else if isCode (data_type data) 2 || isType detectedType "body"
        then setBody result dataValue
        else if isCode (data_type data) 12 || isType detectedType "cta"
        then setCta result dataValue
        else result
      else result
  | None => result
  end.

(** The callback of [nativeData.assets.forEach] in [parseNative]. *)
Definition applyAsset (result : NativeResult) (asset : Asset) : NativeResult :=
  let img := default emptyImg (asset_img asset) in
  let title := default emptyTitle (asset_title asset) in
  let data := default emptyData (asset_data asset) in
  let detectedType := getNativeAssetType (asset_id asset) in
  applyData detectedType (applyImg detectedType (applyTitle result title) img) data.

(** [parseNative(nativeData, adUnitCode)].  [None] stands for the exception
    raised by [nativeData.assets.forEach] when the payload has no asset
    list. *)
Definition parseNative (nativeData : NativeData) (adUnit : string)
    : option NativeResult :=
  let link := default emptyLink (nd_link nativeData) in
  let javascriptTrackers :=
    match nd_jstracker nativeData with
    | Some (TrackerList l) => Some (map (macroReplacer adUnit) l)
    | Some (TrackerOne s) =>
        if JS.truthy (Some s) then Some [macroReplacer adUnit s] else None
    | None => None
    end in
  let result :=
    mkNativeResult (link_url link) (default [] (link_clicktrackers link))
      (nd_imptrackers nativeData) javascriptTrackers
      None None None None None None in
  match nd_assets nativeData with
  | Some assets => Some (fold_left applyAsset assets result)
  | None => None
  end.

(** ** Response parsing *)

(** [serverBid.ext] *)
Record Ext := mkExt {
  ext_siteid : option string;
  ext_slotid : option string;
  ext_pubid : option string;
  ext_adlabel : option string;
  ext_cache : option string;
  ext_vurls : option (list string);
  ext_pricepl : option Q
}.

Definition emptyExt : Ext := mkExt None None None None None None None.

(** One entry of [seatbid.bid]. *)
Record ServerBid := mkServerBid {
  adomain : option (list string);
  crid : option string;
  impid : option string;
  exp : option N;
  ext : option Ext;
  price : option Q;
  w : option N;
  h : option N;
  adm : option string;
  admNative : option NativeData
}.

Record SeatBid := mkSeatBid {
  seat : option string;
  bid : list ServerBid
}.

(** [serverResponse.body] *)
Record ServerResponse := mkServerResponse {
  sn : option string;
  cur : option string;
  seatbid : option (list SeatBid)
}.

(** The running [site] object of [interpretResponse]. *)
Record Site := mkSite {
  site_id : option string;
  site_slot : option string;
  site_publisherId : option string;
  site_adLabel : option string;
  site_sn : option string
}.

Definition emptySite : Site := mkSite None None None None None.

Record BidderRequest := mkBidderRequest {
  auctionId : option string;
  bids : list BidRequest
}.

(** [request]: [request_site] is
    [request.data ? JSON.parse(request.data).site : {}]. *)
Record Request := mkRequest {
  request_site : Site;
  bidderRequest : BidderRequest
}.

Record Meta := mkMeta {
  advertiserDomains : option (list string);
  networkName : option string;
  meta_pricepl : option Q
}.

(** A bid handed back to the host. *)
Record Bid := mkBid {
  requestId : string;
  creativeId : string;
  cpm : option Q;
  bid_currency : option string;
  ttl : N;
  width : option N;
  height : option N;
  bidderCode : string;
  meta : Meta;
  netRevenue : bool;
  vurls : list string;
  adType : option string;
  mediaType : option string;
  vastXml : option string;
  vastContent : option string;
  vastUrl : option string;
  native : option NativeResult;
  ad : option string
}.

(** State threaded through the two nested [forEach] loops: the running
    [site], the module-level [oneCodeDetection] dictionary and the [bids]
    array being filled. *)
Record IRState := mkIRState {
  st_site : Site;
  oneCodeDetection : gmap string (option string * option string);
  st_bids : list Bid
}.

(** [bid.adm && bid.adm.match(/^<\?xml/)] *)
Definition isVideoAd (b : ServerBid) : bool :=
  match adm b with
  | Some a => JS.truthy (Some a) && JS.startsWith "<?xml" a
  | None => false
  end.

(** A character of the quote class of the native pattern: a single or a
    double quote (character codes 39 and 34). *)
Definition isQuote (c : Ascii.ascii) : bool :=
  Ascii.eqb c (Ascii.ascii_of_nat 39) || Ascii.eqb c (Ascii.ascii_of_nat 34).

(** The pattern of [isNativeAd]: at the start of the markup, an opening
    brace, a quote, the word native, a quote. *)
Definition matchesNativeProlog (a : string) : bool :=
  match a with
  | String brace (String q1 rest) =>
      Ascii.eqb brace (Ascii.ascii_of_nat 123) &&
      isQuote q1 && JS.startsWith "native" rest &&
      match JS.drop 6 rest with
      | String q2 _ => isQuote q2
      | _ => false
      end
  | _ => false
  end.

(** [bid.admNative || (bid.adm && bid.adm.match(...))] *)
Definition isNativeAd (b : ServerBid) : bool :=
  match admNative b with
  | Some _ => true
  | None =>
      match adm b with
      | Some a => JS.truthy (Some a) && matchesNativeProlog a
      | None => false
      end
  end.

(** [bid.cpm > 0] *)
Definition cpmPositive (c : option Q) : bool :=
  match c with
  | Some q => Qgtb q 0%Q
  | None => false
  end.

(** The filter of [interpretResponse] followed by [[0]]: the first bid
    request whose recomputed id equals the [impid] of the server bid. *)
Definition matchRequest (R : BidderRequest) (i : option string) : option BidRequest :=
  head (filter (fun b => Some (currentBidId b) = i) (bids R)).

(** [site.id && !strIncludes(site.id, 'bidid')] *)
Definition siteResolved (s : Site) : bool :=
  match site_id s with
  | Some i => JS.truthy (Some i) && negb (JS.includes i "bidid")
  | None => false
  end.

(** [const { siteid = site.id } = ext], read against the current [site]. *)
Definition resolvedSiteId (site : Site) (serverBid : ServerBid) : option string :=
  match ext_siteid (default emptyExt (ext serverBid)) with
  | Some s => Some s
  | None => site_id site
  end.

(** [const { slotid = site.slot } = ext] *)
Definition resolvedSlotId (site : Site) (serverBid : ServerBid) : option string :=
  match ext_slotid (default emptyExt (ext serverBid)) with
  | Some s => Some s
  | None => site_slot site
  end.

Section ResponseParser.

(** [JSON.parse(adm).native]: [None] when parsing raises or the parsed
    object has no [native] member. *)
Variable parseAdmNative : string -> option NativeData.

(** The body of the [try] block: [None] when it raises. *)
Definition tryParseNative (b : ServerBid) (adUnit : string) : option NativeResult :=
  let nativeData :=
    match admNative b with
    | Some n => Some n
    | None => adm b ≫= parseAdmNative
    end in
  nativeData ≫= fun n => parseNative n adUnit.

(** The bid object with its media type and payload, before the price test;
    [oldSite] is the [site] the default creative id is read from, that is,
    the one in force when the server bid is destructured. *)
Definition buildBid (R : BidderRequest) (response : ServerResponse)
    (seatName : option string) (oldSite : Site)
    (bidRequest : BidRequest) (serverBid : ServerBid) : Bid :=
  let crid' := default ("mcad_" +:+ JS.tmpl (auctionId R) +:+ "_" +:+
                        JS.tmpl (site_slot oldSite)) (crid serverBid) in
  let ext' := default emptyExt (ext serverBid) in
  let meta' := mkMeta (adomain serverBid) seatName (ext_pricepl ext') in
  let base (cpm' : option Q) (width' height' : option N)
           (adType' mediaType' vastXml' vastContent' vastUrl' : option string)
           (native' : option NativeResult) (ad' : option string) :=
    mkBid (bidId bidRequest) crid' cpm' (cur response) (default 300%N (exp serverBid))
          width' height' BIDDER_CODE meta' true (default [] (ext_vurls ext'))
          adType' mediaType' vastXml' vastContent' vastUrl' native' ad' in
  if isVideoAd serverBid then
    base (price serverBid) (w serverBid) (h serverBid)
         (Some "instream") (Some "video") (adm serverBid) (adm serverBid)
         (ext_cache ext') None None
  else if isNativeAd serverBid then
    match tryParseNative serverBid (adUnitCode bidRequest) with
    | Some n =>
        base (price serverBid) (Some 1%N) (Some 1%N)
             None (Some "native") None None None (Some n) None
    | None =>
        base (Some 0%Q) (w serverBid) (h serverBid)
             None (Some "native") None None None None None
    end
  else
    base (price serverBid) (w serverBid) (h serverBid)
         None (Some "banner") None None None None (adm serverBid).

(** The callback of [seatbid.bid.forEach]. *)
Definition processBid (R : BidderRequest) (response : ServerResponse)
    (seatName : option string) (st : IRState) (serverBid : ServerBid) : IRState :=
  let site := st_site st in
  let ext' := default emptyExt (ext serverBid) in
  let bidRequest := matchRequest R (impid serverBid) in
  let site' := mkSite (resolvedSiteId site serverBid) (resolvedSlotId site serverBid)
                      (ext_pubid ext') (ext_adlabel ext') (site_sn site) in
  match bidRequest with
  | Some br =>
      if siteResolved site' then
        let store' := <[bidId br := (site_id site', site_slot site')]> (oneCodeDetection st) in
        let b := buildBid R response seatName site br serverBid in
        if cpmPositive (cpm b)
        then mkIRState site' store' (st_bids st ++ [b])%list
        else mkIRState site' store' (st_bids st)
      else mkIRState site' (oneCodeDetection st) (st_bids st)
  | None => mkIRState site' (oneCodeDetection st) (st_bids st)
  end.

(** [seatbid.bid.forEach(...)] *)
Definition forEachBid (R : BidderRequest) (response : ServerResponse)
    (seatName : option string) (st : IRState) (l : list ServerBid) : IRState :=
  fold_left (processBid R response seatName) l st.

(** [response.seatbid.forEach(...)] *)
Definition forEachSeatbid (R : BidderRequest) (response : ServerResponse)
    (st : IRState) (l : list SeatBid) : IRState :=
  fold_left (fun st' sb => forEachBid R response (seat sb) st' (bid sb)) l st.

(** The state on entry to the loops: [site.sn] is set from the response,
    [bids] is empty. *)
Definition initialState (store : gmap string (option string * option string))
    (response : ServerResponse) (request : Request) : IRState :=
  let site := request_site request in
  let sn' := if JS.truthy (sn response) then sn response else Some "mc_adapter" in
  mkIRState (mkSite (site_id site) (site_slot site) (site_publisherId site)
                    (site_adLabel site) sn')
            store [].

(** The statements of [interpretResponse(serverResponse, request)] that
    follow its first one, started with the current contents [store] of
    [oneCodeDetection]; the returned state holds the [bids] array and the
    updated dictionary.  The first statement, a call of the host converter
    whose bids are only logged, is accounted for in [interpretResponseCall]
    below. *)
Definition interpretResponse (store : gmap string (option string * option string))
    (response : ServerResponse) (request : Request) : IRState :=
  let st0 := initialState store response request in
  match seatbid response with
  | Some sbs => forEachSeatbid (bidderRequest request) response st0 sbs
  | None => st0
  end.

End ResponseParser.

(** A call that returns a value or raises. *)
Inductive Outcome (A : Type) :=
  | Returned (a : A)
  | Raised.

Arguments Returned {A} a.
Arguments Raised {A}.

(** [interpretResponse(serverResponse, request)] as a whole.  Its first
    statement reads [converter.fromORTB({ response: serverResponse.body,
    request: request.data }).bids]; [fromORTB] stands for that call into the
    host's converter, which receives the serialised payload that
    [buildRequests] stored under [data].  Its value is only logged.  When
    the call raises nothing catches it, so the function raises before any
    bid is read; when it returns, the rest of the function runs. *)
Definition interpretResponseCall
    (fromORTB : ServerResponse → Request → Outcome unit)
    (parseAdmNative : string → option NativeData)
    (store : gmap string (option string * option string))
    (response : ServerResponse) (request : Request) : Outcome IRState :=
  match fromORTB response request with
  | Raised => Raised
  | Returned _ => Returned (interpretResponse parseAdmNative store response request)
  end.

(** Two loop states that agree on everything the loop reads again: the id
    and slot of the running [site], the store and the [bids] array. *)
Definition sameView (s1 s2 : IRState) : Prop :=
  site_id (st_site s1) = site_id (st_site s2) ∧
  site_slot (st_site s1) = site_slot (st_site s2) ∧
  oneCodeDetection s1 = oneCodeDetection s2 ∧
  st_bids s1 = st_bids s2.

(** [response] with another [seatbid] array. *)
Definition withSeatbid (response : ServerResponse) (sbs : list SeatBid) : ServerResponse :=
  mkServerResponse (sn response) (cur response) (Some sbs).

(** ** Request-level fields *)

(** [setOnAny(collection, key)] for a string-valued key read by [get]:
    [collection.reduce((prev, next) => prev || deepAccess(next, key), false)].
    The initial [false] and an [undefined] read are both [None]. *)
Definition setOnAny {A : Type} (collection : list A) (get : A → option string)
    : option string :=
  fold_left (fun prev next => if JS.truthy prev then prev else get next)
            collection None.

(** [deepAccess(bidRequest, 'params.siteId')] *)
Definition paramsSiteId (b : BidRequest) : option string := p_siteId (impParams b).

(** The site id written by [converter.request]:
    [setOnAny(bidRequests, 'params.siteId') || request.site.id]. *)
Definition requestSiteId (bidRequests : list BidRequest) (siteId : option string)
    : option string :=
  let found := setOnAny bidRequests paramsSiteId in
  if JS.truthy found then found else siteId.

(** ** Consent fields *)

Record RegsExt := mkRegsExt { re_gdpr : option Z }.

Record Regs := mkRegs {
  regs_gdpr : option Z;
  regs_ext : option RegsExt
}.

Record UserExt := mkUserExt {
  ue_consent : option string;
  ue_ConsentedProvidersSettings : option string
}.

Record User := mkUser {
  user_consent : option string;
  user_ext : option UserExt
}.

(** The members of the request payload that [formatGDPR] reads and writes;
    it touches no other member. *)
Record ConsentPayload := mkConsentPayload {
  cp_regs : option Regs;
  cp_user : option User
}.

(** The first [if] of [formatGDPR]: [regs.ext.gdpr] moves to [regs.gdpr]. *)
Definition formatRegs (regs : option Regs) : option Regs :=
  match regs with
  | Some r =>
      match regs_ext r with
      | Some e =>
          match re_gdpr e with
          | Some g => Some (mkRegs (Some g) (Some (mkRegsExt None)))
          | None => regs
          end
      | None => regs
      end
  | None => regs
  end.

(** The second [if]: [user.ext.consent] moves to [user.consent], and
    [ConsentedProvidersSettings] is cleared with it. *)
Definition formatUser (user : option User) : option User :=
  match user with
  | Some u =>
      match user_ext u with
      | Some e =>
          match ue_consent e with
          | Some c => Some (mkUser (Some c) (Some (mkUserExt None None)))
          | None => user
          end
      | None => user
      end
  | None => user
  end.

(** [formatGDPR(payload)], as the payload it leaves behind. *)
Definition formatGDPR (payload : ConsentPayload) : ConsentPayload :=
  mkConsentPayload (formatRegs (cp_regs payload)) (formatUser (cp_user payload)).

(** ** Media type, as the converter-based revision assigns it *)

(** [bidResponse(buildBidResponse, bid, context)] of the later revision:
    the value it stores in [context.mediaType]. *)
Definition contextMediaType (b : ServerBid) : string :=
  if isVideoAd b then "video"
  else if isNativeAd b then "native"
  else "banner".

(** ** Notifications *)

(** A bid as [onBidWon] and [onTimeout] receive it. *)
Record NotifyBid := mkNotifyBid {
  nb_adUnitCode : option string;
  nb_auctionId : option string;
  nb_cpm : option Q;
  nb_creativeId : option string;
  nb_meta : option Meta;
  nb_params : option ParamsField;
  nb_requestId : option string;
  nb_timeout : option N
}.

(** The argument of [getNotificationPayload]: nothing, one bid, or an array
    of bids. *)
Inductive BidData :=
| NoBidData
| OneBid (b : NotifyBid)
| BidArray (l : list NotifyBid).

Record Notification := mkNotification {
  n_requestId : option string;
  n_siteId : list string;
  n_slotId : list string;
  n_tagid : list (option string);
  n_timeout : option N;
  n_pvid : option string;
  n_cpm : option Q;
  n_cpmpl : option Q;
  n_creativeId : option string;
  n_adomain : option string;
  n_networkName : option string;
  n_event : option string
}.

(** Truthiness of an optional number: [undefined] and 0 are falsy. *)
Definition truthyN (o : option N) : bool :=
  match o with Some n => negb (n =? 0)%N | None => false end.

Definition truthyQ (o : option Q) : bool :=
  match o with Some q => negb (Qeq_bool q 0%Q) | None => false end.

(** [meta && meta.advertiserDomains && meta.advertiserDomains[0]] *)
Definition firstDomain (m : option Meta) : option string :=
  match m with
  | Some m' =>
      match advertiserDomains m' with
      | Some l => head l
      | None => None
      end
  | None => None
  end.

(** The params of a bid after the stored detection, if any, has been
    written into them: [siteId] from the first component, [id] from the
    second.  The key is the property name [requestId] turns into. *)
Definition detectedParams (store : gmap string (option string * option string))
    (bid : NotifyBid) : Params :=
  match store !! JS.tmpl (nb_requestId bid) with
  | Some entry => mkParams entry.2 entry.1
  | None => unpackParams (nb_params bid)
  end.

(** The callback of [bids.forEach] in [getNotificationPayload]; [pvid] is
    [pageView.id].  Bids are taken not to share one params object. *)
Definition notifyBid (pvid : option string)
    (store : gmap string (option string * option string))
    (result : Notification) (bid : NotifyBid) : Notification :=
  let params := detectedParams store bid in
  let requestId' :=
    if JS.truthy (nb_auctionId bid) then nb_auctionId bid else n_requestId result in
  let timeout' :=
    if truthyN (nb_timeout bid) then nb_timeout bid else n_timeout result in
  let tagid' := n_tagid result ++ [nb_adUnitCode bid] in
  let siteId' :=
    match p_siteId params with
    | Some s => if JS.truthy (Some s) then n_siteId result ++ [s] else n_siteId result
    | None => n_siteId result
    end in
  let slotId' :=
    match p_id params with
    | Some i => if JS.truthy (Some i) then n_slotId result ++ [i] else n_slotId result
    | None => n_slotId result
    end in
  if truthyQ (nb_cpm bid) then
    mkNotification requestId' siteId' slotId' tagid' timeout' pvid
      (nb_cpm bid)
      (nb_meta bid ≫= meta_pricepl)
      (nb_creativeId bid)
      (firstDomain (nb_meta bid))
      (nb_meta bid ≫= networkName)
      (n_event result)
  else
    mkNotification requestId' siteId' slotId' tagid' timeout' pvid
      (n_cpm result) (n_cpmpl result) (n_creativeId result)
      (n_adomain result) (n_networkName result) (n_event result).

Definition emptyNotification : Notification :=
  mkNotification None [] [] [] None None None None None None None None.

(** [getNotificationPayload(bidData)]; [None] is [undefined]. *)
Definition getNotificationPayload (pvid : option string)
    (store : gmap string (option string * option string))
    (bidData : BidData) : option Notification :=
  match bidData with
  | NoBidData => None
  | OneBid b => Some (fold_left (notifyBid pvid store) [b] emptyNotification)
  | BidArray [] => None
  | BidArray l => Some (fold_left (notifyBid pvid store) l emptyNotification)
  end.

Definition withEvent (event : string) (p : Notification) : Notification :=
  mkNotification (n_requestId p) (n_siteId p) (n_slotId p) (n_tagid p)
    (n_timeout p) (n_pvid p) (n_cpm p) (n_cpmpl p) (n_creativeId p)
    (n_adomain p) (n_networkName p) (Some event).

(** [onTimeout(timeoutData)]: the payload sent and returned. *)
Definition onTimeout (pvid : option string)
    (store : gmap string (option string * option string))
    (timeoutData : BidData) : option Notification :=
  withEvent "timeout" <$> getNotificationPayload pvid store timeoutData.

(** [onBidWon(bid)] *)
Definition onBidWon (pvid : option string)
    (store : gmap string (option string * option string))
    (bid : BidData) : option Notification :=
  withEvent "bidWon" <$> getNotificationPayload pvid store bid.

(** The bid of [interpretResponse] as the host hands it back to
    [onBidWon]. *)
Definition wonBid (auction : option string) (adUnit : option string)
    (p : option ParamsField) (x : Bid) : NotifyBid :=
  mkNotifyBid adUnit auction (cpm x) (Some (creativeId x)) (Some (meta x)) p
              (Some (requestId x)) None.

(** All server bids of a response, in the order the loops visit them. *)
Definition allServerBids (response : ServerResponse) : list ServerBid :=
  match seatbid response with
  | Some sbs => concat (bid <$> sbs)
  | None => []
  end.

(** [x] is the bid built from the server bid [sb], for the request [sb] is
    matched to, and it passes the price test. *)
Definition emittedBy (parseAdmNative : string → option NativeData)
    (R : BidderRequest) (response : ServerResponse)
    (seatName : option string) (sb : ServerBid) (x : Bid) : Prop :=
  ∃ site br,
    matchRequest R (impid sb) = Some br ∧
    x = buildBid parseAdmNative R response seatName site br sb ∧
    cpmPositive (cpm x) = true.

(** A store entry with a site id a notification can use: non-empty and
    free of the placeholder mark. *)
Definition usableEntry (e : option (option string * option string)) : Prop :=
  ∃ s slot, e = Some (Some s, slot) ∧ s ≠ "" ∧ JS.includes s "bidid" = false.

(** The title text an asset carries, if it is a non-empty one. *)
Definition assetTitle (a : Asset) : option string :=
  match title_text (default emptyTitle (asset_title a)) with
  | Some t => if JS.truthy (Some t) then Some t else None
  | None => None
  end.

(** The bids a notification is assembled from:
    [isArray(bidData) ? bidData : [bidData]]. *)
Definition bidsOf (bidData : BidData) : list NotifyBid :=
  match bidData with
  | NoBidData => []
  | OneBid b => [b]
  | BidArray l => l
  end.

(** ** The adf adapter (second module of the same source file) *)

Module Adf.

Definition OUTSTREAM_RENDERER_URL :=
  "https://s2.adform.net/banners/scripts/video/outstream/render.js".

(** One entry of [seatbid[].bid].  [rb_impid] is the integer value of
    [impid]; [None] stands for an [impid] that is no integer, whose array
    slot is never read.  [rb_type] and [rb_dsa] are [ext.prebid.type] and
    [ext.dsa]. *)
Record RespBid := mkRespBid {
  rb_impid : option Z;
  rb_price : option Q;
  rb_crid : option string;
  rb_w : option N;
  rb_h : option N;
  rb_dealid : option string;
  rb_adomain : option (list string);
  rb_cat : option (list string);
  rb_adm : option string;
  rb_nurl : option string;
  rb_native : option JS.value;
  rb_type : option string;
  rb_dsa : option JS.value
}.

Record Seat := mkSeat { seat_bid : list RespBid }.

(** [serverResponse.body] *)
Record Body := mkBody {
  body_seatbid : list Seat;
  body_cur : option string
}.

(** A bid request as [interpretResponse] reads it: [rq_renderer] tells
    whether the bid brings a renderer of its own, [rq_videoContext] is
    [mediaTypes.video.context]. *)
Record ReqBid := mkReqBid {
  rq_bidId : string;
  rq_netRevenue : option string;
  rq_renderer : bool;
  rq_videoContext : option string;
  rq_adUnitCode : string
}.

(** The argument of [Renderer.install]. *)
Record RendererSpec := mkRendererSpec {
  rs_id : string;
  rs_url : string;
  rs_adUnitCode : string
}.

Record ResultMeta := mkResultMeta {
  rm_mediaType : option string;
  rm_advertiserDomains : option (list string);
  rm_dsa : option JS.value;
  rm_primaryCatId : option string;
  rm_secondaryCatIds : option (list string)
}.

Record Result := mkResult {
  r_requestId : string;
  r_cpm : option Q;
  r_creativeId : option string;
  r_ttl : N;
  r_netRevenue : bool;
  r_currency : option string;
  r_mediaType : option string;
  r_width : option N;
  r_height : option N;
  r_dealId : option string;
  r_meta : ResultMeta;
  r_native : option JS.value;
  r_vastXml : option string;
  r_vastUrl : option string;
  r_ad : option string;
  r_renderer : option RendererSpec
}.

(** [id: id + 1], the impression id [buildRequests] gives to the bid
    request at index [id]. *)
Definition impId (id : nat) : Z := (Z.of_nat id + 1)%Z.

(** [flatten(arr)] *)
Definition flatten {A : Type} (arr : list (list A)) : list A := concat arr.

(** The reduce of [interpretResponse]: [result[bid.impid - 1] = bid] for
    every bid in turn, on an initially empty array. *)
Definition indexBids (l : list RespBid) : gmap Z RespBid :=
  fold_left
    (fun result b =>
       match rb_impid b with
       | Some i => <[(i - 1)%Z := b]> result
       | None => result
       end)
    l ∅.

(** The object built in the map callback for a bid request that has a bid
    response; [VIDEO] is the host's name of the video media type. *)
Definition buildResult (VIDEO : string) (cur : option string)
    (b : ReqBid) (bidResponse : RespBid) : Result :=
  let mediaType := rb_type bidResponse in
  let isVideo := bool_decide (mediaType = Some VIDEO) in
  let meta :=
    mkResultMeta mediaType (rb_adomain bidResponse) (rb_dsa bidResponse)
      (rb_cat bidResponse ≫= head) (drop 1 <$> rb_cat bidResponse) in
  let renderer :=
    if negb (rq_renderer b) && isVideo &&
       bool_decide (rq_videoContext b = Some "outstream")
    then Some (mkRendererSpec (rq_bidId b) OUTSTREAM_RENDERER_URL (rq_adUnitCode b))
    else None in
  let base (native' : option JS.value) (vastXml' vastUrl' ad' : option string) :=
    mkResult (rq_bidId b) (rb_price bidResponse) (rb_crid bidResponse) 360%N
      (bool_decide (rq_netRevenue b = Some "net")) cur mediaType
      (rb_w bidResponse) (rb_h bidResponse) (rb_dealid bidResponse) meta
      native' vastXml' vastUrl' ad' renderer in
  if JS.truthyValue (default JS.VUndefined (rb_native bidResponse)) then
    base (rb_native bidResponse) None None None
  else if isVideo then
    base None (rb_adm bidResponse)
         (if JS.truthy (rb_nurl bidResponse) then rb_nurl bidResponse else None)
         None
  else base None None None (rb_adm bidResponse).

(** [interpretResponse(serverResponse, { bids })]; [None] is the
    [undefined] returned for a response without body. *)
Definition interpretResponse (VIDEO : string) (body : option Body)
    (bids : list ReqBid) : option (list Result) :=
  match body with
  | None => None
  | Some b =>
      let bidResponses := indexBids (flatten (seat_bid <$> body_seatbid b)) in
      Some (omap id
              (imap (fun id bid =>
                       buildResult VIDEO (body_cur b) bid
                         <$> bidResponses !! Z.of_nat id)
                    bids))
  end.

(** The last response bid that names the impression of index [id]. *)
Definition lastAnswer (l : list RespBid) (id : nat) : option RespBid :=
  last (filter (fun b => rb_impid b = Some (impId id)) l).

End Adf.

(** No character of [s] is an underscore (character code 95). *)
Fixpoint noUnderscore (s : string) : bool :=
  match s with
  | "" => true
  | String c s' => negb (Ascii.eqb c (Ascii.ascii_of_nat 95)) && noUnderscore s'
  end.

(** ** Concrete inputs used by the examples below *)

Module Ex.

(** A slot configured with [params: { id: '5', siteId: '7' }]. *)
Definition slot5 : BidRequest :=
  mkBidRequest "b1" "div-1" [(300, 250)%N]
    (Some (ParamsObject (mkParams (Some "5") (Some "7")))) None.

(** A slot without params (OneCode). *)
Definition slotOneCode : BidRequest :=
  mkBidRequest "b2" "div-2" [(300, 250)%N; (728, 90)%N] None None.

(** A slot whose explicit id already has three characters. *)
Definition slot003 : BidRequest :=
  mkBidRequest "b3" "div-3" [(728, 90)%N]
    (Some (ParamsObject (mkParams (Some "003") (Some "7")))) None.

(** An asset with id 7 carrying an untyped image and an untyped value. *)
Definition asset7 : Asset :=
  mkAsset (Some 7%Z)
    (Some (mkImg (Some 100%N) (Some 50%N) (Some "https://img.example/a.png") None))
    (Some (mkTitle (Some "Title")))
    (Some (mkData None (Some "some text"))).

Definition emptyNative : NativeResult :=
  mkNativeResult None [] None None None None None None None None.

(** A floor function answering 0.5 for 300x250, 0.8 for 728x90 and nothing
    for native and video. *)
Definition floorBySize (q : FloorQuery) : FloorInfo :=
  match fq_size q with
  | Some (300, 250)%N => mkFloorInfo (Some (1 # 2)%Q) (Some "USD")
  | Some (728, 90)%N => mkFloorInfo (Some (4 # 5)%Q) (Some "USD")
  | _ => mkFloorInfo None None
  end.

Definition slotWithFloors : BidRequest :=
  mkBidRequest "b4" "div-4" [(300, 250)%N; (728, 90)%N] None (Some floorBySize).

Definition usd : Config := mkConfig (Some "USD").

(** Two slots with explicit three-character ids, and their auction. *)
Definition slot010 : BidRequest :=
  mkBidRequest "r10" "div-10" [(300, 250)%N]
    (Some (ParamsObject (mkParams (Some "010") (Some "8816")))) None.

Definition slot011 : BidRequest :=
  mkBidRequest "r11" "div-11" [(300, 250)%N]
    (Some (ParamsObject (mkParams (Some "011") (Some "8816")))) None.

Definition auction : BidderRequest :=
  mkBidderRequest (Some "auction-1") [slot010; slot011].

Definition bannerBid (imp : string) (e : option Ext) (p : Q) : ServerBid :=
  mkServerBid None (Some "creative") (Some imp) None e (Some p)
    (Some 300%N) (Some 250%N) (Some "<div>ad</div>") None.

Definition extSite (s : string) : Ext :=
  mkExt (Some s) None None None None None None.

(** A native bid whose markup announces a native payload that cannot be
    parsed. *)
Definition brokenNativeBid : ServerBid :=
  mkServerBid None (Some "creative") (Some "010") None None (Some 2%Q)
    None None (Some "{'native': oops") None.

Definition noParse (_ : string) : option NativeData := None.

Definition responseOf (l : list ServerBid) : ServerResponse :=
  mkServerResponse None (Some "PLN") (Some [mkSeatBid (Some "seat-1") l]).

(** A request whose own site id is a placeholder. *)
Definition placeholderRequest : Request :=
  mkRequest (mkSite (Some "bidid-r10") None None None None) auction.

Definition plainRequest : Request :=
  mkRequest (mkSite (Some "8816") None None None None) auction.

(** A response in which the second bid has no [ext.siteid] of its own. *)
Definition carriedBid : ServerBid := bannerBid "011" None 1%Q.

Definition carriedResponse : ServerResponse :=
  responseOf [bannerBid "010" (Some (extSite "8816")) 1%Q; carriedBid].

(** A response whose middle bid answers an impression nobody asked for. *)
Definition strayBid : ServerBid := bannerBid "999" None 1%Q.

Definition strayResponse : ServerResponse :=
  responseOf ([bannerBid "010" None 1%Q] ++ strayBid :: [bannerBid "011" None 3%Q]).

Definition emptyStore : gmap string (option string * option string) := ∅.

(** An ad unit named after a member every plain object inherits. *)
Definition slotConstructor : BidRequest :=
  mkBidRequest "b9" "constructor" [(300, 250)%N] None None.

End Ex.

(** ** Further concrete inputs *)

Module Ex2.

(** An auction of two OneCode slots. *)
Definition oneCodeA : BidRequest :=
  mkBidRequest "2c5d1e" "div-a" [(300, 250)%N] None None.

Definition oneCodeB : BidRequest :=
  mkBidRequest "7f00aa" "div-b" [(300, 250)%N; (300, 600)%N] None None.

Definition oneCodeAuction : BidderRequest :=
  mkBidderRequest (Some "auction-2") [oneCodeA; oneCodeB].

(** An asset that the id map calls an image (id 3) while its image is
    marked as an icon (type 1). *)
Definition imageMarkedIcon : Asset :=
  mkAsset (Some 3%Z)
    (Some (mkImg (Some 1200%N) (Some 627%N) (Some "https://img.example/b.png")
                 (Some 1%Z)))
    None None.

(** An asset that the id map calls a call-to-action (id 1) while its value
    is marked as a body text (type 2). *)
Definition ctaMarkedBody : Asset :=
  mkAsset (Some 1%Z) None None (Some (mkData (Some 2%Z) (Some "Read more"))).

Definition twoTitles : NativeData :=
  mkNativeData None None (Some (TrackerOne "https://t.example/?d=%native_dom_id%"))
    (Some [mkAsset (Some 0%Z) None (Some (mkTitle (Some "First"))) None;
           imageMarkedIcon;
           mkAsset (Some 0%Z) None (Some (mkTitle (Some "Second"))) None;
           mkAsset (Some 0%Z) None (Some (mkTitle (Some ""))) None]).

(** Two timed-out bids; the params of the first come as an array. *)
Definition timedOutA : NotifyBid :=
  mkNotifyBid (Some "div-a") (Some "auction-2") None None None
    (Some (ParamsArray [mkParams (Some "010") (Some "8816")]))
    (Some "2c5d1e") (Some 450%N).

Definition timedOutB : NotifyBid :=
  mkNotifyBid (Some "div-b") (Some "auction-2") None None None None
    (Some "7f00aa") (Some 450%N).

(** A store that knows the first of them under another site. *)
Definition detectedStore : gmap string (option string * option string) :=
  <["2c5d1e" := (Some "9001", Some "005")]> ∅.

(** A consent payload in the legacy layout, with a gdpr flag of 0. *)
Definition legacyConsent : ConsentPayload :=
  mkConsentPayload
    (Some (mkRegs None (Some (mkRegsExt (Some 0%Z)))))
    (Some (mkUser None (Some (mkUserExt (Some "CONSENT") (Some "providers"))))).

(** Three slots of which only the last two name a site. *)
Definition siteSlots : list BidRequest :=
  [oneCodeA;
   mkBidRequest "b-2" "div-2" [] (Some (ParamsObject (mkParams None (Some "8816")))) None;
   mkBidRequest "b-3" "div-3" [] (Some (ParamsObject (mkParams None (Some "9001")))) None].

(** An adf auction of two bid requests, and a response that answers the
    second impression twice and names an impression that does not exist. *)
Definition adfBids : list Adf.ReqBid :=
  [Adf.mkReqBid "adf-1" (Some "net") false None "div-1";
   Adf.mkReqBid "adf-2" (Some "net") false None "div-2"].

Definition adfAnswer (imp : Z) (p : Q) : Adf.RespBid :=
  Adf.mkRespBid (Some imp) (Some p) (Some "cr") (Some 300%N) (Some 250%N) None None
    None (Some "<div/>") None None (Some "banner") None.

Definition adfBody : Adf.Body :=
  Adf.mkBody [Adf.mkSeat [adfAnswer 2 1%Q; adfAnswer 7 5%Q];
              Adf.mkSeat [adfAnswer 2 3%Q]] (Some "EUR").

End Ex2.

(** ** Responses in which one bid decides the fate of the next *)

Module Ex3.

(** A converter call that raises, and one that returns. *)
Definition raising (_ : ServerResponse) (_ : Request) : Outcome unit := Raised.
Definition returning (_ : ServerResponse) (_ : Request) : Outcome unit := Returned tt.





(** An auction of OneCode slots on a page whose own site id is a
    placeholder; no slot names a site, so this is the id the request
    carries. *)
Definition pageSiteId : option string := Some "bidid-page".

Definition oneCodeRequest : Request :=
  mkRequest (mkSite (requestSiteId (bids Ex2.oneCodeAuction) pageSiteId)
                    None None None None)
            Ex2.oneCodeAuction.

(** The first bid names its site, the second does not. *)
Definition namedBid : ServerBid :=
  Ex.bannerBid "bidid-2c5d1e" (Some (Ex.extSite "8816")) 1%Q.

Definition unnamedBid : ServerBid := Ex.bannerBid "bidid-7f00aa" None 2%Q.

Definition namedThenUnnamed : ServerResponse :=
  Ex.responseOf [namedBid; unnamedBid].

End Ex3.

(** * Properties *)

(** ** Strings *)

Lemma take_repeat_char (c : Ascii.ascii) (n : nat) :
  JS.take n (JS.repeat (String c "") n) = JS.repeat (String c "") n.
Proof.
  induction n as [|n IH]; [reflexivity|].
  change (String c (JS.take n (JS.repeat (String c "") n))
          = String c (JS.repeat (String c "") n)).
  by rewrite IH.
Qed.

Lemma length_repeat_char (c : Ascii.ascii) (n : nat) :
  String.length (JS.repeat (String c "") n) = n.
Proof.
  induction n as [|n IH]; [reflexivity|].
  change (S (String.length (JS.repeat (String c "") n)) = S n).
  by rewrite IH.
Qed.

Lemma string_length_app (s t : string) :
  String.length (s +:+ t) = (String.length s + String.length t)%nat.
Proof. induction s as [|c s IH]; simpl; [reflexivity | by rewrite IH]. Qed.

(** [padStart] with a one-character filler prepends exactly the missing
    number of copies. *)
Lemma padStart_char (s : string) (n : nat) (c : Ascii.ascii) :
  JS.padStart s n (String c "") = JS.repeat (String c "") (n - String.length s) +:+ s.
Proof.
  unfold JS.padStart.
  destruct (n <=? String.length s)%nat eqn:Hle.
  - apply Nat.leb_le in Hle.
    replace (n - String.length s)%nat with 0%nat by lia. reflexivity.
  - change (String.eqb (String c "") "") with false. cbv zeta.
    by rewrite take_repeat_char.
Qed.

Lemma padStart_char_length (s : string) (n : nat) (c : Ascii.ascii) :
  (n ≤ String.length (JS.padStart s n (String c "")))%nat.
Proof.
  rewrite padStart_char, string_length_app, length_repeat_char. lia.
Qed.

Lemma truthy_Some (s : string) : JS.truthy (Some s) = true ↔ s ≠ "".
Proof.
  cbn. rewrite negb_true_iff. split.
  - intros H ->. discriminate.
  - intros H. destruct (String.eqb s "") eqn:E; [|reflexivity].
    apply String.eqb_eq in E. contradiction.
Qed.

Lemma truthy_false (o : option string) :
  JS.truthy o = false ↔ o = None ∨ o = Some "".
Proof.
  destruct o as [s|]; cbn.
  - rewrite negb_false_iff, String.eqb_eq. split.
    + intros ->. by right.
    + intros [?|[= ->]]; [discriminate | reflexivity].
  - split; [by left | reflexivity].
Qed.

(** ** Impression ids *)

(** C2. With a non-empty [params.id] and a non-empty [params.siteId] the
    impression id is [params.id] with as many leading zeros as are missing to
    reach three characters (so it has at least three characters); when either
    of the two is missing or empty the impression id is ["bidid-"] followed
    by the bid id. *)
Theorem imp_id_padded_or_bidid (b : BidRequest) :
  (∀ i s, params b = Some (ParamsObject (mkParams (Some i) (Some s))) →
          i ≠ "" → s ≠ "" →
          imp_id b = JS.repeat "0" (3 - String.length i) +:+ i ∧
          (3 ≤ String.length (imp_id b))%nat) ∧
  (p_id (impParams b) = None ∨ p_id (impParams b) = Some "" ∨
   p_siteId (impParams b) = None ∨ p_siteId (impParams b) = Some "" →
   imp_id b = "bidid-" +:+ bidId b).
Proof.
  split.
  - intros i s Hp Hi Hs. unfold imp_id, impParams. rewrite Hp. cbn [p_id p_siteId].
    apply truthy_Some in Hi. apply truthy_Some in Hs. rewrite Hi, Hs. cbn [andb].
    split; [apply padStart_char | apply padStart_char_length].
  - intros H. unfold imp_id.
    destruct (p_id (impParams b)) as [i|] eqn:Ei; [|reflexivity].
    assert (JS.truthy (Some i) && JS.truthy (p_siteId (impParams b)) = false) as ->;
      [|reflexivity].
    apply andb_false_iff.
    destruct H as [H|[H|[H|H]]]; try discriminate.
    + left. apply truthy_false. by right.
    + right. apply truthy_false. by left.
    + right. apply truthy_false. by right.
Qed.

Lemma imp_id_padded_or_bidid_witness :
  (imp_id Ex.slot5 = "005" ∧ (3 ≤ String.length (imp_id Ex.slot5))%nat) ∧
  imp_id Ex.slotOneCode = "bidid-b2".
Proof.
  split.
  - apply (proj1 (imp_id_padded_or_bidid Ex.slot5) "5" "7");
      [reflexivity | discriminate | discriminate].
  - apply (proj2 (imp_id_padded_or_bidid Ex.slotOneCode)). left. reflexivity.
Defined.

(** The two derivations agree as soon as the explicit id needs no padding,
    or when the fallback id is used on both sides. *)
Lemma id_derivations_agree_unpadded (b : BidRequest) (p : Params) :
  params b = Some (ParamsObject p) →
  (∀ i, p_id p = Some i → JS.truthy (p_siteId p) = true → (3 ≤ String.length i)%nat) →
  currentBidId b = imp_id b.
Proof.
  intros Hp Hlen. unfold currentBidId, imp_id, impParams, unpackParams. rewrite Hp.
  destruct (p_id p) as [i|] eqn:Ei; [|reflexivity].
  destruct (JS.truthy (Some i) && JS.truthy (p_siteId p)) eqn:Et; [|reflexivity].
  apply andb_true_iff in Et as [_ Hs].
  specialize (Hlen i eq_refl Hs).
  unfold JS.padStart. apply Nat.leb_le in Hlen. by rewrite Hlen.
Qed.

(** C1. The id recomputed by the response parser omits the zero padding of
    the request builder: for [params = { id: '5', siteId: '7' }] the builder
    sends ["005"] and the parser expects ["5"]. *)
Theorem id_derivations_disagree_on_short_id :
  imp_id Ex.slot5 = "005" ∧ currentBidId Ex.slot5 = "5" ∧
  imp_id Ex.slot5 ≠ currentBidId Ex.slot5.
Proof. repeat split. discriminate. Qed.

(** ** Native asset types *)

(** C8. An asset id above 10 is classified as an image whatever the id map
    holds; in particular id 11 is an image under the adapter's own map. *)
Theorem asset_id_above_10_is_image (assetMap : list (string * Z)) (i : Z) :
  (10 < i)%Z →
  getNativeAssetTypeIn assetMap (Some i) = Some "image" ∧
  getNativeAssetType (Some i) = Some "image" ∧
  getNativeAssetType (Some 11%Z) = Some "image".
Proof.
  intros Hi. unfold getNativeAssetType, getNativeAssetTypeIn.
  apply Z.ltb_lt in Hi. rewrite Hi. repeat split.
Qed.

Lemma asset_id_above_10_is_image_witness :
  getNativeAssetTypeIn [("image", 42%Z); ("title", 42%Z)] (Some 42%Z) = Some "image" ∧
  getNativeAssetType (Some 42%Z) = Some "image" ∧
  getNativeAssetType (Some 11%Z) = Some "image".
Proof. apply (asset_id_above_10_is_image _ 42). lia. Defined.

(** Ids 0 to 5 are decoded through the map. *)
Lemma asset_types_of_map :
  map getNativeAssetType [Some 0; Some 1; Some 2; Some 3; Some 4; Some 5]%Z =
  [Some "title"; Some "cta"; Some "icon"; Some "image"; Some "body";
   Some "sponsoredBy"].
Proof. reflexivity. Qed.

Lemma asset_type_6_to_10 (i : Z) :
  (6 ≤ i ≤ 10)%Z → getNativeAssetType (Some i) = None.
Proof.
  intros Hi.
  assert (i = 6 ∨ i = 7 ∨ i = 8 ∨ i = 9 ∨ i = 10)%Z as H by lia.
  destruct H as [->|[->|[->|[->| ->]]]]; reflexivity.
Qed.

Lemma applyTitle_keeps (r : NativeResult) (t : Title) :
  (nr_image (applyTitle r t) = nr_image r ∧ nr_icon (applyTitle r t) = nr_icon r) ∧
  (nr_sponsoredBy (applyTitle r t) = nr_sponsoredBy r ∧
   nr_body (applyTitle r t) = nr_body r ∧ nr_cta (applyTitle r t) = nr_cta r).
Proof. unfold applyTitle. repeat case_match; done. Qed.

Lemma applyImg_keeps_texts (ty : option string) (r : NativeResult) (img : Img) :
  nr_sponsoredBy (applyImg ty r img) = nr_sponsoredBy r ∧
  nr_body (applyImg ty r img) = nr_body r ∧ nr_cta (applyImg ty r img) = nr_cta r.
Proof. unfold applyImg. repeat case_match; done. Qed.

Lemma applyData_keeps_images (ty : option string) (r : NativeResult) (d : Data) :
  nr_image (applyData ty r d) = nr_image r ∧ nr_icon (applyData ty r d) = nr_icon r.
Proof. unfold applyData. repeat case_match; done. Qed.

(** Without a detected type, an image whose type marker is neither 1 nor 3
    is dropped. *)
Lemma applyImg_untyped (r : NativeResult) (img : Img) :
  img_type img ≠ Some 1%Z → img_type img ≠ Some 3%Z → applyImg None r img = r.
Proof.
  intros H1 H3. unfold applyImg, isCode, isType.
  rewrite (bool_decide_eq_false_2 _ H1), (bool_decide_eq_false_2 _ H3).
  repeat case_match; done.
Qed.

(** Without a detected type, a value whose type is none of 1, 2, 12 is
    dropped. *)
Lemma applyData_untyped (r : NativeResult) (d : Data) :
  data_type d ≠ Some 1%Z → data_type d ≠ Some 2%Z → data_type d ≠ Some 12%Z →
  applyData None r d = r.
Proof.
  intros H1 H2 H12. unfold applyData, isCode, isType.
  rewrite (bool_decide_eq_false_2 _ H1), (bool_decide_eq_false_2 _ H2),
    (bool_decide_eq_false_2 _ H12).
  repeat case_match; done.
Qed.

(** C10. An asset id from 6 to 10 has no type.  Such an asset with an image
    url whose [img.type] is neither 1 nor 3 leaves both [image] and [icon]
    of the native result as they were, and with a data value whose
    [data.type] is none of 1, 2, 12 it leaves [sponsoredBy], [body] and
    [cta] as they were. *)
Theorem untyped_asset_contributes_nothing (i : Z) :
  (6 ≤ i ≤ 10)%Z →
  getNativeAssetType (Some i) = None ∧
  ∀ (result : NativeResult) (asset : Asset),
    asset_id asset = Some i →
    (img_type (default emptyImg (asset_img asset)) ≠ Some 1%Z →
     img_type (default emptyImg (asset_img asset)) ≠ Some 3%Z →
     nr_image (applyAsset result asset) = nr_image result ∧
     nr_icon (applyAsset result asset) = nr_icon result) ∧
    (data_type (default emptyData (asset_data asset)) ≠ Some 1%Z →
     data_type (default emptyData (asset_data asset)) ≠ Some 2%Z →
     data_type (default emptyData (asset_data asset)) ≠ Some 12%Z →
     nr_sponsoredBy (applyAsset result asset) = nr_sponsoredBy result ∧
     nr_body (applyAsset result asset) = nr_body result ∧
     nr_cta (applyAsset result asset) = nr_cta result).
Proof.
  intros Hi. pose proof (asset_type_6_to_10 i Hi) as Hty.
  split; [exact Hty|].
  intros result asset Hid. unfold applyAsset. rewrite Hid, Hty.
  split.
  - intros H1 H3.
    destruct (applyData_keeps_images None
                (applyImg None (applyTitle result (default emptyTitle (asset_title asset)))
                          (default emptyImg (asset_img asset)))
                (default emptyData (asset_data asset))) as (-> & ->).
    rewrite (applyImg_untyped _ _ H1 H3). apply applyTitle_keeps.
  - intros H1 H2 H12. rewrite (applyData_untyped _ _ H1 H2 H12).
    destruct (applyImg_keeps_texts None
                (applyTitle result (default emptyTitle (asset_title asset)))
                (default emptyImg (asset_img asset))) as (-> & -> & ->).
    apply applyTitle_keeps.
Qed.

(** ** The identity submodule *)

(** C9. [decode] wraps a string as [{ unicornId: value }] and returns
    [undefined] for every value that is not a string; [getId] returns the
    token read from local storage, as it is, in the [id] field. *)
Theorem decode_string_only_getId_verbatim :
  (∀ s, Unicorn.decode (JS.VStr s) = JS.VObj [("unicornId", JS.VStr s)]) ∧
  (∀ v, (∀ s, v ≠ JS.VStr s) → Unicorn.decode v = JS.VUndefined) ∧
  (∀ v, Unicorn.decode v ≠ JS.VUndefined → ∃ s, v = JS.VStr s) ∧
  (∀ storage config,
     Unicorn.getId storage config = JS.VObj [("id", storage "unicornToken")]).
Proof.
  repeat split.
  - intros v Hv. destruct v; try reflexivity. by destruct (Hv s).
  - intros v Hv. destruct v; try (by destruct Hv). by exists s.
Qed.

Lemma decode_string_only_getId_verbatim_witness :
  Unicorn.decode JS.VNull = JS.VUndefined ∧
  Unicorn.decode (JS.VNum 3%Q) = JS.VUndefined ∧
  Unicorn.decode (JS.VObj [("unicornId", JS.VStr "x")]) = JS.VUndefined ∧
  ∃ s, JS.VStr "token" = JS.VStr s.
Proof.
  pose proof decode_string_only_getId_verbatim as (_ & Hnon & Honly & _).
  repeat split; try (apply Hnon; intros s; discriminate).
  apply Honly. discriminate.
Defined.

(** ** Floors *)

Lemma Qgtb_true (x y : Q) : Qgtb x y = true ↔ (y < x)%Q.
Proof.
  unfold Qgtb. rewrite negb_true_iff. split.
  - intros H. apply Qnot_le_lt. intros Hle.
    apply Qle_bool_iff in Hle. congruence.
  - intros H. destruct (Qle_bool x y) eqn:E; [|reflexivity].
    apply Qle_bool_iff in E. exfalso. exact (Qlt_not_le _ _ H E).
Qed.

Lemma Qgtb_false (x y : Q) : Qgtb x y = false ↔ (x <= y)%Q.
Proof.
  unfold Qgtb. rewrite negb_false_iff. apply Qle_bool_iff.
Qed.

(** The larger of two numbers, as picked by [prev > cur ? prev : cur]. *)
Lemma pick_larger (x y : Q) :
  let m := if Qgtb x y then x else y in
  (x <= m)%Q ∧ (y <= m)%Q ∧ (m = x ∨ m = y).
Proof.
  cbv zeta. destruct (Qgtb x y) eqn:E.
  - apply Qgtb_true in E. repeat split; [apply Qle_refl | by apply Qlt_le_weak | by left].
  - apply Qgtb_false in E. repeat split; [done | apply Qle_refl | by right].
Qed.

Lemma Math_max3_spec (a b c : Q) :
  let m := Math_max3 a b c in
  (a <= m)%Q ∧ (b <= m)%Q ∧ (c <= m)%Q ∧ (m = a ∨ m = b ∨ m = c).
Proof.
  cbv zeta. unfold Math_max3.
  destruct (pick_larger b a) as (Hb & Ha & Hm).
  set (h := if Qgtb b a then b else a) in *.
  destruct (pick_larger c h) as (Hc & Hh & Hm').
  set (m := if Qgtb c h then c else h) in *.
  repeat split.
  - by eapply Qle_trans.
  - by eapply Qle_trans.
  - done.
  - destruct Hm' as [->| ->]; [by right; right|].
    destruct Hm as [->| ->]; [by right; left | by left].
Qed.

(** The reduce over the sizes, from any starting value: the result bounds
    the start and every queried floor, and is one of them. *)
Lemma banner_reduce_spec (g : N * N → Q) (szs : list (N * N)) (a : Q) :
  let m := fold_left (fun prev next => if Qgtb prev (g next) then prev else g next)
                     szs a in
  (a <= m)%Q ∧ (∀ s, s ∈ szs → (g s <= m)%Q) ∧ (m = a ∨ ∃ s, s ∈ szs ∧ m = g s).
Proof.
  cbv zeta. revert a. induction szs as [|x szs IH]; intros a; simpl.
  - repeat split; [apply Qle_refl | | by left].
    intros s Hs. by apply elem_of_nil in Hs.
  - destruct (pick_larger a (g x)) as (Ha & Hx & Hm).
    set (a' := if Qgtb a (g x) then a else g x) in *.
    destruct (IH a') as (H1 & H2 & H3).
    repeat split.
    + by eapply Qle_trans.
    + intros s Hs. apply elem_of_cons in Hs as [->|Hs]; [by eapply Qle_trans | by apply H2].
    + destruct H3 as [H3|(s & Hs & H3)].
      * rewrite H3. destruct Hm as [->| ->]; [by left|].
        right. exists x. split; [apply list_elem_of_here | done].
      * right. exists s. split; [by apply list_elem_of_further | done].
Qed.

(** C4. Without [getFloor] the floor is 0.  With it, the banner floor is
    the largest of 0 and the floors queried for each size, and the floor is
    the largest of the banner, native and video floors.  The currency is the
    configured ad-server currency, or PLN when none is configured. *)
Theorem highest_floor_is_maximum (cfg : Config) (slot : BidRequest) :
  let cur := getCurrency cfg in
  currency (getHighestFloor cfg slot) = cur ∧
  (adServerCurrency cfg = None → cur = "PLN") ∧
  (∀ c, adServerCurrency cfg = Some c → c ≠ "" → cur = c) ∧
  (getFloor slot = None → floor (getHighestFloor cfg slot) = 0%Q) ∧
  (∀ gf, getFloor slot = Some gf →
     let perSize s := floorOf gf (mkFloorQuery "banner" (Some s) cur) in
     let bannerFloor := bannerFloorOf gf cur (sizes slot) in
     let nativeFloor := floorOf gf (mkFloorQuery "native" None cur) in
     let videoFloor := floorOf gf (mkFloorQuery "video" None cur) in
     let fl := floor (getHighestFloor cfg slot) in
     ((0 <= bannerFloor)%Q ∧
      (∀ s, s ∈ sizes slot → (perSize s <= bannerFloor)%Q) ∧
      (bannerFloor = 0%Q ∨ ∃ s, s ∈ sizes slot ∧ bannerFloor = perSize s)) ∧
     ((bannerFloor <= fl)%Q ∧ (nativeFloor <= fl)%Q ∧ (videoFloor <= fl)%Q ∧
      (fl = bannerFloor ∨ fl = nativeFloor ∨ fl = videoFloor))).
Proof.
  cbv zeta. split; [|split; [|split; [|split]]].
  - unfold getHighestFloor. by destruct (getFloor slot).
  - intros H. unfold getCurrency. by rewrite H.
  - intros c H Hc. unfold getCurrency. rewrite H.
    apply truthy_Some in Hc. by rewrite Hc.
  - intros H. unfold getHighestFloor. by rewrite H.
  - intros gf H.
    set (g s := floorOf gf (mkFloorQuery "banner" (Some s) (getCurrency cfg))).
    assert (let m := bannerFloorOf gf (getCurrency cfg) (sizes slot) in
            (0 <= m)%Q ∧ (∀ s, s ∈ sizes slot → (g s <= m)%Q) ∧
            (m = 0%Q ∨ ∃ s, s ∈ sizes slot ∧ m = g s)) as Hb.
    { unfold bannerFloorOf. destruct (sizes slot) as [|s0 rest] eqn:Es.
      - cbv zeta. repeat split; [apply Qle_refl | | by left].
        intros s Hs. by apply elem_of_nil in Hs.
      - apply (banner_reduce_spec g (s0 :: rest) 0%Q). }
    split; [exact Hb|].
    unfold getHighestFloor. rewrite H. cbn [floor].
    apply Math_max3_spec.
Qed.

Lemma untyped_asset_contributes_nothing_witness :
  getNativeAssetType (Some 7%Z) = None ∧
  (nr_image (applyAsset Ex.emptyNative Ex.asset7) = None ∧
   nr_icon (applyAsset Ex.emptyNative Ex.asset7) = None) ∧
  (nr_sponsoredBy (applyAsset Ex.emptyNative Ex.asset7) = None ∧
   nr_body (applyAsset Ex.emptyNative Ex.asset7) = None ∧
   nr_cta (applyAsset Ex.emptyNative Ex.asset7) = None).
Proof.
  assert (6 ≤ 7 ≤ 10)%Z as H by lia.
  destruct (untyped_asset_contributes_nothing 7 H) as [Hty Hasset].
  destruct (Hasset Ex.emptyNative Ex.asset7 eq_refl) as [Himg Hdata].
  split; [exact Hty|]. split.
  - apply Himg; discriminate.
  - apply Hdata; discriminate.
Defined.

Lemma highest_floor_is_maximum_witness :
  currency (getHighestFloor Ex.usd Ex.slotWithFloors) = "USD" ∧
  getCurrency (mkConfig None) = "PLN" ∧
  floor (getHighestFloor Ex.usd Ex.slotOneCode) = 0%Q ∧
  (bannerFloorOf Ex.floorBySize "USD" (sizes Ex.slotWithFloors)
     <= floor (getHighestFloor Ex.usd Ex.slotWithFloors))%Q.
Proof.
  pose proof (highest_floor_is_maximum Ex.usd Ex.slotWithFloors) as H.
  pose proof (highest_floor_is_maximum (mkConfig None) Ex.slotOneCode) as H'.
  pose proof (highest_floor_is_maximum Ex.usd Ex.slotOneCode) as H''.
  cbv zeta in H, H', H''.
  destruct H as (Hcur & _ & _ & _ & Hmax).
  destruct H' as (_ & Hpln & _).
  destruct H'' as (_ & _ & _ & Hzero & _).
  split; [exact Hcur|]. split; [exact (Hpln eq_refl)|]. split; [exact (Hzero eq_refl)|].
  destruct (Hmax Ex.floorBySize eq_refl) as (_ & Hb & _). exact Hb.
Defined.

(** The example of the floor rules: sizes 300x250 and 728x90 with floors 0.5
    and 0.8 give a banner floor, and a floor, of 0.8. *)
Lemma floor_example :
  bannerFloorOf Ex.floorBySize "USD" [(300, 250)%N; (728, 90)%N] = (4 # 5)%Q ∧
  getHighestFloor Ex.usd Ex.slotWithFloors = mkFloorResult (4 # 5)%Q "USD".
Proof. split; reflexivity. Qed.

(** ** Response parsing *)

Lemma cpmPositive_true (c : option Q) :
  cpmPositive c = true ↔ ∃ q, c = Some q ∧ (0 < q)%Q.
Proof.
  destruct c as [q|]; simpl.
  - rewrite Qgtb_true. split; [by exists q | by intros (? & [= <-] & ?)].
  - split; [discriminate | by intros (? & ? & ?)].
Qed.

Lemma startsWith_app (p q s : string) :
  JS.startsWith (p +:+ q) s = true → JS.startsWith p s = true.
Proof.
  revert s. induction p as [|c p IH]; intros s H; [by destruct s|].
  destruct s as [|d s]; [discriminate|].
  change (JS.startsWith (String c p +:+ q) (String d s))
    with (if Ascii.eqb c d then JS.startsWith (p +:+ q) s else false) in H.
  change (JS.startsWith (String c p) (String d s))
    with (if Ascii.eqb c d then JS.startsWith p s else false).
  destruct (Ascii.eqb c d); [by apply IH | discriminate].
Qed.

Lemma startsWith_includes (p s : string) :
  JS.startsWith p s = true → JS.includes s p = true.
Proof.
  intros H. destruct s as [|d s].
  - change (JS.includes "" p) with (JS.startsWith p "" || false). by rewrite H.
  - change (JS.includes (String d s) p)
      with (JS.startsWith p (String d s) || JS.includes s p). by rewrite H.
Qed.

(** A placeholder site id, which starts with ["bidid-"], contains
    ["bidid"]. *)
Lemma startsWith_includes_bidid (s : string) :
  JS.startsWith "bidid-" s = true → JS.includes s "bidid" = true.
Proof.
  intros H. apply startsWith_includes. by apply (startsWith_app "bidid" "-").
Qed.

Section ResponseParserFacts.

Variable parseAdmNative : string → option NativeData.
Variable R : BidderRequest.
Variable response : ServerResponse.

(** The site left behind by one bid: its id and slot are the resolved ones. *)
Lemma processBid_site (seatName : option string) (st : IRState) (b : ServerBid) :
  site_id (st_site (processBid parseAdmNative R response seatName st b))
    = resolvedSiteId (st_site st) b ∧
  site_slot (st_site (processBid parseAdmNative R response seatName st b))
    = resolvedSlotId (st_site st) b.
Proof.
  unfold processBid. repeat case_match; done.
Qed.

(** A bid without a matching request changes neither [bids] nor the store. *)
Lemma processBid_unmatched (seatName : option string) (st : IRState) (b : ServerBid) :
  matchRequest R (impid b) = None →
  st_bids (processBid parseAdmNative R response seatName st b) = st_bids st ∧
  oneCodeDetection (processBid parseAdmNative R response seatName st b)
    = oneCodeDetection st.
Proof. intros H. unfold processBid. by rewrite H. Qed.

(** A bid whose resolved site is unusable changes neither of them either. *)
Lemma processBid_unresolved (seatName : option string) (st : IRState) (b : ServerBid) :
  siteResolved (mkSite (resolvedSiteId (st_site st) b) None None None None) = false →
  st_bids (processBid parseAdmNative R response seatName st b) = st_bids st ∧
  oneCodeDetection (processBid parseAdmNative R response seatName st b)
    = oneCodeDetection st.
Proof.
  intros H. unfold processBid. unfold siteResolved in *. simpl in *.
  destruct (matchRequest R (impid b)); [|done]. by rewrite H.
Qed.

(** Whatever one bid does to [bids] or to the store, it does for a matched
    request and a usable site. *)
Lemma processBid_changes (seatName : option string) (st : IRState) (b : ServerBid) :
  st_bids (processBid parseAdmNative R response seatName st b) ≠ st_bids st ∨
  oneCodeDetection (processBid parseAdmNative R response seatName st b)
    ≠ oneCodeDetection st →
  (∃ br, matchRequest R (impid b) = Some br) ∧
  siteResolved (mkSite (resolvedSiteId (st_site st) b) None None None None) = true.
Proof.
  intros H.
  destruct (matchRequest R (impid b)) as [br|] eqn:Em.
  - split; [by exists br|].
    destruct (siteResolved _) eqn:Es; [done|].
    destruct (processBid_unresolved seatName st b Es) as [H1 H2].
    destruct H; contradiction.
  - destruct (processBid_unmatched seatName st b Em) as [H1 H2].
    destruct H; contradiction.
Qed.

(** One bid either leaves [bids] alone or appends one bid of positive cpm. *)
Lemma processBid_bids (seatName : option string) (st : IRState) (b : ServerBid) :
  st_bids (processBid parseAdmNative R response seatName st b) = st_bids st ∨
  ∃ x, st_bids (processBid parseAdmNative R response seatName st b) = (st_bids st ++ [x])%list ∧
       cpmPositive (cpm x) = true.
Proof.
  unfold processBid.
  destruct (matchRequest R (impid b)) as [br|]; [|by left].
  destruct (siteResolved _); [|by left].
  destruct (cpmPositive _) eqn:E; [|by left].
  right. eexists. split; [reflexivity | exact E].
Qed.

Lemma forEachBid_app (seatName : option string) (st : IRState) (l1 l2 : list ServerBid) :
  forEachBid parseAdmNative R response seatName st (l1 ++ l2) =
  forEachBid parseAdmNative R response seatName
    (forEachBid parseAdmNative R response seatName st l1) l2.
Proof. unfold forEachBid. apply fold_left_app. Qed.

Lemma forEachSeatbid_app (st : IRState) (l1 l2 : list SeatBid) :
  forEachSeatbid parseAdmNative R response st (l1 ++ l2) =
  forEachSeatbid parseAdmNative R response
    (forEachSeatbid parseAdmNative R response st l1) l2.
Proof. unfold forEachSeatbid. apply fold_left_app. Qed.

(** The [bids] array only grows, and only by bids of positive cpm. *)
Lemma forEachBid_grows (seatName : option string) (l : list ServerBid) (st : IRState) :
  ∃ more, st_bids (forEachBid parseAdmNative R response seatName st l)
            = (st_bids st ++ more)%list ∧
          Forall (fun x => cpmPositive (cpm x) = true) more.
Proof.
  revert st. induction l as [|b l IH]; intros st.
  - exists []. split; [by rewrite app_nil_r | constructor].
  - change (forEachBid parseAdmNative R response seatName st (b :: l))
      with (forEachBid parseAdmNative R response seatName
              (processBid parseAdmNative R response seatName st b) l).
    destruct (IH (processBid parseAdmNative R response seatName st b))
      as (more & Hm & Hpos).
    destruct (processBid_bids seatName st b) as [Hb|(x & Hb & Hx)].
    + exists more. by rewrite Hm, Hb.
    + exists (x :: more). split.
      * by rewrite Hm, Hb, <- app_assoc.
      * by constructor.
Qed.

Lemma forEachSeatbid_grows (l : list SeatBid) (st : IRState) :
  ∃ more, st_bids (forEachSeatbid parseAdmNative R response st l)
            = (st_bids st ++ more)%list ∧
          Forall (fun x => cpmPositive (cpm x) = true) more.
Proof.
  revert st. induction l as [|sb l IH]; intros st.
  - exists []. split; [by rewrite app_nil_r | constructor].
  - change (forEachSeatbid parseAdmNative R response st (sb :: l))
      with (forEachSeatbid parseAdmNative R response
              (forEachBid parseAdmNative R response (seat sb) st (bid sb)) l).
    destruct (IH (forEachBid parseAdmNative R response (seat sb) st (bid sb)))
      as (more2 & Hm2 & Hpos2).
    destruct (forEachBid_grows (seat sb) (bid sb) st) as (more1 & Hm1 & Hpos1).
    exists (more1 ++ more2)%list. split.
    + by rewrite Hm2, Hm1, <- app_assoc.
    + by apply Forall_app.
Qed.

End ResponseParserFacts.

Section ResponseParserClaims.

Variable parseAdmNative : string → option NativeData.

(** The cpm of a built bid is the price of the server bid, or 0 after a
    failed native parse. *)
Lemma buildBid_cpm (R : BidderRequest) (response : ServerResponse)
    (seatName : option string) (oldSite : Site) (br : BidRequest)
    (b : ServerBid) :
  cpm (buildBid parseAdmNative R response seatName oldSite br b) = price b ∨
  cpm (buildBid parseAdmNative R response seatName oldSite br b) = Some 0%Q.
Proof.
  unfold buildBid. repeat case_match; simpl; auto.
Qed.

Lemma buildBid_cpm_native_failure (R : BidderRequest) (response : ServerResponse)
    (seatName : option string) (oldSite : Site) (br : BidRequest)
    (b : ServerBid) :
  isVideoAd b = false → isNativeAd b = true →
  tryParseNative parseAdmNative b (adUnitCode br) = None →
  cpm (buildBid parseAdmNative R response seatName oldSite br b) = Some 0%Q.
Proof.
  intros Hv Hn Hp. unfold buildBid. by rewrite Hv, Hn, Hp.
Qed.

Lemma not_positive_no_push (R : BidderRequest) (response : ServerResponse)
    (seatName : option string) (st : IRState) (b : ServerBid) :
  (∀ br, cpmPositive
           (cpm (buildBid parseAdmNative R response seatName (st_site st) br b))
         = false) →
  st_bids (processBid parseAdmNative R response seatName st b) = st_bids st.
Proof.
  intros H. unfold processBid.
  destruct (matchRequest R (impid b)) as [br|]; [|done].
  destruct (siteResolved _); [|done]. by rewrite (H br).
Qed.

(** C3. Every bid returned by [interpretResponse] has a cpm strictly above
    0.  A server bid with price 0 adds nothing to [bids], whatever it
    matches; and a matched native bid whose payload cannot be parsed gets
    cpm 0 and adds nothing either. *)
Theorem only_positive_cpm_is_returned
    (store : gmap string (option string * option string))
    (response : ServerResponse) (request : Request) :
  (∀ x, x ∈ st_bids (interpretResponse parseAdmNative store response request) →
        ∃ q, cpm x = Some q ∧ (0 < q)%Q) ∧
  (∀ R seatName st b q,
     price b = Some q → (q == 0)%Q →
     st_bids (processBid parseAdmNative R response seatName st b) = st_bids st) ∧
  (∀ R seatName st b br,
     matchRequest R (impid b) = Some br →
     isVideoAd b = false → isNativeAd b = true →
     tryParseNative parseAdmNative b (adUnitCode br) = None →
     (∀ oldSite,
        cpm (buildBid parseAdmNative R response seatName oldSite br b)
          = Some 0%Q) ∧
     st_bids (processBid parseAdmNative R response seatName st b) = st_bids st).
Proof.
  split; [|split].
  - intros x Hx. apply cpmPositive_true.
    unfold interpretResponse in Hx.
    destruct (seatbid response) as [sbs|].
    + destruct (forEachSeatbid_grows parseAdmNative (bidderRequest request) response
                  sbs (initialState store response request)) as (more & Hm & Hpos).
      rewrite Hm in Hx. simpl in Hx.
      rewrite Forall_forall in Hpos. by apply Hpos.
    + simpl in Hx. by apply elem_of_nil in Hx.
  - intros R seatName st b q Hq Hz. apply not_positive_no_push. intros br.
    destruct (buildBid_cpm R response seatName (st_site st) br b) as [-> | ->].
    + rewrite Hq. simpl. apply Qgtb_false. rewrite Hz. apply Qle_refl.
    + reflexivity.
  - intros R seatName st b br Hm Hv Hn Hp. split.
    + intros oldSite. by apply buildBid_cpm_native_failure.
    + unfold processBid. rewrite Hm.
      destruct (siteResolved _); [|done].
      by rewrite (buildBid_cpm_native_failure R response seatName _ br b Hv Hn Hp).
Qed.

(** No request is found for an [impid] that no recomputed id equals. *)
Lemma matchRequest_none (R : BidderRequest) (i : option string) :
  Forall (fun r => Some (currentBidId r) ≠ i) (bids R) → matchRequest R i = None.
Proof.
  intros Hno. unfold matchRequest. apply head_None. apply elem_of_nil_inv.
  intros r [Hr1 Hr2]%list_elem_of_filter.
  rewrite Forall_forall in Hno. by apply (Hno r).
Qed.

(** The run of [interpretResponse], cut at one bid of the batch. *)
Lemma interpretResponse_at
    (store : gmap string (option string * option string))
    (response : ServerResponse) (request : Request)
    (sbs1 sbs2 : list SeatBid) (seatName : option string)
    (pre post : list ServerBid) (b : ServerBid) :
  seatbid response = Some (sbs1 ++ mkSeatBid seatName (pre ++ b :: post) :: sbs2) →
  interpretResponse parseAdmNative store response request =
    forEachSeatbid parseAdmNative (bidderRequest request) response
      (forEachBid parseAdmNative (bidderRequest request) response seatName
         (processBid parseAdmNative (bidderRequest request) response seatName
            (forEachBid parseAdmNative (bidderRequest request) response seatName
               (forEachSeatbid parseAdmNative (bidderRequest request) response
                  (initialState store response request) sbs1) pre) b)
         post) sbs2.
Proof.
  intros Hsb. unfold interpretResponse. rewrite Hsb.
  rewrite forEachSeatbid_app.
  change (forEachSeatbid parseAdmNative (bidderRequest request) response ?s (?sb :: sbs2))
    with (forEachSeatbid parseAdmNative (bidderRequest request) response
            (forEachBid parseAdmNative (bidderRequest request) response (seat sb) s (bid sb))
            sbs2).
  simpl seat. simpl bid. by rewrite forEachBid_app.
Qed.

(** C7, as the code has it.  The site id a bid is judged by is its own
    [ext.siteid] or else the id of the running [site], which starts as the
    site id of the request and then is what the previous bids left there.
    When that id is a ["bidid-"] placeholder the bid adds nothing to [bids]
    and nothing to the store; a bid that changes either of them has a
    matching request and a non-empty resolved site id that is not a
    placeholder.  The call as a whole returns what the loops computed
    whenever the converter call of its first statement returns, and raises
    when that call raises. *)
Theorem placeholder_site_is_discarded (R : BidderRequest) (response : ServerResponse)
    (seatName : option string) (st : IRState) (b : ServerBid) :
  let out := processBid parseAdmNative R response seatName st b in
  let resolved := resolvedSiteId (st_site st) b in
  (∀ store request,
     site_id (st_site (initialState store response request))
       = site_id (request_site request)) ∧
  site_id (st_site out) = resolved ∧
  (∀ s, resolved = Some s → JS.startsWith "bidid-" s = true →
        st_bids out = st_bids st ∧ oneCodeDetection out = oneCodeDetection st) ∧
  (st_bids out ≠ st_bids st ∨ oneCodeDetection out ≠ oneCodeDetection st →
   (∃ br, matchRequest R (impid b) = Some br) ∧
   ∃ s, resolved = Some s ∧ s ≠ "" ∧ JS.startsWith "bidid-" s = false) ∧
  (∀ fromORTB store request,
     (∀ u, fromORTB response request = Returned u →
           interpretResponseCall fromORTB parseAdmNative store response request
             = Returned (interpretResponse parseAdmNative store response request)) ∧
     (fromORTB response request = Raised →
      interpretResponseCall fromORTB parseAdmNative store response request = Raised)).
Proof.
  cbv zeta. split; [done|]. split; [|split; [|split]].
  - apply processBid_site.
  - intros s Hs Hp. apply processBid_unresolved.
    unfold siteResolved. simpl. rewrite Hs.
    by rewrite (startsWith_includes_bidid s Hp), andb_false_r.
  - intros Hch.
    destruct (processBid_changes parseAdmNative R response seatName st b Hch)
      as [Hm Hres].
    split; [exact Hm|].
    unfold siteResolved in Hres. simpl in Hres.
    destruct (resolvedSiteId (st_site st) b) as [s|]; [|discriminate].
    apply andb_true_iff in Hres as [Ht Hinc].
    exists s. split; [reflexivity|]. split; [by apply truthy_Some|].
    destruct (JS.startsWith "bidid-" s) eqn:Ep; [|reflexivity].
    rewrite (startsWith_includes_bidid s Ep) in Hinc. discriminate.
  - intros fromORTB store request. unfold interpretResponseCall. split.
    + intros u ->. reflexivity.
    + intros ->. reflexivity.
Qed.

End ResponseParserClaims.

Lemma only_positive_cpm_is_returned_witness :
  st_bids (processBid Ex.noParse Ex.auction (Ex.responseOf [])
             (Some "seat-1") (initialState Ex.emptyStore (Ex.responseOf []) Ex.plainRequest)
             (Ex.bannerBid "010" None 0%Q)) = [] ∧
  st_bids (processBid Ex.noParse Ex.auction (Ex.responseOf [])
             (Some "seat-1") (initialState Ex.emptyStore (Ex.responseOf []) Ex.plainRequest)
             Ex.brokenNativeBid) = [].
Proof.
  pose proof (only_positive_cpm_is_returned Ex.noParse Ex.emptyStore (Ex.responseOf [])
                Ex.plainRequest) as (_ & Hzero & Hnative).
  split.
  - apply (Hzero Ex.auction (Some "seat-1")
             (initialState Ex.emptyStore (Ex.responseOf []) Ex.plainRequest)
             (Ex.bannerBid "010" None 0%Q) 0%Q); reflexivity.
  - apply (Hnative Ex.auction (Some "seat-1")
             (initialState Ex.emptyStore (Ex.responseOf []) Ex.plainRequest)
             Ex.brokenNativeBid Ex.slot010); reflexivity.
Defined.

(** The stray bid of the example is dropped and both other bids come back. *)
Lemma stray_response_example :
  map (fun x => (requestId x, cpm x))
      (st_bids (interpretResponse Ex.noParse Ex.emptyStore Ex.strayResponse
                  Ex.plainRequest))
  = [("r10", Some 1%Q); ("r11", Some 3%Q)].
Proof. vm_compute. reflexivity. Qed.

Lemma placeholder_site_is_discarded_witness :
  st_bids (processBid Ex.noParse Ex2.oneCodeAuction Ex3.namedThenUnnamed (Some "seat-1")
             (initialState Ex.emptyStore Ex3.namedThenUnnamed Ex3.oneCodeRequest)
             Ex3.unnamedBid) = [] ∧
  oneCodeDetection
    (processBid Ex.noParse Ex2.oneCodeAuction Ex3.namedThenUnnamed (Some "seat-1")
       (initialState Ex.emptyStore Ex3.namedThenUnnamed Ex3.oneCodeRequest)
       Ex3.unnamedBid) = Ex.emptyStore.
Proof.
  pose proof (placeholder_site_is_discarded Ex.noParse Ex2.oneCodeAuction
                Ex3.namedThenUnnamed (Some "seat-1")
                (initialState Ex.emptyStore Ex3.namedThenUnnamed Ex3.oneCodeRequest)
                Ex3.unnamedBid) as H.
  cbv zeta in H. destruct H as (_ & _ & Hdiscard & _).
  apply (Hdiscard "bidid-page"); reflexivity.
Defined.

(** C7, as stated, fails.  [Ex3.oneCodeRequest] is the request of an auction
    of OneCode slots on a page whose site id is the placeholder
    ["bidid-page"]: no slot names a site, so that id is the one the request
    carries.  The second bid of [Ex3.namedThenUnnamed] matches a request and
    has no [ext.siteid], so the site id that C7 resolves for it is that of
    the request, a placeholder.  Yet when the converter call of the first
    statement returns, the bid is returned and a store entry is written for
    it, because the first bid left ["8816"] in the running [site]; and when
    that call raises, the function raises. *)
Lemma carried_site_id_counterexample :
  Forall (fun r => paramsSiteId r = None) (bids Ex2.oneCodeAuction) ∧
  request_site Ex3.oneCodeRequest = mkSite (Some "bidid-page") None None None None ∧
  matchRequest Ex2.oneCodeAuction (impid Ex3.unnamedBid) = Some Ex2.oneCodeB ∧
  ext_siteid (default emptyExt (ext Ex3.unnamedBid)) = None ∧
  resolvedSiteId (request_site Ex3.oneCodeRequest) Ex3.unnamedBid = Some "bidid-page" ∧
  JS.startsWith "bidid-" "bidid-page" = true ∧
  (∃ st, interpretResponseCall Ex3.returning Ex.noParse Ex.emptyStore
           Ex3.namedThenUnnamed Ex3.oneCodeRequest = Returned st ∧
         map requestId (st_bids st) = ["2c5d1e"; "7f00aa"] ∧
         oneCodeDetection st !! "7f00aa" = Some (Some "8816", None)) ∧
  interpretResponseCall Ex3.raising Ex.noParse Ex.emptyStore
    Ex3.namedThenUnnamed Ex3.oneCodeRequest = Raised.
Proof.
  split; [repeat constructor|].
  do 5 (split; [reflexivity|]).
  split; [|reflexivity].
  eexists. split; [reflexivity|]. vm_compute. split; reflexivity.
Qed.

(** ** Size labels *)

Lemma label_truthy (size suffix : string) :
  JS.truthy (Some (size +:+ "_" +:+ suffix)) = true.
Proof. by destruct size. Qed.

Lemma nextCount_counter (st : LabelState) (size : string) :
  nextCount st size = (counter st size + 1)%N.
Proof.
  unfold nextCount, counter. destruct (adSizesCalled st !! size) as [k|]; simpl; [|done].
  destruct (N.eqb_spec k 0) as [->|]; done.
Qed.

Lemma readMember_insert_eq (dict : gmap string string) (key label : string) :
  readMember (<[key := label]> dict) key = OwnLabel label.
Proof. unfold readMember. by rewrite lookup_insert_eq. Qed.

Lemma readMember_insert_ne (dict : gmap string string) (key key' label : string) :
  key ≠ key' → readMember (<[key := label]> dict) key' = readMember dict key'.
Proof. intros H. unfold readMember. by rewrite lookup_insert_ne. Qed.

(** A label is read exactly where it is stored as an own property. *)
Lemma readMember_own (dict : gmap string string) (key label : string) :
  readMember dict key = OwnLabel label ↔ dict !! key = Some label.
Proof.
  unfold readMember. destruct (dict !! key) as [l|].
  - split; intros H; by simplify_eq.
  - split; [|done]. by destruct (inheritedName key).
Qed.

(** An inherited name reads as truthy whatever the dictionary holds, as long
    as it holds no empty label under it. *)
Lemma readMember_inherited (key : string) :
  inheritedName key = true → truthyMember (readMember ∅ key) = true.
Proof. intros H. unfold readMember. by rewrite lookup_empty, H. Qed.

(** An ad unit already known leaves the dictionaries untouched. *)
Lemma registerAdUnit_known (st : LabelState) (code size : string) :
  truthyMember (readMember (adUnitsCalled st) code) = true →
  registerAdUnit st code size = st.
Proof. intros H. unfold registerAdUnit. by rewrite H. Qed.

(** A new ad unit takes the next number of its size. *)
Lemma registerAdUnit_new (st : LabelState) (code size : string) :
  truthyMember (readMember (adUnitsCalled st) code) = false →
  registerAdUnit st code size =
    mkLabelState
      (<[code := size +:+ "_" +:+ pretty (counter st size + 1)%N]> (adUnitsCalled st))
      (<[size := (counter st size + 1)%N]> (adSizesCalled st)).
Proof. intros H. unfold registerAdUnit. by rewrite H, nextCount_counter. Qed.

(** What is read as truthy stays as it is. *)
Lemma registerAdUnit_stable (st : LabelState) (code size c : string) :
  truthyMember (readMember (adUnitsCalled st) c) = true →
  readMember (adUnitsCalled (registerAdUnit st code size)) c
    = readMember (adUnitsCalled st) c.
Proof.
  intros Hc. destruct (truthyMember (readMember (adUnitsCalled st) code)) eqn:E.
  - by rewrite registerAdUnit_known.
  - rewrite registerAdUnit_new by done. simpl.
    apply readMember_insert_ne. intros ->. congruence.
Qed.

(** Counters never decrease in one step. *)
Lemma registerAdUnit_counter_mono (st : LabelState) (code size s : string) :
  (counter st s ≤ counter (registerAdUnit st code size) s)%N.
Proof.
  destruct (truthyMember (readMember (adUnitsCalled st) code)) eqn:E.
  - by rewrite registerAdUnit_known.
  - rewrite registerAdUnit_new by done. unfold counter at 2. simpl.
    destruct (decide (size = s)) as [->|Hne].
    + rewrite lookup_insert_eq. simpl. lia.
    + rewrite lookup_insert_ne by done. done.
Qed.

Lemma buildImps_snoc (cfg : Config) (pre : list BidRequest) (r : BidRequest)
    (st : LabelState) :
  buildImps cfg st (pre ++ [r]) =
    ((converter_imp cfg (buildImps cfg st pre).1 r).1,
     (buildImps cfg st pre).2 ++ [(converter_imp cfg (buildImps cfg st pre).1 r).2]).
Proof.
  revert st. induction pre as [|x pre IH]; intros st.
  - cbn [buildImps app fst snd]. by destruct (converter_imp cfg st r).
  - cbn [buildImps app]. destruct (converter_imp cfg st x) as [st1 i] eqn:E1.
    rewrite IH. destruct (buildImps cfg st1 pre) as [st2 imps].
    by cbn [app fst snd].
Qed.

Lemma buildImps_counter_mono (cfg : Config) (reqs : list BidRequest)
    (st : LabelState) (s : string) :
  (counter st s ≤ counter (buildImps cfg st reqs).1 s)%N.
Proof.
  revert st. induction reqs as [|r reqs IH]; intros st; [done|].
  cbn [buildImps]. destruct (converter_imp cfg st r) as [st1 i] eqn:E1.
  specialize (IH st1). destruct (buildImps cfg st1 reqs) as [st2 imps].
  cbn [fst] in *.
  assert (st1 = registerAdUnit st (adUnitCode r) (impSize (sizes r))) as ->
    by (unfold converter_imp in E1; by simplify_eq).
  pose proof (registerAdUnit_counter_mono st (adUnitCode r) (impSize (sizes r)) s). lia.
Qed.

Lemma newUnitsOfSize_snoc (size : string) (pre : list BidRequest) (r : BidRequest)
    (seen : list string) :
  newUnitsOfSize size seen (pre ++ [r]) =
    (newUnitsOfSize size seen pre +
     (if bool_decide (adUnitCode r ∈ seen ++ (adUnitCode <$> pre))
         || inheritedName (adUnitCode r) then 0
      else if String.eqb (impSize (sizes r)) size then 1 else 0))%N.
Proof.
  revert seen. induction pre as [|x pre IH]; intros seen.
  - simpl. rewrite app_nil_r. lia.
  - rewrite fmap_cons. simpl. rewrite IH.
    rewrite (bool_decide_ext (adUnitCode r ∈ (adUnitCode x :: seen) ++ (adUnitCode <$> pre))
               (adUnitCode r ∈ seen ++ adUnitCode x :: (adUnitCode <$> pre))).
    + lia.
    + rewrite !elem_of_app, !elem_of_cons, ?elem_of_app. tauto.
Qed.

(** What the dictionaries hold after any sequence of builds from the empty
    dictionaries: a truthy member under exactly the ad-unit codes built so
    far and the inherited names, a counter equal to the number of distinct
    ad units, inherited names apart, first built with that size, and for
    every build what its ad-unit code still reads. *)
Lemma buildImps_invariant (cfg : Config) (pre : list BidRequest) :
  let st := (buildImps cfg initialLabels pre).1 in
  let imps := (buildImps cfg initialLabels pre).2 in
  (∀ c, truthyMember (readMember (adUnitsCalled st) c) = true
        ↔ c ∈ (adUnitCode <$> pre) ∨ inheritedName c = true) ∧
  (∀ s, counter st s = newUnitsOfSize s [] pre) ∧
  length imps = length pre ∧
  (∀ k rk ik, pre !! k = Some rk → imps !! k = Some ik →
              pbsize ik = readMember (adUnitsCalled st) (adUnitCode rk)).
Proof.
  cbv zeta. induction pre as [|r pre IH] using rev_ind.
  - cbn [buildImps fst snd]. split; [|by repeat split].
    intros c. unfold initialLabels, readMember. simpl. rewrite lookup_empty.
    destruct (inheritedName c); simpl.
    + split; [by right | done].
    + split; [done|]. intros [H|H]; [by apply elem_of_nil in H | done].
  - rewrite buildImps_snoc. cbn [fst snd].
    destruct IH as (IH1 & IH2 & IH3 & IH4).
    set (st := (buildImps cfg initialLabels pre).1) in *.
    set (imps := (buildImps cfg initialLabels pre).2) in *.
    set (code := adUnitCode r). set (size := impSize (sizes r)).
    assert ((converter_imp cfg st r).1 = registerAdUnit st code size) as Hst by done.
    assert (pbsize (converter_imp cfg st r).2
            = readMember (adUnitsCalled (registerAdUnit st code size)) code) as Hpb by done.
    rewrite Hst.
    split; [|split; [|split]].
    + intros c. rewrite fmap_app, elem_of_app.
      change (adUnitCode <$> [r]) with [code]. rewrite list_elem_of_singleton.
      destruct (truthyMember (readMember (adUnitsCalled st) code)) eqn:E.
      * rewrite registerAdUnit_known by done. rewrite IH1.
        split; [tauto|]. intros [[H| ->]|H]; [tauto| |tauto]. by apply IH1.
      * rewrite registerAdUnit_new by done. simpl.
        destruct (decide (code = c)) as [<-|Hne].
        -- rewrite readMember_insert_eq. cbn [truthyMember]. rewrite label_truthy. tauto.
        -- rewrite readMember_insert_ne by done. rewrite IH1.
           split; [tauto|]. intros [[H| ->]|H]; [tauto|done|tauto].
    + intros s. rewrite newUnitsOfSize_snoc, app_nil_l, <- IH2.
      fold code. fold size.
      destruct (truthyMember (readMember (adUnitsCalled st) code)) eqn:E.
      * rewrite registerAdUnit_known by done.
        apply IH1 in E.
        assert (bool_decide (code ∈ adUnitCode <$> pre) || inheritedName code = true) as ->.
        { destruct E as [E|E]; [by rewrite bool_decide_eq_true_2 | by rewrite E, orb_true_r]. }
        lia.
      * rewrite registerAdUnit_new by done.
        assert (bool_decide (code ∈ adUnitCode <$> pre) || inheritedName code = false) as ->.
        { apply orb_false_iff. split.
          - apply bool_decide_eq_false_2. intros H.
            assert (truthyMember (readMember (adUnitsCalled st) code) = true)
              by (apply IH1; by left).
            congruence.
          - destruct (inheritedName code) eqn:Ei; [|done].
            assert (truthyMember (readMember (adUnitsCalled st) code) = true)
              by (apply IH1; by right).
            congruence. }
        unfold counter at 1. simpl.
        destruct (String.eqb_spec size s) as [->|Hne].
        -- by rewrite lookup_insert_eq.
        -- rewrite lookup_insert_ne by done. unfold counter. lia.
    + rewrite !length_app. simpl. lia.
    + intros k rk ik Hr Hi.
      apply lookup_app_Some in Hr as [Hr|[Hk Hr]].
      * apply lookup_app_Some in Hi as [Hi|[Hk' _]].
        -- rewrite (IH4 k rk ik Hr Hi). symmetry.
           apply registerAdUnit_stable. apply IH1. left.
           apply list_elem_of_fmap_2. by eapply list_elem_of_lookup_2.
        -- apply lookup_lt_Some in Hr. lia.
      * apply list_lookup_singleton_Some in Hr as [Hk0 <-].
        apply lookup_app_Some in Hi as [Hi|[_ Hi]].
        -- apply lookup_lt_Some in Hi. lia.
        -- rewrite IH3 in Hi.
           apply list_lookup_singleton_Some in Hi as [_ <-]. exact Hpb.
Qed.

(** The numbering of size labels.  Built from the empty dictionaries, after
    any sequence [pre] of builds, for an ad unit whose code is not a name
    inherited from [Object.prototype]: when it was not built before it gets
    the label of its size with the next number, which is one more than the
    number of distinct ad units, inherited names apart, first built with that
    size (so the first gets [S_1] and the n-th gets [S_n]); when it was built
    before it leaves the dictionaries as they are and gets the label of every
    earlier build of that ad unit, its first one included; and no counter
    ever decreases. *)
Theorem size_labels_number_ad_units (cfg : Config) (pre : list BidRequest)
    (r : BidRequest) :
  inheritedName (adUnitCode r) = false →
  let st := (buildImps cfg initialLabels pre).1 in
  let imps := (buildImps cfg initialLabels pre).2 in
  let out := converter_imp cfg st r in
  let size := impSize (sizes r) in
  (adUnitCode r ∉ (adUnitCode <$> pre) →
   pbsize out.2 = OwnLabel (size +:+ "_" +:+ pretty (newUnitsOfSize size [] pre + 1)%N)) ∧
  (adUnitCode r ∉ (adUnitCode <$> pre) → newUnitsOfSize size [] pre = 0%N →
   pbsize out.2 = OwnLabel (size +:+ "_1")) ∧
  (adUnitCode r ∈ (adUnitCode <$> pre) →
   out.1 = st ∧
   (∃ label, pbsize out.2 = OwnLabel label) ∧
   ∀ k rk ik, pre !! k = Some rk → imps !! k = Some ik →
              adUnitCode rk = adUnitCode r → pbsize ik = pbsize out.2) ∧
  (∀ reqs st0 s, (counter st0 s ≤ counter (buildImps cfg st0 reqs).1 s)%N).
Proof.
  intros Hown. cbv zeta.
  destruct (buildImps_invariant cfg pre) as (I1 & I2 & I3 & I4).
  set (st := (buildImps cfg initialLabels pre).1) in *.
  set (imps := (buildImps cfg initialLabels pre).2) in *.
  assert (∀ st', (converter_imp cfg st' r).1
                 = registerAdUnit st' (adUnitCode r) (impSize (sizes r))) as Hst by done.
  assert (∀ st', pbsize (converter_imp cfg st' r).2
                 = readMember
                     (adUnitsCalled (registerAdUnit st' (adUnitCode r) (impSize (sizes r))))
                     (adUnitCode r)) as Hpb by done.
  assert (adUnitCode r ∉ (adUnitCode <$> pre) →
          pbsize (converter_imp cfg st r).2
          = OwnLabel (impSize (sizes r) +:+ "_" +:+
                      pretty (newUnitsOfSize (impSize (sizes r)) [] pre + 1)%N)) as Hnew.
  { intros Hnot. rewrite Hpb.
    rewrite registerAdUnit_new.
    - simpl. by rewrite readMember_insert_eq, I2.
    - destruct (truthyMember (readMember (adUnitsCalled st) (adUnitCode r))) eqn:E; [|done].
      apply I1 in E as [E|E]; [done | congruence]. }
  split; [exact Hnew|]. split; [|split].
  - intros Hnot Hzero. rewrite (Hnew Hnot), Hzero. reflexivity.
  - intros Hin.
    assert (truthyMember (readMember (adUnitsCalled st) (adUnitCode r)) = true) as Hk
      by (apply I1; by left).
    rewrite Hst, Hpb, registerAdUnit_known by done.
    split; [done|]. split.
    + unfold readMember in *. destruct (adUnitsCalled st !! adUnitCode r) as [l|].
      * by exists l.
      * by rewrite Hown in Hk.
    + intros k rk ik Hr Hi Hc. rewrite <- Hc. by eapply I4.
  - intros reqs st0 s. apply buildImps_counter_mono.
Qed.

Lemma size_labels_number_ad_units_witness :
  pbsize (converter_imp (mkConfig None)
            (buildImps (mkConfig None) initialLabels [Ex.slot5; Ex.slotOneCode]).1
            Ex.slot003).2
    = OwnLabel ("728x90" +:+ "_1") ∧
  ∀ k rk ik,
    [Ex.slot5; Ex.slotOneCode] !! k = Some rk →
    (buildImps (mkConfig None) initialLabels [Ex.slot5; Ex.slotOneCode]).2 !! k = Some ik →
    adUnitCode rk = adUnitCode Ex.slot5 →
    pbsize ik =
    pbsize (converter_imp (mkConfig None)
              (buildImps (mkConfig None) initialLabels [Ex.slot5; Ex.slotOneCode]).1
              Ex.slot5).2.
Proof.
  split.
  - pose proof (size_labels_number_ad_units (mkConfig None)
                  [Ex.slot5; Ex.slotOneCode] Ex.slot003 eq_refl) as H.
    cbv zeta in H. destruct H as (_ & Hfirst & _).
    apply Hfirst.
    + intros Hin. vm_compute in Hin.
      repeat (apply elem_of_cons in Hin as [Hin|Hin]; [discriminate|]).
      by apply elem_of_nil in Hin.
    + vm_compute. reflexivity.
  - pose proof (size_labels_number_ad_units (mkConfig None)
                  [Ex.slot5; Ex.slotOneCode] Ex.slot5 eq_refl) as H.
    cbv zeta in H. destruct H as (_ & _ & Hagain & _).
    apply Hagain. vm_compute. apply list_elem_of_here.
Defined.

(** C5.  The first ad unit built with a size is to get the label of that
    size with number 1.  The code misses the ad units whose code is a name
    every plain object inherits.  An ad unit called [constructor], the first
    one built with size 300x250, reads the inherited member as truthy under
    the guard meant to recognise a new ad unit: it is never registered, its
    impression carries that member and no label, and the counter of its size
    stays where it was, so that the next ad unit of that size is the one
    labelled [300x250_1]. *)
Lemma inherited_code_gets_no_label :
  adUnitCode Ex.slotConstructor = "constructor" ∧
  impSize (sizes Ex.slotConstructor) = "300x250" ∧
  (converter_imp (mkConfig None) initialLabels Ex.slotConstructor).1 = initialLabels ∧
  pbsize (converter_imp (mkConfig None) initialLabels Ex.slotConstructor).2 = Inherited ∧
  pbsize (converter_imp (mkConfig None) initialLabels Ex.slotConstructor).2
    ≠ OwnLabel "300x250_1" ∧
  pbsize <$> (buildImps (mkConfig None) initialLabels
                [Ex.slotConstructor; Ex.slot5]).2
    = [Inherited; OwnLabel "300x250_1"].
Proof. vm_compute. repeat split; try reflexivity. discriminate. Qed.

(** The example of the label rules: the first ad unit of size 300x250 is
    labelled [300x250_1], a second one [300x250_2], and a further build of
    the first gets [300x250_1] again. *)
Lemma size_label_example :
  pbsize <$> (buildImps (mkConfig None) initialLabels
                [Ex.slot5; Ex.slotOneCode; Ex.slot5]).2
  = [OwnLabel "300x250_1"; OwnLabel "300x250_2"; OwnLabel "300x250_1"].
Proof. vm_compute. reflexivity. Qed.

(** The end-to-end example of the specification, as the code runs it: the
    builder sends ["005"] for [params.id = "5"], and a server bid answering
    ["005"] finds no request, so nothing is returned. *)
Lemma padded_id_is_not_matched :
  imp_id Ex.slot5 = "005" ∧
  st_bids (interpretResponse Ex.noParse Ex.emptyStore
             (Ex.responseOf [Ex.bannerBid "005" None (3 # 2)%Q])
             (mkRequest (mkSite (Some "7") None None None None)
                        (mkBidderRequest (Some "auction-1") [Ex.slot5]))) = [].
Proof. vm_compute. split; reflexivity. Qed.

(** ** An unmatched bid without site fields changes nothing *)

Section UnmatchedBidInert.

Variable parseAdmNative : string → option NativeData.
Variable R : BidderRequest.

(** The loop body reads the response only for its currency. *)
Lemma processBid_cur (r1 r2 : ServerResponse) (seatName : option string)
    (st : IRState) (b : ServerBid) :
  cur r1 = cur r2 →
  processBid parseAdmNative R r1 seatName st b =
  processBid parseAdmNative R r2 seatName st b.
Proof. intros H. unfold processBid, buildBid. by rewrite H. Qed.

Lemma forEachBid_cur (r1 r2 : ServerResponse) (seatName : option string)
    (l : list ServerBid) (st : IRState) :
  cur r1 = cur r2 →
  forEachBid parseAdmNative R r1 seatName st l =
  forEachBid parseAdmNative R r2 seatName st l.
Proof.
  intros H. revert st. induction l as [|b l IH]; intros st; [done|].
  unfold forEachBid in *. simpl. by rewrite (processBid_cur r1 r2 _ _ _ H), IH.
Qed.

Lemma forEachSeatbid_cur (r1 r2 : ServerResponse) (l : list SeatBid) (st : IRState) :
  cur r1 = cur r2 →
  forEachSeatbid parseAdmNative R r1 st l = forEachSeatbid parseAdmNative R r2 st l.
Proof.
  intros H. revert st. induction l as [|sb l IH]; intros st; [done|].
  unfold forEachSeatbid in *. simpl. by rewrite (forEachBid_cur r1 r2 _ _ _ H), IH.
Qed.

Variable response : ServerResponse.

Lemma processBid_sameView (seatName : option string) (s1 s2 : IRState) (b : ServerBid) :
  sameView s1 s2 →
  sameView (processBid parseAdmNative R response seatName s1 b)
           (processBid parseAdmNative R response seatName s2 b).
Proof.
  destruct s1 as [[i1 l1 p1 a1 n1] store1 bids1], s2 as [[i2 l2 p2 a2 n2] store2 bids2].
  intros (Hi & Hl & Hs & Hb). simpl in Hi, Hl, Hs, Hb. subst.
  unfold processBid, sameView, siteResolved, resolvedSiteId, resolvedSlotId, buildBid.
  simpl. repeat case_match; simpl; done.
Qed.

Lemma forEachBid_sameView (seatName : option string) (l : list ServerBid)
    (s1 s2 : IRState) :
  sameView s1 s2 →
  sameView (forEachBid parseAdmNative R response seatName s1 l)
           (forEachBid parseAdmNative R response seatName s2 l).
Proof.
  revert s1 s2. induction l as [|b l IH]; intros s1 s2 H; [done|].
  apply IH. by apply processBid_sameView.
Qed.

Lemma forEachSeatbid_sameView (l : list SeatBid) (s1 s2 : IRState) :
  sameView s1 s2 →
  sameView (forEachSeatbid parseAdmNative R response s1 l)
           (forEachSeatbid parseAdmNative R response s2 l).
Proof.
  revert s1 s2. induction l as [|sb l IH]; intros s1 s2 H; [done|].
  apply IH. by apply forEachBid_sameView.
Qed.

Lemma processBid_unmatched_sameView (seatName : option string) (st : IRState)
    (b : ServerBid) :
  matchRequest R (impid b) = None →
  ext_siteid (default emptyExt (ext b)) = None →
  ext_slotid (default emptyExt (ext b)) = None →
  sameView (processBid parseAdmNative R response seatName st b) st.
Proof.
  intros Hm Hsite Hslot.
  unfold processBid, sameView, resolvedSiteId, resolvedSlotId.
  by rewrite Hm, Hsite, Hslot.
Qed.

End UnmatchedBidInert.

(** When the unmatched bid carries neither [ext.siteid] nor [ext.slotid],
    the bids returned and the store are those of the same response without
    that bid. *)
Lemma unmatched_bid_without_site_fields_is_inert
    (parseAdmNative : string → option NativeData)
    (store : gmap string (option string * option string))
    (response : ServerResponse) (request : Request)
    (sbs1 sbs2 : list SeatBid) (seatName : option string)
    (pre post : list ServerBid) (b : ServerBid) :
  seatbid response = Some (sbs1 ++ mkSeatBid seatName (pre ++ b :: post) :: sbs2) →
  Forall (fun r => Some (currentBidId r) ≠ impid b) (bids (bidderRequest request)) →
  ext_siteid (default emptyExt (ext b)) = None →
  ext_slotid (default emptyExt (ext b)) = None →
  sameView
    (interpretResponse parseAdmNative store response request)
    (interpretResponse parseAdmNative store
       (withSeatbid response (sbs1 ++ mkSeatBid seatName (pre ++ post) :: sbs2))
       request).
Proof.
  intros Hsb Hno Hsite Hslot.
  rewrite (interpretResponse_at parseAdmNative store response request
             sbs1 sbs2 seatName pre post b Hsb).
  set (R := bidderRequest request).
  set (without := withSeatbid response (sbs1 ++ mkSeatBid seatName (pre ++ post) :: sbs2)).
  assert (cur without = cur response) as Hcur by done.
  unfold interpretResponse. fold R.
  change (seatbid without) with (Some (sbs1 ++ mkSeatBid seatName (pre ++ post) :: sbs2)).
  cbv iota.
  rewrite (forEachSeatbid_cur parseAdmNative R without response _ _ Hcur).
  rewrite forEachSeatbid_app.
  change (forEachSeatbid parseAdmNative R response ?s (?sb :: sbs2))
    with (forEachSeatbid parseAdmNative R response
            (forEachBid parseAdmNative R response (seat sb) s (bid sb)) sbs2).
  simpl seat. simpl bid. rewrite forEachBid_app.
  change (initialState store without request) with (initialState store response request).
  apply forEachSeatbid_sameView, forEachBid_sameView, processBid_unmatched_sameView;
    [|done|done].
  by apply matchRequest_none.
Qed.

(** ** What an unmatched bid leaves to the other bids *)

Section UnmatchedBidClaim.

Variable parseAdmNative : string → option NativeData.





End UnmatchedBidClaim.



(** * Further properties of the adapter *)

(** ** Matching server bids to bid requests *)

Lemma head_filter_first {A : Type} (P : A → Prop) `{∀ x, Decision (P x)}
    (l : list A) (x : A) :
  head (filter P l) = Some x ↔
  ∃ pre post, l = pre ++ x :: post ∧ P x ∧ Forall (fun y => ¬ P y) pre.
Proof.
  induction l as [|y l IH].
  - split; [discriminate|]. intros (pre & post & Hl & _). by destruct pre.
  - rewrite filter_cons. destruct (decide (P y)) as [Hy|Hy].
    + simpl. split.
      * intros [= <-]. exists [], l. by repeat split.
      * intros (pre & post & Hl & Hx & Hpre). destruct pre as [|z pre].
        -- by simplify_eq/=.
        -- simplify_eq/=. apply Forall_cons in Hpre as [Hz _]. contradiction.
    + rewrite IH. split.
      * intros (pre & post & -> & Hx & Hpre). exists (y :: pre), post.
        repeat split; [done|]. by constructor.
      * intros (pre & post & Hl & Hx & Hpre). destruct pre as [|z pre].
        -- simplify_eq/=. contradiction.
        -- simplify_eq/=. apply Forall_cons in Hpre as [_ Hpre].
           by exists pre, post.
Qed.

(** The request found for an [impid] is the first bid request, in the order
    of the auction, whose recomputed id equals it; nothing else is ever
    found. *)
Theorem matchRequest_is_first_match (R : BidderRequest) (i : option string)
    (br : BidRequest) :
  matchRequest R i = Some br ↔
  ∃ pre post, bids R = pre ++ br :: post ∧ Some (currentBidId br) = i ∧
              Forall (fun r => Some (currentBidId r) ≠ i) pre.
Proof.
  unfold matchRequest.
  apply (head_filter_first (fun b => Some (currentBidId b) = i)).
Qed.

Lemma matchRequest_is_first_match_witness :
  ∃ pre post, bids Ex.auction = pre ++ Ex.slot011 :: post ∧
              Some (currentBidId Ex.slot011) = Some "011" ∧
              Forall (fun r => Some (currentBidId r) ≠ Some "011") pre.
Proof.
  apply (proj1 (matchRequest_is_first_match Ex.auction (Some "011") Ex.slot011)).
  reflexivity.
Defined.

Lemma head_filter_unique {A : Type} (P : A → Prop) `{∀ x, Decision (P x)}
    (l : list A) (x : A) :
  x ∈ l → P x → (∀ y, y ∈ l → P y → y = x) → head (filter P l) = Some x.
Proof.
  intros Hin Hx Huniq. induction l as [|y l IH]; [by apply elem_of_nil in Hin|].
  rewrite filter_cons. destruct (decide (P y)) as [Hy|Hy].
  - simpl. f_equal. apply Huniq; [apply list_elem_of_here | done].
  - apply elem_of_cons in Hin as [->|Hin]; [contradiction|].
    apply IH; [done|]. intros z Hz. apply Huniq. by apply list_elem_of_further.
Qed.

(** Round trip of the impression id.  A server bid that echoes the id the
    builder sent for a bid request is matched to that very request, provided
    the parser recomputes the same id for it and for no other request of the
    auction. *)
Theorem sent_id_finds_its_request (R : BidderRequest) (b : BidRequest) :
  b ∈ bids R →
  currentBidId b = imp_id b →
  (∀ r, r ∈ bids R → currentBidId r = currentBidId b → r = b) →
  matchRequest R (Some (imp_id b)) = Some b.
Proof.
  intros Hin Hsame Huniq. unfold matchRequest.
  apply (head_filter_unique (fun r => Some (currentBidId r) = Some (imp_id b)));
    [done | by rewrite Hsame|].
  intros r Hr [= Heq]. apply Huniq; [done | by rewrite Hsame].
Qed.

Lemma sent_id_finds_its_request_witness :
  matchRequest Ex.auction (Some (imp_id Ex.slot011)) = Some Ex.slot011.
Proof.
  apply sent_id_finds_its_request.
  - apply list_elem_of_further, list_elem_of_here.
  - reflexivity.
  - intros r Hr Heq.
    apply elem_of_cons in Hr as [->|Hr]; [discriminate|].
    apply elem_of_cons in Hr as [->|Hr]; [reflexivity|].
    by apply elem_of_nil in Hr.
Defined.

Lemma fallback_id_inj (a b : string) : "bidid-" +:+ a = "bidid-" +:+ b → a = b.
Proof. intros H. by simplify_eq/=. Qed.

Lemma oneCode_ids (b : BidRequest) :
  params b = None →
  imp_id b = "bidid-" +:+ bidId b ∧ currentBidId b = "bidid-" +:+ bidId b.
Proof. intros H. unfold imp_id, currentBidId, impParams, unpackParams. by rewrite H. Qed.

(** In an auction of OneCode slots (no params) with pairwise distinct bid
    ids, every slot is found again from the id sent for it. *)
Theorem oneCode_round_trip (R : BidderRequest) (b : BidRequest) :
  (∀ r, r ∈ bids R → params r = None) →
  NoDup (bidId <$> bids R) →
  b ∈ bids R →
  matchRequest R (Some (imp_id b)) = Some b.
Proof.
  intros Hone Hnd Hin.
  destruct (oneCode_ids b (Hone b Hin)) as [Hi Hc].
  unfold matchRequest.
  apply (head_filter_unique (fun r => Some (currentBidId r) = Some (imp_id b)));
    [done | by rewrite Hi, Hc|].
  intros r Hr [= Heq].
  destruct (oneCode_ids r (Hone r Hr)) as [_ Hcr].
  rewrite Hcr, Hi in Heq. apply fallback_id_inj in Heq.
  clear -Hnd Hin Hr Heq. induction (bids R) as [|y l IH]; [by apply elem_of_nil in Hin|].
  rewrite fmap_cons in Hnd. apply NoDup_cons in Hnd as [Hy Hnd].
  apply elem_of_cons in Hin as [->|Hin]; apply elem_of_cons in Hr as [->|Hr].
  - done.
  - exfalso. apply Hy. rewrite <- Heq. by apply list_elem_of_fmap_2.
  - exfalso. apply Hy. rewrite Heq. by apply list_elem_of_fmap_2.
  - by apply IH.
Qed.

Lemma oneCode_round_trip_witness :
  matchRequest Ex2.oneCodeAuction (Some (imp_id Ex2.oneCodeB)) = Some Ex2.oneCodeB.
Proof.
  apply oneCode_round_trip.
  - intros r Hr.
    apply elem_of_cons in Hr as [->|Hr]; [reflexivity|].
    apply elem_of_cons in Hr as [->|Hr]; [reflexivity|].
    by apply elem_of_nil in Hr.
  - apply (bool_decide_unpack _). vm_compute. exact I.
  - apply list_elem_of_further, list_elem_of_here.
Defined.

(** ** What [interpretResponse] returns and stores *)

Section ReturnedBids.

Variable parseAdmNative : string → option NativeData.
Variable R : BidderRequest.
Variable response : ServerResponse.

Lemma processBid_push (seatName : option string) (st : IRState) (b : ServerBid) :
  st_bids (processBid parseAdmNative R response seatName st b) = st_bids st ∨
  ∃ x, st_bids (processBid parseAdmNative R response seatName st b) = st_bids st ++ [x] ∧
       emittedBy parseAdmNative R response seatName b x.
Proof.
  unfold processBid.
  destruct (matchRequest R (impid b)) as [br|] eqn:Em; [|by left].
  destruct (siteResolved _); [|by left].
  destruct (cpmPositive _) eqn:E; [|by left].
  right. eexists. split; [reflexivity|].
  exists (st_site st), br. by rewrite Em.
Qed.

Lemma forEachBid_emitted (seatName : option string) (l : list ServerBid) (st : IRState) :
  ∃ more, st_bids (forEachBid parseAdmNative R response seatName st l)
            = st_bids st ++ more ∧
          Forall (fun x => ∃ sb, sb ∈ l ∧ emittedBy parseAdmNative R response seatName sb x) more ∧
          (length more ≤ length l)%nat.
Proof.
  revert st. induction l as [|b l IH]; intros st.
  - exists []. split; [by rewrite app_nil_r|]. split; [constructor | done].
  - change (forEachBid parseAdmNative R response seatName st (b :: l))
      with (forEachBid parseAdmNative R response seatName
              (processBid parseAdmNative R response seatName st b) l).
    destruct (IH (processBid parseAdmNative R response seatName st b))
      as (more & Hm & Hall & Hlen).
    assert (Forall (fun x => ∃ sb, sb ∈ b :: l ∧ emittedBy parseAdmNative R response seatName sb x) more) as Hall'.
    { eapply Forall_impl; [exact Hall|]. intros x (sb & Hsb & Hx).
      exists sb. split; [by apply list_elem_of_further | done]. }
    destruct (processBid_push seatName st b) as [Hb|(x & Hb & Hx)].
    + exists more. rewrite Hm, Hb. split; [done|]. split; [done | simpl; lia].
    + exists (x :: more). rewrite Hm, Hb, <- app_assoc. split; [done|]. split.
      * constructor; [|done]. exists b. split; [apply list_elem_of_here | done].
      * simpl. lia.
Qed.

Lemma forEachSeatbid_emitted (l : list SeatBid) (st : IRState) :
  ∃ more, st_bids (forEachSeatbid parseAdmNative R response st l)
            = st_bids st ++ more ∧
          Forall (fun x => ∃ seatName sb, sb ∈ concat (bid <$> l) ∧
                                          emittedBy parseAdmNative R response seatName sb x) more ∧
          (length more ≤ length (concat (bid <$> l)))%nat.
Proof.
  revert st. induction l as [|s l IH]; intros st.
  - exists []. split; [by rewrite app_nil_r|]. split; [constructor | done].
  - change (forEachSeatbid parseAdmNative R response st (s :: l))
      with (forEachSeatbid parseAdmNative R response
              (forEachBid parseAdmNative R response (seat s) st (bid s)) l).
    destruct (IH (forEachBid parseAdmNative R response (seat s) st (bid s)))
      as (more2 & Hm2 & Hall2 & Hlen2).
    destruct (forEachBid_emitted (seat s) (bid s) st) as (more1 & Hm1 & Hall1 & Hlen1).
    exists (more1 ++ more2). rewrite Hm2, Hm1, <- app_assoc. split; [done|].
    rewrite fmap_cons, concat_cons. split.
    + apply Forall_app. split.
      * eapply Forall_impl; [exact Hall1|]. intros x (sb & Hsb & Hx).
        exists (seat s), sb. split; [|done]. apply elem_of_app. by left.
      * eapply Forall_impl; [exact Hall2|]. intros x (sn' & sb & Hsb & Hx).
        exists sn', sb. split; [|done]. apply elem_of_app. by right.
    + rewrite !length_app. lia.
Qed.

End ReturnedBids.

(** Every returned bid comes from a server bid of the response through
    [buildBid], for the request that server bid was matched to. *)
Lemma interpretResponse_emitted (parseAdmNative : string → option NativeData)
    (store : gmap string (option string * option string))
    (response : ServerResponse) (request : Request) (x : Bid) :
  x ∈ st_bids (interpretResponse parseAdmNative store response request) →
  ∃ seatName sb, sb ∈ allServerBids response ∧
                 emittedBy parseAdmNative (bidderRequest request) response seatName sb x.
Proof.
  unfold interpretResponse, allServerBids. intros Hx.
  destruct (seatbid response) as [sbs|]; [|by apply elem_of_nil in Hx].
  destruct (forEachSeatbid_emitted parseAdmNative (bidderRequest request) response
              sbs (initialState store response request)) as (more & Hm & Hall & _).
  rewrite Hm in Hx. simpl in Hx. rewrite Forall_forall in Hall. by apply Hall.
Qed.

Lemma buildBid_requestId (parseAdmNative : string → option NativeData)
    (R : BidderRequest) (response : ServerResponse) (seatName : option string)
    (site : Site) (br : BidRequest) (sb : ServerBid) :
  requestId (buildBid parseAdmNative R response seatName site br sb) = bidId br.
Proof. unfold buildBid. repeat case_match; reflexivity. Qed.

Lemma buildBid_positive_cpm (parseAdmNative : string → option NativeData)
    (R : BidderRequest) (response : ServerResponse) (seatName : option string)
    (site : Site) (br : BidRequest) (sb : ServerBid) :
  cpmPositive (cpm (buildBid parseAdmNative R response seatName site br sb)) = true →
  cpm (buildBid parseAdmNative R response seatName site br sb) = price sb.
Proof.
  intros H.
  destruct (buildBid_cpm parseAdmNative R response seatName site br sb) as [E|E];
    [done|].
  rewrite E in H. discriminate.
Qed.

(** Attribution.  Each returned bid carries the bid id of a bid request of
    the auction and the price of a server bid of the response whose [impid]
    is the id recomputed for that request; and no more bids are returned than
    the response holds. *)
Theorem returned_bids_are_attributed (parseAdmNative : string → option NativeData)
    (store : gmap string (option string * option string))
    (response : ServerResponse) (request : Request) :
  (∀ x, x ∈ st_bids (interpretResponse parseAdmNative store response request) →
        ∃ br sb, br ∈ bids (bidderRequest request) ∧
                 sb ∈ allServerBids response ∧
                 Some (currentBidId br) = impid sb ∧
                 requestId x = bidId br ∧
                 cpm x = price sb) ∧
  (length (st_bids (interpretResponse parseAdmNative store response request))
     ≤ length (allServerBids response))%nat.
Proof.
  split.
  - intros x Hx.
    destruct (interpretResponse_emitted _ _ _ _ _ Hx)
      as (seatName & sb & Hsb & site & br & Hm & -> & Hpos).
    exists br, sb.
    pose proof Hm as Hm'. unfold matchRequest in Hm'.
    apply head_Some_elem_of, list_elem_of_filter in Hm' as [Hid Hin].
    repeat split; try done.
    + apply buildBid_requestId.
    + by apply buildBid_positive_cpm.
  - unfold interpretResponse, allServerBids.
    destruct (seatbid response) as [sbs|]; [|done].
    destruct (forEachSeatbid_emitted parseAdmNative (bidderRequest request) response
                sbs (initialState store response request)) as (more & Hm & _ & Hlen).
    rewrite Hm. simpl. done.
Qed.

Lemma buildBid_shape (parseAdmNative : string → option NativeData)
    (R : BidderRequest) (response : ServerResponse) (seatName : option string)
    (site : Site) (br : BidRequest) (sb : ServerBid) :
  let x := buildBid parseAdmNative R response seatName site br sb in
  cpmPositive (cpm x) = true →
  (mediaType x = Some "video" ∧ isVideoAd sb = true ∧
   vastXml x = adm sb ∧ vastContent x = adm sb ∧ native x = None ∧ ad x = None) ∨
  (mediaType x = Some "native" ∧ isVideoAd sb = false ∧ isNativeAd sb = true ∧
   width x = Some 1%N ∧ height x = Some 1%N ∧
   native x = tryParseNative parseAdmNative sb (adUnitCode br) ∧ is_Some (native x) ∧
   ad x = None ∧ vastXml x = None) ∨
  (mediaType x = Some "banner" ∧ isVideoAd sb = false ∧ isNativeAd sb = false ∧
   ad x = adm sb ∧ native x = None ∧ vastXml x = None).
Proof.
  cbv zeta. unfold buildBid.
  destruct (isVideoAd sb); [intros _; left; by repeat split|].
  destruct (isNativeAd sb); [|intros _; right; right; by repeat split].
  destruct (tryParseNative parseAdmNative sb (adUnitCode br)) as [n|]; simpl.
  - intros _. right. left. by repeat split.
  - discriminate.
Qed.

(** Media payload.  A returned bid is a video bid carrying the markup as
    VAST, or a native bid with a parsed native object and size 1x1, or a
    banner bid carrying the markup as [ad]; a native bid without a parsed
    object is never returned. *)
Theorem returned_bids_have_their_payload
    (parseAdmNative : string → option NativeData)
    (store : gmap string (option string * option string))
    (response : ServerResponse) (request : Request) (x : Bid) :
  x ∈ st_bids (interpretResponse parseAdmNative store response request) →
  ∃ sb, sb ∈ allServerBids response ∧
    ((mediaType x = Some "video" ∧ isVideoAd sb = true ∧
      vastXml x = adm sb ∧ vastContent x = adm sb ∧ native x = None ∧ ad x = None) ∨
     (mediaType x = Some "native" ∧ isVideoAd sb = false ∧ isNativeAd sb = true ∧
      width x = Some 1%N ∧ height x = Some 1%N ∧ is_Some (native x) ∧
      ad x = None ∧ vastXml x = None) ∨
     (mediaType x = Some "banner" ∧ isVideoAd sb = false ∧ isNativeAd sb = false ∧
      ad x = adm sb ∧ native x = None ∧ vastXml x = None)).
Proof.
  intros Hx.
  destruct (interpretResponse_emitted _ _ _ _ _ Hx)
    as (seatName & sb & Hsb & site & br & Hm & -> & Hpos).
  exists sb. split; [done|].
  destruct (buildBid_shape parseAdmNative (bidderRequest request) response seatName
              site br sb Hpos) as [H|[H|H]].
  - by left.
  - right. left. destruct H as (?&?&?&?&?&?&?&?&?). by repeat split.
  - by right; right.
Qed.

Lemma returned_bids_are_attributed_witness :
  ∃ x, x ∈ st_bids (interpretResponse Ex.noParse Ex.emptyStore Ex.strayResponse
                      Ex.plainRequest) ∧
       ∃ br sb, br ∈ bids (bidderRequest Ex.plainRequest) ∧
                sb ∈ allServerBids Ex.strayResponse ∧
                Some (currentBidId br) = impid sb ∧
                requestId x = bidId br ∧
                cpm x = price sb.
Proof.
  eexists. split; [vm_compute; apply list_elem_of_here|].
  apply (proj1 (returned_bids_are_attributed Ex.noParse Ex.emptyStore Ex.strayResponse
                  Ex.plainRequest)).
  vm_compute. apply list_elem_of_here.
Defined.

Lemma returned_bids_have_their_payload_witness :
  ∃ x sb, sb ∈ allServerBids Ex.strayResponse ∧
          mediaType x = Some "banner" ∧ ad x = adm sb.
Proof.
  eassert (∃ x, x ∈ st_bids (interpretResponse Ex.noParse Ex.emptyStore
                               Ex.strayResponse Ex.plainRequest)) as [x Hx].
  { eexists. vm_compute. apply list_elem_of_here. }
  destruct (returned_bids_have_their_payload Ex.noParse Ex.emptyStore
              Ex.strayResponse Ex.plainRequest x Hx) as (sb & Hsb & Hshape).
  exists x, sb. split; [exact Hsb|].
  destruct Hshape as [(_ & Hv & _)|[(_ & _ & Hn & _)|(Hm & _ & _ & Ha & _)]].
  - exfalso. vm_compute in Hsb.
    repeat (apply elem_of_cons in Hsb as [->|Hsb]; [discriminate|]).
    by apply elem_of_nil in Hsb.
  - exfalso. vm_compute in Hsb.
    repeat (apply elem_of_cons in Hsb as [->|Hsb]; [discriminate|]).
    by apply elem_of_nil in Hsb.
  - by split.
Defined.

(** ** The correlation store *)

Section StoreInvariants.

Variable parseAdmNative : string → option NativeData.
Variable R : BidderRequest.
Variable response : ServerResponse.

(** A property of the loop state kept by every bid is kept by the loops. *)
Lemma forEachSeatbid_preserves (P : IRState → Prop) :
  (∀ seatName st b, P st → P (processBid parseAdmNative R response seatName st b)) →
  ∀ l st, P st → P (forEachSeatbid parseAdmNative R response st l).
Proof.
  intros Hstep.
  assert (∀ seatName l st, P st → P (forEachBid parseAdmNative R response seatName st l))
    as Hbids.
  { intros seatName l. induction l as [|b l IH]; intros st Hst; [done|].
    apply IH. by apply Hstep. }
  intros l. induction l as [|s l IH]; intros st Hst; [done|].
  apply IH. by apply Hbids.
Qed.

Lemma siteResolved_usable (s : Site) (slot : option string) :
  siteResolved s = true → usableEntry (Some (site_id s, slot)).
Proof.
  unfold siteResolved. destruct (site_id s) as [i|]; [|discriminate].
  intros [Ht Hinc]%andb_true_iff. exists i, slot.
  split; [done|]. split; [by apply truthy_Some | by apply negb_true_iff].
Qed.

Lemma processBid_usable (seatName : option string) (st : IRState) (b : ServerBid) :
  (∀ x, x ∈ st_bids st → usableEntry (oneCodeDetection st !! requestId x)) →
  ∀ x, x ∈ st_bids (processBid parseAdmNative R response seatName st b) →
       usableEntry
         (oneCodeDetection (processBid parseAdmNative R response seatName st b)
            !! requestId x).
Proof.
  intros Hinv x. unfold processBid.
  destruct (matchRequest R (impid b)) as [br|]; [|by apply Hinv].
  destruct (siteResolved _) eqn:Es; [|by apply Hinv].
  assert (∀ y, (y ∈ st_bids st ∨ requestId y = bidId br) →
               usableEntry
                 (<[bidId br := (resolvedSiteId (st_site st) b,
                                 resolvedSlotId (st_site st) b)]>
                    (oneCodeDetection st) !! requestId y)) as Hkey.
  { intros y Hy. destruct (decide (requestId y = bidId br)) as [->|Hne].
    - rewrite lookup_insert_eq.
      by apply (siteResolved_usable _ _ Es).
    - rewrite lookup_insert_ne by done.
      destruct Hy as [Hy|Hy]; [by apply Hinv | done]. }
  destruct (cpmPositive _); simpl; intros Hx.
  - apply Hkey. apply elem_of_app in Hx as [Hx|Hx]; [by left|].
    apply list_elem_of_singleton in Hx as ->. right. apply buildBid_requestId.
  - apply Hkey. by left.
Qed.

Lemma processBid_keeps_keys (seatName : option string) (st : IRState) (b : ServerBid)
    (k : string) :
  (is_Some (oneCodeDetection st !! k) →
   is_Some (oneCodeDetection (processBid parseAdmNative R response seatName st b) !! k)) ∧
  ((∀ br, br ∈ bids R → bidId br ≠ k) →
   oneCodeDetection (processBid parseAdmNative R response seatName st b) !! k
     = oneCodeDetection st !! k).
Proof.
  unfold processBid.
  destruct (matchRequest R (impid b)) as [br|] eqn:Em; [|done].
  destruct (siteResolved _); [|done].
  assert (br ∈ bids R) as Hin.
  { unfold matchRequest in Em.
    by apply head_Some_elem_of, list_elem_of_filter in Em as [_ ?]. }
  split.
  - intros Hk. destruct (cpmPositive _); simpl;
      (destruct (decide (bidId br = k)) as [->|Hne];
       [by rewrite lookup_insert_eq | by rewrite lookup_insert_ne]).
  - intros Hno. specialize (Hno br Hin).
    destruct (cpmPositive _); simpl; by rewrite lookup_insert_ne.
Qed.

End StoreInvariants.

Lemma interpretResponse_usable
    (parseAdmNative : string → option NativeData)
    (store : gmap string (option string * option string))
    (response : ServerResponse) (request : Request) (x : Bid) :
  x ∈ st_bids (interpretResponse parseAdmNative store response request) →
  usableEntry
    (oneCodeDetection (interpretResponse parseAdmNative store response request)
       !! requestId x).
Proof.
  revert x. unfold interpretResponse.
  destruct (seatbid response) as [sbs|].
  - apply (forEachSeatbid_preserves parseAdmNative (bidderRequest request) response
             (fun st => ∀ x, x ∈ st_bids st →
                             usableEntry (oneCodeDetection st !! requestId x))).
    + intros seatName st b Hst. by apply processBid_usable.
    + intros x Hx. by apply elem_of_nil in Hx.
  - intros x Hx. by apply elem_of_nil in Hx.
Qed.

(** Every bid returned by [interpretResponse] has, under its request id, a
    store entry whose site id is non-empty and is no placeholder, whatever
    the store held before. *)
Theorem returned_bid_has_usable_entry
    (parseAdmNative : string → option NativeData)
    (store : gmap string (option string * option string))
    (response : ServerResponse) (request : Request) (x : Bid) :
  x ∈ st_bids (interpretResponse parseAdmNative store response request) →
  ∃ s slot,
    oneCodeDetection (interpretResponse parseAdmNative store response request)
      !! requestId x = Some (Some s, slot) ∧
    s ≠ "" ∧ JS.includes s "bidid" = false.
Proof. apply interpretResponse_usable. Qed.

Lemma returned_bid_has_usable_entry_witness :
  ∃ x, x ∈ st_bids (interpretResponse Ex.noParse Ex.emptyStore Ex.carriedResponse
                      Ex.placeholderRequest) ∧
       ∃ s slot,
         oneCodeDetection (interpretResponse Ex.noParse Ex.emptyStore
                             Ex.carriedResponse Ex.placeholderRequest)
           !! requestId x = Some (Some s, slot) ∧
         s ≠ "" ∧ JS.includes s "bidid" = false.
Proof.
  eexists. split; [vm_compute; apply list_elem_of_here|].
  apply returned_bid_has_usable_entry. vm_compute. apply list_elem_of_here.
Defined.

(** The store only grows: an entry present before the call is still present
    after it, and a key that is the bid id of no request of the auction keeps
    its entry unchanged; without [seatbid] nothing is returned and the store
    is left as it was. *)
Theorem store_entries_are_kept
    (parseAdmNative : string → option NativeData)
    (store : gmap string (option string * option string))
    (response : ServerResponse) (request : Request) (k : string) :
  (is_Some (store !! k) →
   is_Some (oneCodeDetection
              (interpretResponse parseAdmNative store response request) !! k)) ∧
  ((∀ br, br ∈ bids (bidderRequest request) → bidId br ≠ k) →
   oneCodeDetection (interpretResponse parseAdmNative store response request) !! k
     = store !! k) ∧
  (seatbid response = None →
   st_bids (interpretResponse parseAdmNative store response request) = [] ∧
   oneCodeDetection (interpretResponse parseAdmNative store response request) = store).
Proof.
  split; [|split].
  - intros Hk. unfold interpretResponse. destruct (seatbid response) as [sbs|]; [|done].
    apply (forEachSeatbid_preserves parseAdmNative (bidderRequest request) response
             (fun st => is_Some (oneCodeDetection st !! k))); [|done].
    intros seatName st b. apply processBid_keeps_keys.
  - intros Hno. unfold interpretResponse. destruct (seatbid response) as [sbs|]; [|done].
    apply (forEachSeatbid_preserves parseAdmNative (bidderRequest request) response
             (fun st => oneCodeDetection st !! k = store !! k)); [|done].
    intros seatName st b Hst. rewrite <- Hst. by apply processBid_keeps_keys.
  - intros Hnone. unfold interpretResponse. by rewrite Hnone.
Qed.

Lemma store_entries_are_kept_witness :
  is_Some (oneCodeDetection
             (interpretResponse Ex.noParse
                (<["old-bid" := (Some "8816", Some "010")]> Ex.emptyStore)
                Ex.carriedResponse Ex.placeholderRequest) !! "old-bid") ∧
  oneCodeDetection
    (interpretResponse Ex.noParse
       (<["old-bid" := (Some "8816", Some "010")]> Ex.emptyStore)
       Ex.carriedResponse Ex.placeholderRequest) !! "old-bid"
  = (<["old-bid" := (Some "8816", Some "010")]> Ex.emptyStore) !! "old-bid".
Proof.
  pose proof (store_entries_are_kept Ex.noParse
                (<["old-bid" := (Some "8816", Some "010")]> Ex.emptyStore)
                Ex.carriedResponse Ex.placeholderRequest "old-bid") as (Hkeep & Hframe & _).
  split.
  - apply Hkeep. rewrite lookup_insert_eq. by eexists.
  - apply Hframe. intros br Hbr.
    apply elem_of_cons in Hbr as [->|Hbr]; [discriminate|].
    apply elem_of_cons in Hbr as [->|Hbr]; [discriminate|].
    by apply elem_of_nil in Hbr.
Defined.

(** ** Native assets: precedence and composition *)

Lemma getNativeAssetType_small (i : Z) :
  (i ≤ 10)%Z →
  getNativeAssetType (Some i) =
    if decide (i = 0)%Z then Some "title"
    else if decide (i = 1)%Z then Some "cta"
    else if decide (i = 2)%Z then Some "icon"
    else if decide (i = 3)%Z then Some "image"
    else if decide (i = 4)%Z then Some "body"
    else if decide (i = 5)%Z then Some "sponsoredBy"
    else None.
Proof.
  intros Hi. unfold getNativeAssetType, getNativeAssetTypeIn, nativeAssetMap.
  assert ((10 <? i)%Z = false) as -> by (apply Z.ltb_ge; lia).
  simpl. repeat case_bool_decide; repeat case_decide; simplify_eq/=; done.
Qed.

Lemma getNativeAssetType_image (i : Z) :
  getNativeAssetType (Some i) = Some "image" ↔ (i = 3 ∨ 10 < i)%Z.
Proof.
  destruct (Z.le_gt_cases i 10) as [Hle|Hgt].
  - rewrite getNativeAssetType_small by done.
    repeat case_decide; split; intros Hx; simplify_eq/=; try done; try lia; by left.
  - split; [intros _; right; lia|]. intros _.
    unfold getNativeAssetType, getNativeAssetTypeIn.
    by assert ((10 <? i)%Z = true) as -> by (apply Z.ltb_lt; lia).
Qed.

(** One asset fills at most one of [image] and [icon], at most one of
    [sponsoredBy], [body] and [cta], and never touches the click url or the
    trackers. *)
Theorem asset_fills_at_most_one_slot (r : NativeResult) (a : Asset) :
  (nr_image (applyAsset r a) = nr_image r ∨ nr_icon (applyAsset r a) = nr_icon r) ∧
  ((nr_sponsoredBy (applyAsset r a) = nr_sponsoredBy r ∧
    nr_body (applyAsset r a) = nr_body r) ∨
   (nr_sponsoredBy (applyAsset r a) = nr_sponsoredBy r ∧
    nr_cta (applyAsset r a) = nr_cta r) ∨
   (nr_body (applyAsset r a) = nr_body r ∧ nr_cta (applyAsset r a) = nr_cta r)) ∧
  clickUrl (applyAsset r a) = clickUrl r ∧
  clickTrackers (applyAsset r a) = clickTrackers r ∧
  impressionTrackers (applyAsset r a) = impressionTrackers r ∧
  javascriptTrackers (applyAsset r a) = javascriptTrackers r.
Proof.
  unfold applyAsset, applyData, applyImg, applyTitle.
  repeat case_match; simpl; repeat split; auto.
Qed.

(** Image against icon.  An asset with an image url lands in [image] as
    soon as its image is marked 3 or its id is 3 or above 10, whatever else
    it says (an icon mark included); it lands in [icon] when it is marked 1
    or has id 2, and is no image by the former rule. *)
Theorem image_takes_precedence_over_icon (r : NativeResult) (a : Asset)
    (img : Img) (i : Z) (url : string) :
  asset_img a = Some img → asset_id a = Some i →
  img_url img = Some url → url ≠ "" →
  ((img_type img = Some 3%Z ∨ i = 3 ∨ 10 < i)%Z →
   nr_image (applyAsset r a) = Some (mkNativeImage url (img_w img) (img_h img)) ∧
   nr_icon (applyAsset r a) = nr_icon r) ∧
  (img_type img ≠ Some 3%Z → (i ≠ 3 ∧ i ≤ 10)%Z →
   (img_type img = Some 1%Z ∨ i = 2)%Z →
   nr_icon (applyAsset r a) = Some (mkNativeImage url (img_w img) (img_h img)) ∧
   nr_image (applyAsset r a) = nr_image r).
Proof.
  intros Himg Hid Hurl Hne. apply truthy_Some in Hne.
  pose proof (applyData_keeps_images (getNativeAssetType (Some i))
                (applyImg (getNativeAssetType (Some i))
                   (applyTitle r (default emptyTitle (asset_title a))) img)
                (default emptyData (asset_data a))) as [Hki Hkc].
  pose proof (applyTitle_keeps r (default emptyTitle (asset_title a)))
    as [[Hti Htc] _].
  unfold applyAsset. rewrite Himg, Hid. simpl default. rewrite Hki, Hkc.
  unfold applyImg. rewrite Hurl, Hne.
  split.
  - intros Hcase.
    assert (isCode (img_type img) 3 || isType (getNativeAssetType (Some i)) "image"
            = true) as ->.
    { apply orb_true_iff. destruct Hcase as [H3|Hi].
      - left. by apply bool_decide_eq_true.
      - right. apply bool_decide_eq_true. by apply getNativeAssetType_image. }
    by simpl.
  - intros Hn3 [Hi3 Hi10] Hcase.
    assert (isCode (img_type img) 3 || isType (getNativeAssetType (Some i)) "image"
            = false) as ->.
    { apply orb_false_iff. split; apply bool_decide_eq_false; [done|].
      intros H. apply getNativeAssetType_image in H. lia. }
    assert (isCode (img_type img) 1 || isType (getNativeAssetType (Some i)) "icon"
            = true) as ->.
    { apply orb_true_iff. destruct Hcase as [H1| ->].
      - left. by apply bool_decide_eq_true.
      - right. by apply bool_decide_eq_true. }
    by simpl.
Qed.

Lemma image_takes_precedence_over_icon_witness :
  nr_image (applyAsset Ex.emptyNative Ex2.imageMarkedIcon)
    = Some (mkNativeImage "https://img.example/b.png" (Some 1200%N) (Some 627%N)) ∧
  nr_icon (applyAsset Ex.emptyNative Ex2.imageMarkedIcon) = None.
Proof.
  eapply (proj1 (image_takes_precedence_over_icon Ex.emptyNative Ex2.imageMarkedIcon
                   _ 3 "https://img.example/b.png" eq_refl eq_refl eq_refl _)).
  Unshelve. 2: discriminate. right. left. reflexivity.
Defined.

(** Sponsor, body, call-to-action.  A data value is [sponsoredBy] when it
    is marked 1 or its asset has id 5; otherwise [body] when marked 2 or with
    id 4; otherwise [cta] when marked 12 or with id 1.  So a mark of 2 on an
    asset with id 1 gives a body text. *)
Theorem data_roles_by_precedence (r : NativeResult) (a : Asset)
    (d : Data) (i : Z) (v : string) :
  asset_data a = Some d → asset_id a = Some i →
  data_value d = Some v → v ≠ "" →
  ((data_type d = Some 1%Z ∨ i = 5)%Z →
   nr_sponsoredBy (applyAsset r a) = Some v) ∧
  (data_type d ≠ Some 1%Z → i ≠ 5%Z → (data_type d = Some 2%Z ∨ i = 4)%Z →
   nr_body (applyAsset r a) = Some v ∧
   nr_sponsoredBy (applyAsset r a) = nr_sponsoredBy r) ∧
  (data_type d ≠ Some 1%Z → i ≠ 5%Z → data_type d ≠ Some 2%Z → i ≠ 4%Z →
   (data_type d = Some 12%Z ∨ i = 1)%Z →
   nr_cta (applyAsset r a) = Some v ∧ nr_body (applyAsset r a) = nr_body r ∧
   nr_sponsoredBy (applyAsset r a) = nr_sponsoredBy r).
Proof.
  intros Hd Hid Hv Hne. apply truthy_Some in Hne.
  pose proof (applyImg_keeps_texts (getNativeAssetType (Some i))
                (applyTitle r (default emptyTitle (asset_title a)))
                (default emptyImg (asset_img a))) as (Hs & Hb & Hc).
  pose proof (applyTitle_keeps r (default emptyTitle (asset_title a)))
    as [_ (Hs' & Hb' & Hc')].
  rewrite <- Hs', <- Hb', <- Hs, <- Hb.
  unfold applyAsset. rewrite Hd, Hid. simpl default.
  set (r2 := applyImg _ _ _). clearbody r2.
  unfold applyData. rewrite Hv, Hne.
  assert ((10 < i)%Z → getNativeAssetType (Some i) = Some "image") as Hbig.
  { intros H. apply getNativeAssetType_image. by right. }
  split; [|split].
  - intros Hcase.
    assert (isCode (data_type d) 1 || isType (getNativeAssetType (Some i)) "sponsoredBy"
            = true) as ->; [|done].
    apply orb_true_iff. destruct Hcase as [H| ->].
    + left. by apply bool_decide_eq_true.
    + right. by apply bool_decide_eq_true.
  - intros Hn1 Hn5 Hcase.
    assert (isCode (data_type d) 1 || isType (getNativeAssetType (Some i)) "sponsoredBy"
            = false) as ->.
    { apply orb_false_iff. split; apply bool_decide_eq_false; [done|].
      intros H. destruct (Z.le_gt_cases i 10) as [Hle|Hgt].
      - rewrite getNativeAssetType_small in H by done.
        repeat case_decide; simplify_eq/=.
      - rewrite Hbig in H by lia. discriminate. }
    assert (isCode (data_type d) 2 || isType (getNativeAssetType (Some i)) "body"
            = true) as ->; [|done].
    apply orb_true_iff. destruct Hcase as [H| ->].
    + left. by apply bool_decide_eq_true.
    + right. by apply bool_decide_eq_true.
  - intros Hn1 Hn5 Hn2 Hn4 Hcase.
    assert (isCode (data_type d) 1 || isType (getNativeAssetType (Some i)) "sponsoredBy"
            = false) as ->.
    { apply orb_false_iff. split; apply bool_decide_eq_false; [done|].
      intros H. destruct (Z.le_gt_cases i 10) as [Hle|Hgt].
      - rewrite getNativeAssetType_small in H by done.
        repeat case_decide; simplify_eq/=.
      - rewrite Hbig in H by lia. discriminate. }
    assert (isCode (data_type d) 2 || isType (getNativeAssetType (Some i)) "body"
            = false) as ->.
    { apply orb_false_iff. split; apply bool_decide_eq_false; [done|].
      intros H. destruct (Z.le_gt_cases i 10) as [Hle|Hgt].
      - rewrite getNativeAssetType_small in H by done.
        repeat case_decide; simplify_eq/=.
      - rewrite Hbig in H by lia. discriminate. }
    assert (isCode (data_type d) 12 || isType (getNativeAssetType (Some i)) "cta"
            = true) as ->; [|done].
    apply orb_true_iff. destruct Hcase as [H| ->].
    + left. by apply bool_decide_eq_true.
    + right. by apply bool_decide_eq_true.
Qed.

Lemma data_roles_by_precedence_witness :
  nr_body (applyAsset Ex.emptyNative Ex2.ctaMarkedBody) = Some "Read more" ∧
  nr_sponsoredBy (applyAsset Ex.emptyNative Ex2.ctaMarkedBody) = None.
Proof.
  pose proof (data_roles_by_precedence Ex.emptyNative Ex2.ctaMarkedBody
                (mkData (Some 2%Z) (Some "Read more")) 1 "Read more"
                eq_refl eq_refl eq_refl) as H.
  destruct H as (_ & Hbody & _); [discriminate|].
  apply Hbody; [discriminate | lia | by left].
Defined.

Lemma applyAsset_title (r : NativeResult) (a : Asset) :
  nr_title (applyAsset r a) =
    match assetTitle a with
    | Some t => Some t
    | None => nr_title r
    end.
Proof.
  unfold applyAsset, applyData, applyImg, applyTitle, assetTitle.
  repeat case_match; simplify_eq/=; done.
Qed.

Lemma fold_applyAsset_title (l : list Asset) (r : NativeResult) :
  nr_title (fold_left applyAsset l r) =
    match last (omap assetTitle l) with
    | Some t => Some t
    | None => nr_title r
    end.
Proof.
  revert r. induction l as [|a l IH]; intros r; [done|].
  cbn [fold_left]. rewrite IH, applyAsset_title.
  cbn [omap list_omap]. destruct (assetTitle a) as [t|]; [|done].
  rewrite last_cons. by destruct (last (omap assetTitle l)).
Qed.

(** Parsing a native payload succeeds exactly when it has an asset list,
    an empty one included, and raises otherwise; the title of the result is
    the non-empty title text of the last asset that has one. *)
Theorem native_title_is_last_titled_asset (n : NativeData) (adUnit : string) :
  (nd_assets n = None → parseNative n adUnit = None) ∧
  (∀ assets, nd_assets n = Some assets →
     ∃ r, parseNative n adUnit = Some r ∧
          nr_title r = last (omap assetTitle assets)).
Proof.
  split.
  - intros H. unfold parseNative. by rewrite H.
  - intros assets H. unfold parseNative. rewrite H. eexists. split; [reflexivity|].
    rewrite fold_applyAsset_title. by destruct (last (omap assetTitle assets)).
Qed.

Lemma native_title_is_last_titled_asset_witness :
  ∃ r, parseNative Ex2.twoTitles "div-1" = Some r ∧ nr_title r = Some "Second".
Proof.
  destruct (proj2 (native_title_is_last_titled_asset Ex2.twoTitles "div-1")
              _ eq_refl) as (r & Hr & Ht).
  exists r. split; [exact Hr|]. rewrite Ht. reflexivity.
Defined.

(** ** The tracker macro *)

Lemma startsWith_self_app (p s : string) : JS.startsWith p (p +:+ s) = true.
Proof.
  induction p as [|c p IH]; [by destruct s|].
  change ((if Ascii.eqb c c then JS.startsWith p (p +:+ s) else false) = true).
  by rewrite Ascii.eqb_refl.
Qed.

(** A replacement string without dollar sign is inserted as it is. *)
Lemma getSubstitution_plain (matched before after rep : string) :
  JS.includes rep "$" = false → getSubstitution matched before after rep = rep.
Proof.
  induction rep as [|c rest IH]; [done|]. intros H.
  change (JS.startsWith "$" (String c rest) || JS.includes rest "$" = false) in H.
  apply orb_false_iff in H as [Hc Hrest].
  destruct (Ascii.eqb c dollarChar) eqn:E.
  - apply Ascii.eqb_eq in E. subst c. discriminate Hc.
  - cbn [getSubstitution]. rewrite E. f_equal. by apply IH.
Qed.

(** With such a replacement, the part already scanned plays no role. *)
Lemma replaceAllFrom_before (pat rep : string) (s : string) :
  JS.includes rep "$" = false →
  ∀ before before' skip,
    replaceAllFrom pat rep before skip s = replaceAllFrom pat rep before' skip s.
Proof.
  intros Hplain. induction s as [|c s IH]; intros before before' skip; [done|].
  destruct skip as [|k].
  - cbn [replaceAllFrom]. rewrite !getSubstitution_plain by done.
    destruct (JS.startsWith pat (String c s)); f_equal; apply IH.
  - cbn [replaceAllFrom]. apply IH.
Qed.

Lemma replaceAllFrom_skip (pat rep before before' t s : string) :
  JS.includes rep "$" = false →
  replaceAllFrom pat rep before (String.length t) (t +:+ s)
    = replaceAllFrom pat rep before' 0 s.
Proof.
  intros Hplain. revert before. induction t as [|c t IH]; intros before.
  - by apply replaceAllFrom_before.
  - apply (IH (before +:+ String c "")).
Qed.

Lemma replaceAllFrom_absent (pat rep s : string) :
  JS.includes s pat = false → ∀ before, replaceAllFrom pat rep before 0 s = s.
Proof.
  induction s as [|c s IH]; [reflexivity|].
  change (JS.includes (String c s) pat)
    with (JS.startsWith pat (String c s) || JS.includes s pat).
  intros [Hp Hs]%orb_false_iff before.
  cbn [replaceAllFrom]. by rewrite Hp, IH.
Qed.

Lemma replaceAllFrom_head (c : Ascii.ascii) (p rep before before' s : string) :
  JS.includes rep "$" = false →
  replaceAllFrom (String c p) rep before 0 (String c p +:+ s)
  = rep +:+ replaceAllFrom (String c p) rep before' 0 s.
Proof.
  intros Hplain.
  change (String c p +:+ s) with (String c (p +:+ s)).
  cbn [replaceAllFrom].
  change (String c (p +:+ s)) with (String c p +:+ s).
  rewrite startsWith_self_app, getSubstitution_plain by done.
  f_equal.
  change (String.length (String c p) - 1) with (String.length p - 0).
  rewrite Nat.sub_0_r. by apply replaceAllFrom_skip.
Qed.

Lemma replaceAllFrom_copy (pat rep before before' : string) (c : Ascii.ascii)
    (s : string) :
  JS.includes rep "$" = false →
  JS.startsWith pat (String c s) = false →
  replaceAllFrom pat rep before 0 (String c s)
    = String c (replaceAllFrom pat rep before' 0 s).
Proof.
  intros Hplain H. cbn [replaceAllFrom]. rewrite H. f_equal.
  by apply replaceAllFrom_before.
Qed.

(** The macro replacement of the JS trackers, left to right.  A tracker
    without the macro is passed on as it is, whatever the ad-unit code.  For
    an ad-unit code without dollar sign, a macro at the head is replaced by
    the ad-unit code and the scan continues after it, and any other first
    character is copied. *)
Theorem macro_is_replaced_left_to_right (adUnit : string) :
  JS.includes adUnit "$" = false →
  (∀ adUnit' s, JS.includes s "%native_dom_id%" = false → macroReplacer adUnit' s = s) ∧
  (∀ s, macroReplacer adUnit ("%native_dom_id%" +:+ s)
        = adUnit +:+ macroReplacer adUnit s) ∧
  (∀ c s, JS.startsWith "%native_dom_id%" (String c s) = false →
          macroReplacer adUnit (String c s) = String c (macroReplacer adUnit s)).
Proof.
  intros Hplain. unfold macroReplacer. split; [|split].
  - intros adUnit' s H. by apply replaceAllFrom_absent.
  - intros s. by apply (replaceAllFrom_head _ "native_dom_id%").
  - intros c s. by apply replaceAllFrom_copy.
Qed.

Lemma macro_is_replaced_left_to_right_witness :
  macroReplacer "div-1" ("%native_dom_id%" +:+ "&cb=1")
    = "div-1" +:+ macroReplacer "div-1" "&cb=1" ∧
  macroReplacer "div-1" "x=1" = "x" +:+ macroReplacer "div-1" "=1".
Proof.
  pose proof (macro_is_replaced_left_to_right "div-1" eq_refl) as (_ & Hhead & Hcopy).
  split; [apply Hhead | apply Hcopy; reflexivity].
Defined.

(** A dollar sign in the ad-unit code is read as a substitution pattern:
    a doubled dollar inserts one, and the other three patterns insert the
    macro itself, the text before it and the text after it. *)
Lemma macro_dollar_patterns_example :
  macroReplacer "a$$b" "p=%native_dom_id%;" = "p=a$b;" ∧
  macroReplacer "a$&b" "p=%native_dom_id%;" = "p=a%native_dom_id%b;" ∧
  macroReplacer "a$`b" "p=%native_dom_id%;" = "p=ap=b;" ∧
  macroReplacer "a$'b" "p=%native_dom_id%;" = "p=a;b;" ∧
  macroReplacer "a$1b$" "p=%native_dom_id%;" = "p=a$1b$;".
Proof. vm_compute. repeat split. Qed.

(** ** Notifications *)

Lemma fold_notifyBid_lists (pvid : option string)
    (store : gmap string (option string * option string))
    (l : list NotifyBid) (r : Notification) :
  n_tagid (fold_left (notifyBid pvid store) l r) = n_tagid r ++ (nb_adUnitCode <$> l) ∧
  (length (n_siteId (fold_left (notifyBid pvid store) l r))
     ≤ length (n_siteId r) + length l)%nat ∧
  (length (n_slotId (fold_left (notifyBid pvid store) l r))
     ≤ length (n_slotId r) + length l)%nat ∧
  n_event (fold_left (notifyBid pvid store) l r) = n_event r.
Proof.
  revert r. induction l as [|b l IH]; intros r.
  - simpl. rewrite app_nil_r. repeat split; lia.
  - cbn [fold_left]. destruct (IH (notifyBid pvid store r b)) as (Ht & Hs & Hi & He).
    rewrite Ht, He. clear IH Ht He.
    assert (n_tagid (notifyBid pvid store r b) = n_tagid r ++ [nb_adUnitCode b] ∧
            (length (n_siteId (notifyBid pvid store r b)) ≤ length (n_siteId r) + 1)%nat ∧
            (length (n_slotId (notifyBid pvid store r b)) ≤ length (n_slotId r) + 1)%nat ∧
            n_event (notifyBid pvid store r b) = n_event r) as (Ht & Hs' & Hi' & He).
    { unfold notifyBid.
      repeat case_match; simpl; rewrite ?length_app; simpl; repeat split; lia. }
    rewrite Ht, He, fmap_cons, <- app_assoc. simpl. repeat split; lia.
Qed.

(** A notification payload exists exactly when there is at least one bid
    (a single bid, or a non-empty array).  It then lists the ad-unit code of
    every bid, in order, holds at most one site id and one slot id per bid,
    and carries no event tag yet. *)
Theorem notification_payload_shape (pvid : option string)
    (store : gmap string (option string * option string)) (bidData : BidData) :
  (getNotificationPayload pvid store bidData = None ↔ bidsOf bidData = []) ∧
  (∀ p, getNotificationPayload pvid store bidData = Some p →
     n_tagid p = nb_adUnitCode <$> bidsOf bidData ∧
     (length (n_siteId p) ≤ length (bidsOf bidData))%nat ∧
     (length (n_slotId p) ≤ length (bidsOf bidData))%nat ∧
     n_event p = None).
Proof.
  split.
  - destruct bidData as [|b|[|b l]]; simpl; split; done.
  - intros p Hp.
    assert (p = fold_left (notifyBid pvid store) (bidsOf bidData) emptyNotification)
      as ->.
    { destruct bidData as [|b|[|b l]]; simpl in *; by simplify_eq. }
    destruct (fold_notifyBid_lists pvid store (bidsOf bidData) emptyNotification)
      as (Ht & Hs & Hi & He).
    rewrite Ht, He. simpl in *. repeat split; done.
Qed.

Lemma notification_payload_shape_witness :
  ∃ p, getNotificationPayload (Some "pv-1") Ex2.detectedStore
         (BidArray [Ex2.timedOutA; Ex2.timedOutB]) = Some p ∧
       n_tagid p = [Some "div-a"; Some "div-b"] ∧
       (length (n_siteId p) ≤ 2)%nat ∧ (length (n_slotId p) ≤ 2)%nat ∧
       n_event p = None.
Proof.
  eexists. split; [reflexivity|].
  apply (proj2 (notification_payload_shape (Some "pv-1") Ex2.detectedStore
                  (BidArray [Ex2.timedOutA; Ex2.timedOutB]))).
  reflexivity.
Defined.

(** Reading the store back.  When the store holds a detection for the
    request id of a won bid, the notification reports the stored site id and
    the stored slot id (if non-empty), whatever params the bid itself
    carries. *)
Theorem stored_detection_overrides_params (pvid : option string)
    (store : gmap string (option string * option string))
    (b : NotifyBid) (r s : string) (slot : option string) :
  nb_requestId b = Some r →
  store !! r = Some (Some s, slot) → s ≠ "" →
  ∃ p, onBidWon pvid store (OneBid b) = Some p ∧
       n_siteId p = [s] ∧
       n_slotId p = (if JS.truthy slot then [default "" slot] else []) ∧
       n_tagid p = [nb_adUnitCode b] ∧
       n_event p = Some "bidWon".
Proof.
  intros Hr Hs Hne. apply truthy_Some in Hne.
  exists (withEvent "bidWon" (notifyBid pvid store emptyNotification b)).
  split; [reflexivity|].
  unfold withEvent, notifyBid, detectedParams. rewrite Hr. simpl JS.tmpl. rewrite Hs.
  cbn [p_siteId p_id fst snd]. rewrite Hne.
  destruct slot as [i|]; [destruct (JS.truthy (Some i)) eqn:Ei|];
    destruct (truthyQ (nb_cpm b)); simpl; rewrite ?Ei; done.
Qed.

Lemma stored_detection_overrides_params_witness :
  ∃ p, onBidWon (Some "pv-1") Ex2.detectedStore (OneBid Ex2.timedOutA) = Some p ∧
       n_siteId p = ["9001"] ∧ n_slotId p = ["005"] ∧
       n_tagid p = [Some "div-a"] ∧ n_event p = Some "bidWon".
Proof.
  apply (stored_detection_overrides_params (Some "pv-1") Ex2.detectedStore
           Ex2.timedOutA "2c5d1e" "9001" (Some "005")).
  - reflexivity.
  - reflexivity.
  - discriminate.
Defined.

Lemma cpmPositive_truthyQ (c : option Q) : cpmPositive c = true → truthyQ c = true.
Proof.
  destruct c as [q|]; simpl; [|done]. intros H. apply Qgtb_true in H.
  apply negb_true_iff. destruct (Qeq_bool q 0) eqn:E; [|done].
  apply Qeq_bool_iff in E. rewrite E in H. by apply Qlt_irrefl in H.
Qed.

(** From response to notification.  When the host reports as won a bid
    that [interpretResponse] returned, the notification built against the
    store that call left behind carries exactly one site id, non-empty and
    no placeholder, together with the cpm and the creative id of the bid. *)
Theorem won_bid_reports_resolved_site
    (parseAdmNative : string → option NativeData)
    (store : gmap string (option string * option string))
    (response : ServerResponse) (request : Request) (x : Bid)
    (pvid auction adUnit : option string) (p : option ParamsField) :
  x ∈ st_bids (interpretResponse parseAdmNative store response request) →
  ∃ payload s,
    onBidWon pvid
      (oneCodeDetection (interpretResponse parseAdmNative store response request))
      (OneBid (wonBid auction adUnit p x)) = Some payload ∧
    n_siteId payload = [s] ∧ s ≠ "" ∧ JS.includes s "bidid" = false ∧
    n_cpm payload = cpm x ∧ n_creativeId payload = Some (creativeId x) ∧
    n_event payload = Some "bidWon".
Proof.
  intros Hx.
  destruct (interpretResponse_usable _ _ _ _ _ Hx) as (s & slot & Hs & Hne & Hinc).
  destruct (interpretResponse_emitted _ _ _ _ _ Hx)
    as (seatName & sb & _ & site & br & _ & _ & Hpos).
  apply cpmPositive_truthyQ in Hpos.
  exists (withEvent "bidWon"
            (notifyBid pvid
               (oneCodeDetection
                  (interpretResponse parseAdmNative store response request))
               emptyNotification (wonBid auction adUnit p x))), s.
  split; [reflexivity|].
  unfold withEvent, notifyBid, detectedParams, wonBid.
  cbn [nb_requestId nb_cpm nb_creativeId nb_meta nb_auctionId nb_timeout
       nb_adUnitCode nb_params JS.tmpl default id].
  rewrite Hs, Hpos. cbn [p_siteId p_id fst snd].
  apply truthy_Some in Hne. rewrite Hne.
  repeat case_match; simpl; repeat split; try done; by apply truthy_Some.
Qed.

Lemma won_bid_reports_resolved_site_witness :
  ∃ x payload s,
    x ∈ st_bids (interpretResponse Ex.noParse Ex.emptyStore Ex.carriedResponse
                   Ex.placeholderRequest) ∧
    onBidWon (Some "pv-1")
      (oneCodeDetection (interpretResponse Ex.noParse Ex.emptyStore
                           Ex.carriedResponse Ex.placeholderRequest))
      (OneBid (wonBid (Some "auction-1") (Some "div-10") None x)) = Some payload ∧
    n_siteId payload = [s] ∧ s ≠ "" ∧ JS.includes s "bidid" = false.
Proof.
  eassert (∃ x, x ∈ st_bids (interpretResponse Ex.noParse Ex.emptyStore
                               Ex.carriedResponse Ex.placeholderRequest)) as [x Hx].
  { eexists. vm_compute. apply list_elem_of_here. }
  destruct (won_bid_reports_resolved_site Ex.noParse Ex.emptyStore Ex.carriedResponse
              Ex.placeholderRequest x (Some "pv-1") (Some "auction-1") (Some "div-10")
              None Hx) as (payload & s & Hp & Hs & Hne & Hinc & _).
  by exists x, payload, s.
Defined.

(** ** Consent fields *)

(** [formatGDPR] moves the legacy consent fields up and leaves none behind:
    applying it twice changes nothing more; afterwards [regs.ext.gdpr] and
    [user.ext.consent] are undefined; a legacy gdpr flag, 0 included, ends up
    in [regs.gdpr] and a legacy consent string in [user.consent]; and
    [ConsentedProvidersSettings] is cleared only together with a legacy
    consent string. *)
Theorem formatGDPR_moves_legacy_fields (payload : ConsentPayload) :
  formatGDPR (formatGDPR payload) = formatGDPR payload ∧
  (∀ r e, cp_regs (formatGDPR payload) = Some r → regs_ext r = Some e →
          re_gdpr e = None) ∧
  (∀ u e, cp_user (formatGDPR payload) = Some u → user_ext u = Some e →
          ue_consent e = None) ∧
  (∀ r e g, cp_regs payload = Some r → regs_ext r = Some e → re_gdpr e = Some g →
            regs_gdpr <$> cp_regs (formatGDPR payload) = Some (Some g)) ∧
  (∀ u e c, cp_user payload = Some u → user_ext u = Some e → ue_consent e = Some c →
            user_consent <$> cp_user (formatGDPR payload) = Some (Some c)) ∧
  (∀ u e, cp_user payload = Some u → user_ext u = Some e → ue_consent e = None →
          cp_user (formatGDPR payload) = cp_user payload).
Proof.
  destruct payload as [[[g [[eg]|]]|] [[c [[ec ecps]|]]|]];
    unfold formatGDPR, formatRegs, formatUser; simpl;
    repeat split; intros; repeat case_match; simplify_eq/=; done.
Qed.

Lemma formatGDPR_moves_legacy_fields_witness :
  regs_gdpr <$> cp_regs (formatGDPR Ex2.legacyConsent) = Some (Some 0%Z) ∧
  user_consent <$> cp_user (formatGDPR Ex2.legacyConsent) = Some (Some "CONSENT").
Proof.
  pose proof (formatGDPR_moves_legacy_fields Ex2.legacyConsent)
    as (_ & _ & _ & Hg & Hc & _).
  split.
  - by apply (Hg _ (mkRegsExt (Some 0%Z)) 0%Z eq_refl).
  - by apply (Hc _ (mkUserExt (Some "CONSENT") (Some "providers")) "CONSENT" eq_refl).
Defined.

(** ** The site id of the request *)

Lemma setOnAny_stays {A : Type} (get : A → option string) (l : list A)
    (acc : option string) :
  JS.truthy acc = true →
  fold_left (fun prev next => if JS.truthy prev then prev else get next) l acc = acc.
Proof.
  intros H. induction l as [|x l IH]; [done|]. simpl. by rewrite H.
Qed.

Lemma setOnAny_all_falsy {A : Type} (get : A → option string) (l : list A)
    (acc : option string) :
  JS.truthy acc = false →
  Forall (fun x => JS.truthy (get x) = false) l →
  JS.truthy (fold_left (fun prev next => if JS.truthy prev then prev else get next)
                       l acc) = false.
Proof.
  revert acc. induction l as [|x l IH]; intros acc Hacc Hall; [done|].
  apply Forall_cons in Hall as [Hx Hall]. simpl. rewrite Hacc. by apply IH.
Qed.

Lemma setOnAny_first {A : Type} (get : A → option string) (pre post : list A)
    (x : A) :
  Forall (fun y => JS.truthy (get y) = false) pre →
  JS.truthy (get x) = true →
  setOnAny (pre ++ x :: post) get = get x.
Proof.
  intros Hpre Hx. unfold setOnAny. rewrite fold_left_app. cbn [fold_left].
  rewrite (setOnAny_all_falsy get pre None eq_refl Hpre).
  by apply setOnAny_stays.
Qed.

(** The site id of the request is the [params.siteId] of the first bid
    request that has a non-empty one; when no bid request has one, it is the
    site id the request already had. *)
Theorem request_site_id_is_first_nonempty (reqs : list BidRequest)
    (siteId : option string) :
  (∀ pre b post s,
     reqs = pre ++ b :: post →
     Forall (fun r => JS.truthy (paramsSiteId r) = false) pre →
     paramsSiteId b = Some s → s ≠ "" →
     requestSiteId reqs siteId = Some s) ∧
  (Forall (fun r => JS.truthy (paramsSiteId r) = false) reqs →
   requestSiteId reqs siteId = siteId).
Proof.
  split.
  - intros pre b post s -> Hpre Hb Hs. unfold requestSiteId.
    apply truthy_Some in Hs. rewrite <- Hb in Hs.
    rewrite (setOnAny_first paramsSiteId pre post b Hpre Hs). by rewrite Hs.
  - intros Hall. unfold requestSiteId, setOnAny.
    by rewrite (setOnAny_all_falsy paramsSiteId reqs None eq_refl Hall).
Qed.

Lemma request_site_id_is_first_nonempty_witness :
  requestSiteId Ex2.siteSlots (Some "from-page") = Some "8816" ∧
  requestSiteId [Ex2.oneCodeA; Ex2.oneCodeB] (Some "from-page") = Some "from-page".
Proof.
  split.
  - apply (proj1 (request_site_id_is_first_nonempty Ex2.siteSlots (Some "from-page"))
             [Ex2.oneCodeA] _ _ "8816" eq_refl).
    + by repeat constructor.
    + reflexivity.
    + discriminate.
  - apply (proj2 (request_site_id_is_first_nonempty [Ex2.oneCodeA; Ex2.oneCodeB]
                    (Some "from-page"))).
    by repeat constructor.
Defined.

Lemma id_derivations_agree_unpadded_witness :
  currentBidId Ex.slot010 = imp_id Ex.slot010.
Proof.
  apply (id_derivations_agree_unpadded Ex.slot010
           (mkParams (Some "010") (Some "8816")) eq_refl).
  intros i [= <-] _. simpl. lia.
Defined.

(** ** The size label *)

Lemma largest_fold (l : list (N * N)) (a : N * N) :
  let m := fold_left (fun prev next => if (area prev <=? area next)%N then next else prev)
                     l a in
  (m = a ∧ Forall (fun t => (area t < area a)%N) l) ∨
  ∃ pre post, l = pre ++ m :: post ∧ (area a ≤ area m)%N ∧
              Forall (fun t => (area t ≤ area m)%N) pre ∧
              Forall (fun t => (area t < area m)%N) post.
Proof.
  cbv zeta. revert a. induction l as [|x l IH]; intros a.
  - left. by split.
  - cbn [fold_left]. destruct (N.leb_spec (area a) (area x)) as [Hle|Hgt].
    + right. destruct (IH x) as [[-> Hall]|(pre & post & Hl & Hm & Hpre & Hpost)].
      * exists [], l. by repeat split.
      * exists (x :: pre), post. rewrite Hl at 1. repeat split; try done; [lia|].
        by constructor.
    + destruct (IH a) as [[-> Hall]|(pre & post & Hl & Hm & Hpre & Hpost)].
      * left. split; [done|]. by constructor.
      * right. exists (x :: pre), post. rewrite Hl at 1. repeat split; try done.
        constructor; [lia | done].
Qed.

(** The area of a size is its exact product while that stays below 2^53. *)
Lemma roundDouble_exact (n : N) : (n < 2 ^ 53)%N → roundDouble n = n.
Proof.
  intros H. unfold roundDouble.
  by destruct (N.ltb_spec n (2 ^ 53)); [|lia].
Qed.

(** The size that labels an impression is the largest of its sizes by area
    and, among equally large ones, the last; without sizes the label is
    1x1.  Areas are the products as the code computes them: exact below
    2^53 and nearest doubles above. *)
Theorem impSize_is_last_largest (szs : list (N * N)) :
  (szs = [] → impSize szs = "1x1") ∧
  (szs ≠ [] →
   ∃ pre s post, szs = pre ++ s :: post ∧ impSize szs = joinSize s ∧
                 Forall (fun t => (area t ≤ area s)%N) pre ∧
                 Forall (fun t => (area t < area s)%N) post) ∧
  (∀ s : N * N, (s.1 * s.2 < 2 ^ 53)%N → area s = (s.1 * s.2)%N).
Proof.
  split; [by intros ->|]. split; [|intros s Hs; by apply roundDouble_exact].
  intros Hne.
  destruct szs as [|first rest]; [done|]. unfold impSize.
  destruct (largest_fold rest first) as [[Hm Hall]|(pre & post & Hl & Hm & Hpre & Hpost)].
  - exists [], first, rest. rewrite Hm. by repeat split.
  - eexists (first :: pre), _, post. rewrite Hl at 1. repeat split; try done.
    by constructor.
Qed.

Lemma impSize_is_last_largest_witness :
  ∃ pre s post, [(300, 250); (728, 90); (250, 300)]%N = pre ++ s :: post ∧
                impSize [(300, 250); (728, 90); (250, 300)]%N = joinSize s ∧
                Forall (fun t => (area t ≤ area s)%N) pre ∧
                Forall (fun t => (area t < area s)%N) post.
Proof.
  apply (proj1 (proj2 (impSize_is_last_largest [(300, 250); (728, 90); (250, 300)]%N))).
  discriminate.
Defined.

(** On ties the later size wins: 300x250 and 250x300 have the same area. *)
Lemma impSize_tie_example :
  impSize [(300, 250); (728, 90); (250, 300)]%N = "250x300".
Proof. vm_compute. reflexivity. Qed.

(** Above 2^53 two different products can round to the same double, and
    then too the later size wins, although its exact product is smaller. *)
Lemma impSize_rounding_example :
  (94906267 * 94906267 = 9007199515875289)%N ∧
  (94906266 * 94906268 = 9007199515875288)%N ∧
  area (94906267, 94906267)%N = 9007199515875288%N ∧
  area (94906266, 94906268)%N = 9007199515875288%N ∧
  impSize [(94906267, 94906267); (94906266, 94906268)]%N = "94906266x94906268".
Proof. vm_compute. repeat split. Qed.

(** ** Floors are never negative *)

(** Whatever the floor function of the slot answers, negative numbers
    included, the floor of the impression is at least 0. *)
Theorem bid_floor_is_never_negative (cfg : Config) (st : LabelState)
    (r : BidRequest) :
  (0 <= floor (getHighestFloor cfg r))%Q ∧
  (0 <= bidfloor (converter_imp cfg st r).2)%Q.
Proof.
  assert (0 <= floor (getHighestFloor cfg r))%Q as H; [|by split].
  unfold getHighestFloor. destruct (getFloor r) as [gf|]; [|apply Qle_refl].
  cbn [floor].
  set (bf := bannerFloorOf gf (getCurrency cfg) (sizes r)).
  destruct (Math_max3_spec bf
              (floorOf gf (mkFloorQuery "native" None (getCurrency cfg)))
              (floorOf gf (mkFloorQuery "video" None (getCurrency cfg))))
    as (Hb & _).
  eapply Qle_trans; [|exact Hb].
  subst bf. unfold bannerFloorOf. destruct (sizes r) as [|s0 rest]; [apply Qle_refl|].
  apply (banner_reduce_spec
           (fun s => floorOf gf (mkFloorQuery "banner" (Some s) (getCurrency cfg)))
           (s0 :: rest) 0%Q).
Qed.

(** ** Media type *)

Lemma startsWith_head (c d : Ascii.ascii) (p s : string) :
  JS.startsWith (String c p) (String d s) = true → c = d.
Proof.
  change (JS.startsWith (String c p) (String d s))
    with (if Ascii.eqb c d then JS.startsWith p s else false).
  destruct (Ascii.eqb_spec c d); [done | discriminate].
Qed.

Lemma xml_is_not_native_prolog (a : string) :
  JS.startsWith "<?xml" a = true → matchesNativeProlog a = false.
Proof.
  intros H. destruct a as [|d a]; [discriminate|].
  apply startsWith_head in H as <-. by destruct a.
Qed.

(** The media type given to a bid is the one the converter-based revision
    computes from the same server bid: video first, then native, banner
    otherwise.  On the markup alone the video and the native test exclude
    each other. *)
Theorem media_type_classification (parseAdmNative : string → option NativeData)
    (R : BidderRequest) (response : ServerResponse) (seatName : option string)
    (site : Site) (br : BidRequest) (sb : ServerBid) :
  mediaType (buildBid parseAdmNative R response seatName site br sb)
    = Some (contextMediaType sb) ∧
  (admNative sb = None → isVideoAd sb = true → isNativeAd sb = false).
Proof.
  split.
  - unfold buildBid, contextMediaType. repeat case_match; reflexivity.
  - unfold isVideoAd, isNativeAd. intros ->.
    destruct (adm sb) as [a|]; [|discriminate].
    intros [_ Hx]%andb_true_iff.
    by rewrite (xml_is_not_native_prolog a Hx), andb_false_r.
Qed.

Lemma media_type_classification_witness :
  isNativeAd (mkServerBid None None (Some "010") None None (Some 1%Q) None None
                (Some "<?xml version='1.0'?><VAST/>") None) = false.
Proof.
  apply (proj2 (media_type_classification Ex.noParse Ex.auction (Ex.responseOf [])
                  None emptySite Ex.slot010 _)); reflexivity.
Defined.

(** * The adf adapter *)

Lemma adf_indexBids_snoc (l : list Adf.RespBid) (b : Adf.RespBid) :
  Adf.indexBids (l ++ [b]) =
    match Adf.rb_impid b with
    | Some i => <[(i - 1)%Z := b]> (Adf.indexBids l)
    | None => Adf.indexBids l
    end.
Proof. unfold Adf.indexBids. by rewrite fold_left_app. Qed.

(** The array slot of index [k] holds the last response bid whose [impid]
    is [k + 1]. *)
Lemma adf_indexBids_lookup (l : list Adf.RespBid) (k : nat) :
  Adf.indexBids l !! Z.of_nat k = Adf.lastAnswer l k.
Proof.
  unfold Adf.lastAnswer. induction l as [|b l IH] using rev_ind; [done|].
  rewrite adf_indexBids_snoc, filter_app, last_app, filter_cons, filter_nil.
  destruct (Adf.rb_impid b) as [i|] eqn:Ei.
  - destruct (decide (Some i = Some (Adf.impId k))) as [[= ->]|Hne].
    + unfold Adf.impId. replace (Z.of_nat k + 1 - 1)%Z with (Z.of_nat k) by lia.
      by rewrite lookup_insert_eq.
    + rewrite lookup_insert_ne; [done|].
      intros Hk. apply Hne. f_equal. unfold Adf.impId. lia.
  - rewrite decide_False by done. done.
Qed.

(** Last answer wins.  For a response with a body, the result list holds,
    in the order of the bid requests, one result for every bid request whose
    position plus one is the [impid] of some response bid, built from the
    last such response bid; bid requests without an answer are left out.
    Without a body the result is [undefined]. *)
Theorem adf_last_answer_wins (VIDEO : string) (body : Adf.Body)
    (bids : list Adf.ReqBid) :
  Adf.interpretResponse VIDEO (Some body) bids =
    Some (omap id
            (imap (fun k b =>
                     Adf.buildResult VIDEO (Adf.body_cur body) b
                       <$> Adf.lastAnswer
                             (Adf.flatten (Adf.seat_bid <$> Adf.body_seatbid body)) k)
                  bids)) ∧
  Adf.interpretResponse VIDEO None bids = None.
Proof.
  split; [|done]. unfold Adf.interpretResponse. do 2 f_equal.
  apply imap_ext. intros k b _. by rewrite adf_indexBids_lookup.
Qed.

(** The native branch is taken for a truthy [native] only: an answer whose
    [native] is [null] is a banner and gets its markup as [ad]. *)
Lemma adf_falsy_native_example :
  let answer :=
    Adf.mkRespBid (Some 1%Z) (Some 1%Q) (Some "cr") None None None None None
      (Some "<div/>") None (Some JS.VNull) (Some "banner") None in
  let result :=
    Adf.buildResult "video" (Some "EUR")
      (Adf.mkReqBid "adf-1" (Some "net") false None "div-1") answer in
  Adf.r_native result = None ∧ Adf.r_ad result = Some "<div/>".
Proof. vm_compute. split; reflexivity. Qed.

Lemma adf_buildResult_ids (VIDEO : string) (cur : option string)
    (b : Adf.ReqBid) (rb : Adf.RespBid) :
  Adf.r_requestId (Adf.buildResult VIDEO cur b rb) = Adf.rq_bidId b ∧
  Adf.r_cpm (Adf.buildResult VIDEO cur b rb) = Adf.rb_price rb.
Proof. unfold Adf.buildResult. by repeat case_match. Qed.

Lemma adf_results_of (VIDEO : string) (cur : option string)
    (o : nat → option Adf.RespBid) (bids : list Adf.ReqBid) :
  let results := omap id (imap (fun k b => Adf.buildResult VIDEO cur b <$> o k) bids) in
  (Adf.r_requestId <$> results) `sublist_of` (Adf.rq_bidId <$> bids) ∧
  ∀ res, res ∈ results →
         ∃ k b rb, bids !! k = Some b ∧ o k = Some rb ∧
                   res = Adf.buildResult VIDEO cur b rb.
Proof.
  cbv zeta. revert o. induction bids as [|b bids IH]; intros o.
  - split; [constructor|]. intros res Hres. by apply elem_of_nil in Hres.
  - rewrite imap_cons. destruct (IH (o ∘ S)) as [Hsub Hall].
    cbn [omap list_omap]. destruct (o 0%nat) as [rb|] eqn:E0; cbn [fmap option_fmap option_map id].
    + split.
      * rewrite !fmap_cons, (proj1 (adf_buildResult_ids VIDEO cur b rb)).
        by apply sublist_skip.
      * intros res [->|Hres]%elem_of_cons.
        -- by exists 0%nat, b, rb.
        -- destruct (Hall res Hres) as (k & b' & rb' & Hk & Ho & Hr).
           by exists (S k), b', rb'.
    + split.
      * rewrite fmap_cons. by apply sublist_cons.
      * intros res Hres.
        destruct (Hall res Hres) as (k & b' & rb' & Hk & Ho & Hr).
        by exists (S k), b', rb'.
Qed.

(** Results follow the bid requests.  The request ids of the results are
    the bid ids of the bid requests with some left out, in the same order;
    and every result is built for a bid request from a response bid that
    names its impression, so it carries that request's bid id and that
    response bid's price. *)
Theorem adf_results_follow_requests (VIDEO : string) (body : Adf.Body)
    (bids : list Adf.ReqBid) (results : list Adf.Result) :
  Adf.interpretResponse VIDEO (Some body) bids = Some results →
  (Adf.r_requestId <$> results) `sublist_of` (Adf.rq_bidId <$> bids) ∧
  ∀ res, res ∈ results →
    ∃ k b rb, bids !! k = Some b ∧
              rb ∈ Adf.flatten (Adf.seat_bid <$> Adf.body_seatbid body) ∧
              Adf.rb_impid rb = Some (Adf.impId k) ∧
              Adf.r_requestId res = Adf.rq_bidId b ∧
              Adf.r_cpm res = Adf.rb_price rb.
Proof.
  intros H.
  assert (results =
          omap id
            (imap (fun k b =>
                     Adf.buildResult VIDEO (Adf.body_cur body) b
                       <$> Adf.lastAnswer
                             (Adf.flatten (Adf.seat_bid <$> Adf.body_seatbid body)) k)
                  bids)) as ->.
  { unfold Adf.interpretResponse in H. injection H as <-. do 1 f_equal.
    apply imap_ext. intros k b _. by rewrite adf_indexBids_lookup. }
  destruct (adf_results_of VIDEO (Adf.body_cur body)
              (Adf.lastAnswer (Adf.flatten (Adf.seat_bid <$> Adf.body_seatbid body)))
              bids) as [Hsub Hall].
  split; [exact Hsub|]. intros res Hres.
  destruct (Hall res Hres) as (k & b & rb & Hk & Ho & ->).
  exists k, b, rb. unfold Adf.lastAnswer in Ho.
  apply last_Some_elem_of, list_elem_of_filter in Ho as [Himp Hin].
  repeat split; try done; apply adf_buildResult_ids.
Qed.

Lemma adf_results_follow_requests_witness :
  ∃ results,
    Adf.interpretResponse "video" (Some Ex2.adfBody) Ex2.adfBids = Some results ∧
    (Adf.r_requestId <$> results) `sublist_of` (Adf.rq_bidId <$> Ex2.adfBids).
Proof.
  eexists. split; [reflexivity|].
  apply (adf_results_follow_requests "video" Ex2.adfBody Ex2.adfBids). reflexivity.
Defined.

(** Round trip of the impression id.  When some response bid echoes the
    impression id that [buildRequests] gave to a bid request, the results
    hold a result for that bid request, built from the last response bid
    that echoes it. *)
Theorem adf_echoed_impression_is_answered (VIDEO : string) (body : Adf.Body)
    (bids : list Adf.ReqBid) (k : nat) (b : Adf.ReqBid) (rb : Adf.RespBid) :
  bids !! k = Some b →
  rb ∈ Adf.flatten (Adf.seat_bid <$> Adf.body_seatbid body) →
  Adf.rb_impid rb = Some (Adf.impId k) →
  ∃ results rb',
    Adf.interpretResponse VIDEO (Some body) bids = Some results ∧
    Adf.lastAnswer (Adf.flatten (Adf.seat_bid <$> Adf.body_seatbid body)) k = Some rb' ∧
    Adf.buildResult VIDEO (Adf.body_cur body) b rb' ∈ results ∧
    Adf.r_requestId (Adf.buildResult VIDEO (Adf.body_cur body) b rb') = Adf.rq_bidId b.
Proof.
  intros Hk Hin Himp.
  set (all := Adf.flatten (Adf.seat_bid <$> Adf.body_seatbid body)) in *.
  assert (is_Some (Adf.lastAnswer all k)) as [rb' Hlast].
  { unfold Adf.lastAnswer. apply last_is_Some. intros Hnil.
    assert (rb ∈ filter (fun x => Adf.rb_impid x = Some (Adf.impId k)) all) as Hf
      by (by apply list_elem_of_filter).
    rewrite Hnil in Hf. by apply elem_of_nil in Hf. }
  eexists. exists rb'. split; [reflexivity|]. split; [exact Hlast|]. split.
  - apply list_elem_of_omap.
    exists (Some (Adf.buildResult VIDEO (Adf.body_cur body) b rb')).
    split; [|done]. apply list_elem_of_lookup. exists k.
    rewrite list_lookup_imap, Hk. cbn [fmap option_fmap option_map].
    fold all. by rewrite adf_indexBids_lookup, Hlast.
  - apply adf_buildResult_ids.
Qed.

Lemma adf_echoed_impression_is_answered_witness :
  ∃ results rb',
    Adf.interpretResponse "video" (Some Ex2.adfBody) Ex2.adfBids = Some results ∧
    Adf.lastAnswer (Adf.flatten (Adf.seat_bid <$> Adf.body_seatbid Ex2.adfBody)) 1
      = Some rb' ∧
    Adf.buildResult "video" (Adf.body_cur Ex2.adfBody)
      (Adf.mkReqBid "adf-2" (Some "net") false None "div-2") rb' ∈ results ∧
    Adf.r_requestId
      (Adf.buildResult "video" (Adf.body_cur Ex2.adfBody)
         (Adf.mkReqBid "adf-2" (Some "net") false None "div-2") rb') = "adf-2".
Proof.
  apply (adf_echoed_impression_is_answered "video" Ex2.adfBody Ex2.adfBids 1
           (Adf.mkReqBid "adf-2" (Some "net") false None "div-2")
           (Ex2.adfAnswer 2 1%Q)).
  - reflexivity.
  - apply list_elem_of_here.
  - reflexivity.
Defined.

(** In the example the later answer to impression 2 is the one returned,
    and the answer to the missing impression 7 is dropped. *)
Lemma adf_example :
  (fun r => (Adf.r_requestId r, Adf.r_cpm r))
    <$> default [] (Adf.interpretResponse "video" (Some Ex2.adfBody) Ex2.adfBids)
  = [("adf-2", Some 3%Q)].
Proof. vm_compute. reflexivity. Qed.

(** * More on the response parser and the size labels *)

Lemma unmatched_bid_without_site_fields_is_inert_witness :
  sameView
    (interpretResponse Ex.noParse Ex.emptyStore Ex.strayResponse Ex.plainRequest)
    (interpretResponse Ex.noParse Ex.emptyStore
       (withSeatbid Ex.strayResponse
          ([] ++ mkSeatBid (Some "seat-1")
                   ([Ex.bannerBid "010" None 1%Q] ++ [Ex.bannerBid "011" None 3%Q])
                 :: []))
       Ex.plainRequest).
Proof.
  apply (unmatched_bid_without_site_fields_is_inert Ex.noParse Ex.emptyStore
           Ex.strayResponse Ex.plainRequest [] [] (Some "seat-1")
           [Ex.bannerBid "010" None 1%Q] [Ex.bannerBid "011" None 3%Q] Ex.strayBid).
  - reflexivity.
  - repeat constructor; discriminate.
  - reflexivity.
  - reflexivity.
Defined.

(** ** A label names one ad unit *)

Lemma noUnderscore_app (a b : string) :
  noUnderscore (a +:+ b) = noUnderscore a && noUnderscore b.
Proof.
  induction a as [|c a IH]; [done|].
  change (negb (Ascii.eqb c (Ascii.ascii_of_nat 95)) && noUnderscore (a +:+ b)
          = negb (Ascii.eqb c (Ascii.ascii_of_nat 95)) && noUnderscore a
            && noUnderscore b).
  by rewrite IH, andb_assoc.
Qed.

Lemma noUnderscore_digit (x : N) (s : string) :
  noUnderscore (String (pretty_N_char x) s) = noUnderscore s.
Proof. unfold pretty_N_char. by repeat case_match. Qed.

Lemma noUnderscore_pretty_go (x : N) (s : string) :
  noUnderscore s = true → noUnderscore (pretty_N_go x s) = true.
Proof.
  revert s. induction (N.lt_wf_0 x) as [x _ IH]; intros s Hs.
  destruct (decide (0 < x)%N) as [Hx|Hx].
  - rewrite pretty_N_go_step by done. apply IH.
    + by apply N.div_lt.
    + by rewrite noUnderscore_digit.
  - replace x with 0%N by lia. by rewrite pretty_N_go_0.
Qed.

Lemma noUnderscore_pretty (x : N) : noUnderscore (pretty x) = true.
Proof.
  unfold pretty, pretty_N. case_decide; [done|]. by apply noUnderscore_pretty_go.
Qed.

Lemma noUnderscore_impSize (szs : list (N * N)) : noUnderscore (impSize szs) = true.
Proof.
  unfold impSize. destruct szs as [|first rest]; [done|].
  unfold joinSize. by rewrite !noUnderscore_app, !noUnderscore_pretty.
Qed.

(** A label splits in one way only into its size and its number. *)
Lemma label_split (s1 s2 t1 t2 : string) :
  noUnderscore s1 = true → noUnderscore s2 = true →
  s1 +:+ "_" +:+ t1 = s2 +:+ "_" +:+ t2 → s1 = s2 ∧ t1 = t2.
Proof.
  revert s2. induction s1 as [|c s1 IH]; intros [|d s2] H1 H2 Heq.
  - by simplify_eq/=.
  - by simplify_eq/=.
  - by simplify_eq/=.
  - change (String c (s1 +:+ "_" +:+ t1) = String d (s2 +:+ "_" +:+ t2)) in Heq.
    injection Heq as -> Heq.
    change (negb (Ascii.eqb d (Ascii.ascii_of_nat 95)) && noUnderscore s1 = true) in H1.
    change (negb (Ascii.eqb d (Ascii.ascii_of_nat 95)) && noUnderscore s2 = true) in H2.
    apply andb_true_iff in H1 as [_ H1]. apply andb_true_iff in H2 as [_ H2].
    destruct (IH s2 H1 H2 Heq) as [-> ->]. done.
Qed.

(** The dictionaries reached by any build sequence: every stored label is
    a size without underscore followed by a number between 1 and the counter
    of that size, and no two ad units share a label. *)
Lemma labels_invariant (cfg : Config) (pre : list BidRequest) :
  let st := (buildImps cfg initialLabels pre).1 in
  (∀ code label, adUnitsCalled st !! code = Some label →
     ∃ size n, label = size +:+ "_" +:+ pretty n ∧ noUnderscore size = true ∧
               (1 ≤ n ≤ counter st size)%N) ∧
  (∀ c1 c2 label, adUnitsCalled st !! c1 = Some label →
                  adUnitsCalled st !! c2 = Some label → c1 = c2).
Proof.
  cbv zeta. induction pre as [|r pre IH] using rev_ind.
  - cbn [buildImps fst]. unfold initialLabels. simpl.
    split; intros *; by rewrite lookup_empty.
  - rewrite buildImps_snoc. cbn [fst].
    destruct IH as [IHa IHb].
    set (st := (buildImps cfg initialLabels pre).1) in *.
    set (code := adUnitCode r). set (size := impSize (sizes r)).
    assert ((converter_imp cfg st r).1 = registerAdUnit st code size) as -> by done.
    destruct (truthyMember (readMember (adUnitsCalled st) code)) eqn:E.
    { rewrite registerAdUnit_known by done. by split. }
    rewrite registerAdUnit_new by done.
    assert (∀ s, (counter st s
                  ≤ counter (mkLabelState
                               (<[code := size +:+ "_" +:+ pretty (counter st size + 1)%N]>
                                  (adUnitsCalled st))
                               (<[size := (counter st size + 1)%N]> (adSizesCalled st))) s)%N)
      as Hmono.
    { intros s. unfold counter at 2. simpl.
      destruct (decide (size = s)) as [<-|Hne].
      - rewrite lookup_insert_eq. simpl. lia.
      - by rewrite lookup_insert_ne. }
    assert (counter (mkLabelState
                       (<[code := size +:+ "_" +:+ pretty (counter st size + 1)%N]>
                          (adUnitsCalled st))
                       (<[size := (counter st size + 1)%N]> (adSizesCalled st))) size
            = (counter st size + 1)%N) as Hnew.
    { unfold counter at 1. simpl. by rewrite lookup_insert_eq. }
    assert (∀ c, adUnitsCalled st !! c
                 ≠ Some (size +:+ "_" +:+ pretty (counter st size + 1)%N)) as Hdistinct.
    { intros c Hc. destruct (IHa c _ Hc) as (sz & n & Heq & Hsz & Hn).
      apply label_split in Heq as [<- Hp]; [|apply noUnderscore_impSize | done].
      apply (inj pretty) in Hp. lia. }
    simpl. split.
    + intros c label. destruct (decide (code = c)) as [<-|Hne].
      * rewrite lookup_insert_eq. intros [= <-].
        exists size, (counter st size + 1)%N.
        split; [done|]. split; [apply noUnderscore_impSize|]. rewrite Hnew. lia.
      * rewrite lookup_insert_ne by done. intros Hc.
        destruct (IHa c label Hc) as (sz & n & Heq & Hsz & Hn).
        exists sz, n. split; [done|]. split; [done|].
        pose proof (Hmono sz). lia.
    + intros c1 c2 label.
      destruct (decide (code = c1)) as [<-|Hne1]; destruct (decide (code = c2)) as [<-|Hne2];
        rewrite ?lookup_insert_eq, ?lookup_insert_ne by done.
      * done.
      * intros [= <-] H2. by destruct (Hdistinct c2).
      * intros H1 [= <-]. by destruct (Hdistinct c1).
      * apply IHb.
Qed.

Lemma buildImps_tagid (cfg : Config) (reqs : list BidRequest) (st : LabelState) :
  tagid <$> (buildImps cfg st reqs).2 = adUnitCode <$> reqs.
Proof.
  revert st. induction reqs as [|r reqs IH]; intros st; [done|].
  cbn [buildImps]. destruct (converter_imp cfg st r) as [st1 i] eqn:E1.
  specialize (IH st1). destruct (buildImps cfg st1 reqs) as [st2 imps].
  cbn [snd] in *. rewrite !fmap_cons, IH. f_equal.
  unfold converter_imp in E1. by simplify_eq.
Qed.

(** A label names one ad unit.  Among the impressions built since the
    dictionaries were empty, two that carry the same size label belong to the
    same ad unit; and every impression whose ad-unit code is not a name
    inherited from [Object.prototype] carries a label, while one whose code
    is such a name carries the inherited member instead. *)
Theorem size_label_names_one_ad_unit (cfg : Config) (reqs : list BidRequest)
    (i j : nat) (imp1 imp2 : Imp) :
  (buildImps cfg initialLabels reqs).2 !! i = Some imp1 →
  (buildImps cfg initialLabels reqs).2 !! j = Some imp2 →
  (inheritedName (tagid imp1) = false → ∃ label, pbsize imp1 = OwnLabel label) ∧
  (inheritedName (tagid imp1) = true → pbsize imp1 = Inherited) ∧
  (∀ label, pbsize imp1 = OwnLabel label → pbsize imp2 = OwnLabel label →
            tagid imp1 = tagid imp2).
Proof.
  intros H1 H2.
  destruct (buildImps_invariant cfg reqs) as (I1 & _ & I3 & I4).
  destruct (labels_invariant cfg reqs) as [_ Hinj].
  pose proof (buildImps_tagid cfg reqs initialLabels) as Htag.
  set (st := (buildImps cfg initialLabels reqs).1) in *.
  set (imps := (buildImps cfg initialLabels reqs).2) in *.
  assert (∀ c, inheritedName c = true → adUnitsCalled st !! c = None) as Hnone.
  { intros c Hc. subst st. clear -Hc.
    induction reqs as [|r reqs IH] using rev_ind; [done|].
    rewrite buildImps_snoc. cbn [fst].
    set (st := (buildImps cfg initialLabels reqs).1) in *.
    change ((converter_imp cfg st r).1)
      with (registerAdUnit st (adUnitCode r) (impSize (sizes r))).
    destruct (truthyMember (readMember (adUnitsCalled st) (adUnitCode r))) eqn:E.
    - by rewrite registerAdUnit_known.
    - rewrite registerAdUnit_new by done. simpl.
      rewrite lookup_insert_ne; [done|]. intros Heq. subst c.
      unfold readMember in E. by rewrite IH, Hc in E. }
  assert (∀ k ik, imps !! k = Some ik →
            ∃ rk, reqs !! k = Some rk ∧ tagid ik = adUnitCode rk ∧
                  pbsize ik = readMember (adUnitsCalled st) (adUnitCode rk) ∧
                  truthyMember (readMember (adUnitsCalled st) (adUnitCode rk)) = true)
    as Hk.
  { intros k ik Hik.
    assert (is_Some (reqs !! k)) as [rk Hrk].
    { apply lookup_lt_is_Some. rewrite <- I3. by eapply lookup_lt_Some. }
    exists rk. split; [done|]. split.
    - assert ((tagid <$> imps) !! k = (adUnitCode <$> reqs) !! k) as Hl by by rewrite Htag.
      rewrite !list_lookup_fmap, Hik, Hrk in Hl. by simplify_eq/=.
    - split; [by eapply I4|].
      apply I1. left. apply list_elem_of_fmap_2. by eapply list_elem_of_lookup_2. }
  destruct (Hk i imp1 H1) as (r1 & _ & Ht1 & Hp1 & Hl1).
  destruct (Hk j imp2 H2) as (r2 & _ & Ht2 & Hp2 & Hl2).
  split; [|split].
  - intros Hown. rewrite Hp1. rewrite Ht1 in Hown.
    unfold readMember in *. destruct (adUnitsCalled st !! adUnitCode r1) as [l|].
    + by exists l.
    + by rewrite Hown in Hl1.
  - intros Hinh. rewrite Hp1. rewrite Ht1 in Hinh.
    unfold readMember. by rewrite (Hnone _ Hinh), Hinh.
  - intros label Ha Hb. rewrite Ht1, Ht2.
    rewrite Hp1 in Ha. rewrite Hp2 in Hb.
    apply readMember_own in Ha. apply readMember_own in Hb.
    by eapply Hinj.
Qed.

Lemma size_label_names_one_ad_unit_witness :
  ∃ imp1 imp2,
    (inheritedName (tagid imp1) = false → ∃ label, pbsize imp1 = OwnLabel label) ∧
    (inheritedName (tagid imp1) = true → pbsize imp1 = Inherited) ∧
    (∀ label, pbsize imp1 = OwnLabel label → pbsize imp2 = OwnLabel label →
              tagid imp1 = tagid imp2).
Proof.
  eexists _, _.
  apply (size_label_names_one_ad_unit (mkConfig None)
           [Ex.slot5; Ex.slotConstructor; Ex.slot5] 0 2); vm_compute; reflexivity.
Defined.
